(** * Metadata extraction from LLM responses: a shallow embedding

    The development follows the three Python scripts of the repository:

    - [Code.py]: start-up check of the API credential and one chat request;
    - [Extract_Metadata_With_LLM.py]: the hosted (Together) pipeline;
    - [Extract_Metadata_With_LLM_ollama.py]: the local (Ollama) pipeline.

    Python strings are sequences of Unicode code points and are modelled as
    lists of [N].  The library functions the scripts call ([str.strip],
    [re.sub], [re.search], [json.loads], [json.dump], [tenacity.retry],
    [os.path.join], [pathlib.Path.stem]) are modelled by executable
    definitions that follow the CPython implementations; the outside world
    (PDF loader, model backends, random jitter, file system) is an explicit
    environment and state. *)

From Stdlib Require Import Ascii String List NArith ZArith QArith Bool Lia.
From Stdlib Require Import DecimalString Qminmax Lqa.
From Stdlib Require DecimalPos DecimalFacts.
Import ListNotations.

#[local] Set Warnings "-register-all".
Local Open Scope N_scope.

(* ===================================================================== *)
(** * Python strings *)
(* ===================================================================== *)

Module Py.

(** A Python [str]: a sequence of code points. *)
Definition str := list N.

(** Code point of an ASCII character, [ord(c)]. *)
Definition ord (a : ascii) : N := N_of_ascii a.

(** A Rocq string literal read as a Python [str]. *)
Definition pystr (s : string) : str := map N_of_ascii (list_ascii_of_string s).

(** The double quote, which a literal cannot hold. *)
Definition DQ : N := 34.
Definition LF : N := 10.

Definition str_eqb (a b : str) : bool :=
  if list_eq_dec N.eq_dec a b then true else false.

(** [Py_UNICODE_ISSPACE]: the predicate behind [str.strip()], [str.isspace()]
    and the [\s] class of [re] on [str] patterns. *)
Definition is_space (c : N) : bool :=
  ((9 <=? c) && (c <=? 13))
  || ((28 <=? c) && (c <=? 32))
  || (c =? 133) || (c =? 160) || (c =? 5760)
  || ((8192 <=? c) && (c <=? 8202))
  || (c =? 8232) || (c =? 8233) || (c =? 8239) || (c =? 8287) || (c =? 12288).

(** [s.lstrip()]. *)
Fixpoint lstrip (s : str) : str :=
  match s with
  | [] => []
  | c :: t => if is_space c then lstrip t else s
  end.

(** [s.rstrip()]: a character is dropped when it is white space and
    everything after it has been dropped. *)
Fixpoint rstrip (s : str) : str :=
  match s with
  | [] => []
  | c :: t =>
      match rstrip t with
      | [] => if is_space c then [] else [c]
      | t' => c :: t'
      end
  end.

(** [s.strip()]. *)
Definition strip (s : str) : str := rstrip (lstrip s).

(** [s[len(p):]] when [s.startswith(p)]. *)
Fixpoint strip_prefix (p s : str) : option str :=
  match p, s with
  | [], _ => Some s
  | _ :: _, [] => None
  | a :: p', c :: s' => if a =? c then strip_prefix p' s' else None
  end.

Definition startswith (s p : str) : bool :=
  match strip_prefix p s with Some _ => true | None => false end.

Definition endswith (s p : str) : bool := startswith (rev s) (rev p).

(** [tok in s]. *)
Fixpoint contains (tok s : str) : bool :=
  startswith s tok ||
  match s with
  | [] => false
  | _ :: t => contains tok t
  end.

(** [s.lower()], on the ASCII letters.  The other cased code points are left
    as they are: none of them lowers to one of [.], [p], [d], [f], the only
    characters the scripts compare a lowered string with. *)
Definition lower_char (c : N) : N :=
  if (65 <=? c) && (c <=? 90) then c + 32 else c.

Definition lower (s : str) : str := map lower_char s.

(** Python truth value of a string. *)
Definition nonempty (s : str) : bool :=
  match s with [] => false | _ => true end.

End Py.
Export Py.

(* ===================================================================== *)
(** * The three regular expressions of the local variant *)
(* ===================================================================== *)

Module Re.

Definition fence : str := pystr "```".
Definition fence_json : str := pystr "```json".

(** Match of [```json\s*] at the head of [s]: what is left after the match.
    [\s*] is greedy and nothing follows it, so it takes the whole run. *)
Definition match_fence_json (s : str) : option str :=
  match strip_prefix fence_json s with
  | Some rest => Some (lstrip rest)
  | None => None
  end.

(** Match of [\s*```] at the head of [s].  Giving white space back cannot
    help, a given-back character is no backtick, so the match exists exactly
    when the fence follows the whole run. *)
Definition match_ws_fence (s : str) : option str :=
  strip_prefix fence (lstrip s).

(** [re.sub(pattern, '', s)] for a pattern that never matches the empty
    string: scan from the left, delete a match where there is one and go on
    after it, copy the character otherwise.  [m] is the match at the head. *)
Fixpoint sub_loop (fuel : nat) (m : str -> option str) (s : str) : str :=
  match fuel with
  | O => s
  | S fuel' =>
      match s with
      | [] => []
      | c :: t =>
          match m s with
          | Some rest => sub_loop fuel' m rest
          | None => c :: sub_loop fuel' m t
          end
      end
  end.

Definition re_sub (m : str -> option str) (s : str) : str :=
  sub_loop (length s) m s.

(** The longest prefix of [t] that ends with a closing brace: [.*\}] under
    [re.DOTALL]. *)
Fixpoint upto_last_close (t : str) : option str :=
  match t with
  | [] => None
  | c :: t' =>
      match upto_last_close t' with
      | Some m => Some (c :: m)
      | None => if c =? ord "}" then Some [c] else None
      end
  end.

(** [re.search(r'\{.*\}', s, re.DOTALL)], the text of [match.group(0)].  The
    search stops at the first opening brace: when no closing brace follows
    it, none follows a later one either. *)
Fixpoint search_braces (s : str) : option str :=
  match s with
  | [] => None
  | c :: t =>
      if c =? ord "{" then
        match upto_last_close t with
        | Some m => Some (c :: m)
        | None => None
        end
      else search_braces t
  end.

End Re.
Export Re.

(* ===================================================================== *)
(** * Exceptions and results *)
(* ===================================================================== *)

(** The exceptions of the scripts and of their collaborators.  All of them
    derive from [Exception]; [KeyboardInterrupt] and [SystemExit] do not and
    are outside the model. *)
Inductive exn : Type :=
| JSONDecodeError
| ValueError (msg : str)
| AuthenticationError
| FileNotFoundError (path : str)
| AttributeError
| RetryError (last : exn)
| OtherError (name : str).

(** The outcome of a Python call: a value, or a raised exception. *)
Inductive pyresult (A : Type) : Type :=
| Ok (a : A)
| Raise (e : exn).
Arguments Ok {A} a.
Arguments Raise {A} e.

(* ===================================================================== *)
(** * json.loads and json.dump *)
(* ===================================================================== *)

Module Json.

(** [float(numstr)] is kept as the exact decimal the text denotes,
    [(-1)^negative * mantissa * 10^exp10]; the rounding to binary64 is not
    modelled. *)
Inductive pyfloat : Type :=
| FNaN
| FInf (negative : bool)
| FDec (negative : bool) (mantissa : N) (exp10 : Z).

(** The objects [json.loads] builds.  A [dict] keeps its keys in insertion
    order. *)
Inductive value : Type :=
| VNone
| VBool (b : bool)
| VInt (z : Z)
| VFloat (f : pyfloat)
| VStr (s : str)
| VList (items : list value)
| VDict (items : list (str * value)).

(** [d[k] = v]: a key already present keeps its place. *)
Fixpoint dict_set (d : list (str * value)) (k : str) (v : value)
  : list (str * value) :=
  match d with
  | [] => [(k, v)]
  | (k', v') :: d' =>
      if str_eqb k k' then (k', v) :: d' else (k', v') :: dict_set d' k v
  end.

(** A decimal rounds to the float zero when it is zero or at most [2^-1075],
    half of the least subnormal. *)
Definition float_is_zero (f : pyfloat) : bool :=
  match f with
  | FNaN | FInf _ => false
  | FDec _ m e =>
      (m =? 0) || ((e <? 0)%Z && (m * 2 ^ 1075 <=? 10 ^ Z.to_N (- e)))
  end.

(** [bool(v)], the test of [if not metadata]. *)
Definition truthy (v : value) : bool :=
  match v with
  | VNone => false
  | VBool b => b
  | VInt z => negb (z =? 0)%Z
  | VFloat f => negb (float_is_zero f)
  | VStr s => nonempty s
  | VList l => match l with [] => false | _ => true end
  | VDict d => match d with [] => false | _ => true end
  end.

(** ** The scanner

    After [Modules/_json.c]: [scanstring_unicode], [_match_number_unicode],
    [_parse_object_unicode], [_parse_array_unicode], [scan_once_unicode]. *)

Definition is_json_ws (c : N) : bool :=
  (c =? 32) || (c =? 9) || (c =? 10) || (c =? 13).

Fixpoint skip_ws (s : str) : str :=
  match s with
  | [] => []
  | c :: t => if is_json_ws c then skip_ws t else s
  end.

Definition is_digit (c : N) : bool := (48 <=? c) && (c <=? 57).

(** The run of decimal digits at the head of [s], and what follows. *)
Fixpoint span_digits (s : str) : str * str :=
  match s with
  | [] => ([], [])
  | c :: t =>
      if is_digit c then let (ds, r) := span_digits t in (c :: ds, r)
      else ([], s)
  end.

Definition digits_value (ds : str) : N :=
  fold_left (fun acc c => 10 * acc + (c - 48)) ds 0.

Definition hex_val (c : N) : option N :=
  if (48 <=? c) && (c <=? 57) then Some (c - 48)
  else if (97 <=? c) && (c <=? 102) then Some (c - 87)
  else if (65 <=? c) && (c <=? 70) then Some (c - 55)
  else None.

Definition hex4 (a b c d : N) : option N :=
  match hex_val a, hex_val b, hex_val c, hex_val d with
  | Some x, Some y, Some z, Some w => Some (((x * 16 + y) * 16 + z) * 16 + w)
  | _, _, _, _ => None
  end.

Definition is_high_surrogate (u : N) : bool := (55296 <=? u) && (u <=? 56319).
Definition is_low_surrogate (u : N) : bool := (56320 <=? u) && (u <=? 57343).
Definition join_surrogates (hi lo : N) : N :=
  65536 + (hi - 55296) * 1024 + (lo - 56320).

(** The character of a two-character escape. *)
Definition escape_char (e : N) : option N :=
  if (e =? DQ) || (e =? ord "\") || (e =? ord "/") then Some e
  else if e =? ord "b" then Some 8
  else if e =? ord "f" then Some 12
  else if e =? ord "n" then Some 10
  else if e =? ord "r" then Some 13
  else if e =? ord "t" then Some 9
  else None.

Definition cons_char (c : N) (r : option (str * str)) : option (str * str) :=
  match r with
  | Some (chunk, rest) => Some (c :: chunk, rest)
  | None => None
  end.

(** [scanstring] in strict mode, from just after the opening quote: the
    decoded string and the text after the closing quote. *)
Fixpoint scanstring (s : str) : option (str * str) :=
  match s with
  | [] => None
  | c :: t =>
      if c =? DQ then Some ([], t)
      else if c =? ord "\" then
        match t with
        | [] => None
        | e :: t1 =>
            if e =? ord "u" then
              match t1 with
              | h1 :: h2 :: h3 :: h4 :: t2 =>
                  match hex4 h1 h2 h3 h4 with
                  | None => None
                  | Some u =>
                      if is_high_surrogate u then
                        match t2 with
                        | b :: x :: g1 :: g2 :: g3 :: g4 :: t3 =>
                            if (b =? ord "\") && (x =? ord "u") then
                              match hex4 g1 g2 g3 g4 with
                              | None => None
                              | Some u2 =>
                                  if is_low_surrogate u2
                                  then cons_char (join_surrogates u u2)
                                                 (scanstring t3)
                                  else cons_char u (scanstring t2)
                              end
                            else cons_char u (scanstring t2)
                        | _ => cons_char u (scanstring t2)
                        end
                      else cons_char u (scanstring t2)
                  end
              | _ => None
              end
            else
              match escape_char e with
              | Some ch => cons_char ch (scanstring t1)
              | None => None
              end
        end
      else if c <=? 31 then None
      else cons_char c (scanstring t)
  end.

(** The optional fraction [\.[0-9]+]. *)
Definition match_frac (s : str) : option (str * str) :=
  match s with
  | dot :: d :: _ =>
      if (dot =? ord ".") && is_digit d
      then Some (span_digits (tl s))
      else None
  | _ => None
  end.

(** The optional exponent [[eE][-+]?[0-9]+]. *)
Definition match_exp (s : str) : option (Z * str) :=
  match s with
  | e :: t =>
      if (e =? ord "e") || (e =? ord "E") then
        let '(neg, t1) :=
          match t with
          | sg :: t' =>
              if sg =? ord "-" then (true, t')
              else if sg =? ord "+" then (false, t')
              else (false, t)
          | [] => (false, t)
          end in
        match span_digits t1 with
        | ([], _) => None
        | (ds, r) =>
            let n := Z.of_N (digits_value ds) in
            Some (if neg then (- n)%Z else n, r)
        end
      else None
  | [] => None
  end.

(** [_match_number_unicode]: [int(numstr)] without fraction and exponent,
    [float(numstr)] with one of them. *)
Definition match_number (s : str) : option (value * str) :=
  let '(neg, s1) :=
    match s with
    | c :: t => if c =? ord "-" then (true, t) else (false, s)
    | [] => (false, s)
    end in
  match s1 with
  | [] => None
  | c :: t =>
      let int_part :=
        if (49 <=? c) && (c <=? 57)
        then let (ds, r) := span_digits t in Some (c :: ds, r)
        else if c =? ord "0" then Some ([c], t)
        else None in
      match int_part with
      | None => None
      | Some (ids, r) =>
          let '(fds, r1, has_frac) :=
            match match_frac r with
            | Some (fds, r1) => (fds, r1, true)
            | None => ([], r, false)
            end in
          let '(ex, r2, has_exp) :=
            match match_exp r1 with
            | Some (ex, r2) => (ex, r2, true)
            | None => (0%Z, r1, false)
            end in
          if has_frac || has_exp
          then Some (VFloat (FDec neg (digits_value (ids ++ fds))
                                  (ex - Z.of_nat (length fds))), r2)
          else
            let n := Z.of_N (digits_value ids) in
            Some (VInt (if neg then (- n)%Z else n), r2)
      end
  end.

(** The outcome of a scan with fuel: a value and the rest of the text, a
    [JSONDecodeError], or no fuel left. *)
Inductive scan (A : Type) : Type :=
| Found (a : A) (rest : str)
| Invalid
| Exhausted.
Arguments Found {A} a rest.
Arguments Invalid {A}.
Arguments Exhausted {A}.

Definition of_option {A} (o : option (A * str)) : scan A :=
  match o with
  | Some (a, rest) => Found a rest
  | None => Invalid
  end.

(** A keyword at the head of the text. *)
Definition literal (kw : string) (v : value) (s : str) : option (value * str) :=
  match strip_prefix (pystr kw) s with
  | Some rest => Some (v, rest)
  | None => None
  end.

(** [scan_once] dispatches on the first character; [parse_array] and
    [parse_object] are the loops of [_parse_array_unicode] and
    [_parse_object_unicode], entered after the opening bracket and the white
    space behind it, at an element or a key. *)
Fixpoint scan_once (fuel : nat) (s : str) : scan value :=
  match fuel with
  | O => Exhausted
  | S fuel' =>
      match s with
      | [] => Invalid
      | c :: t =>
          if c =? DQ then
            of_option (option_map (fun p => (VStr (fst p), snd p)) (scanstring t))
          else if c =? ord "{" then
            match skip_ws t with
            | c' :: t' =>
                if c' =? ord "}" then Found (VDict []) t'
                else parse_object fuel' [] (c' :: t')
            | [] => Invalid
            end
          else if c =? ord "[" then
            match skip_ws t with
            | c' :: t' =>
                if c' =? ord "]" then Found (VList []) t'
                else parse_array fuel' [] (c' :: t')
            | [] => Invalid
            end
          else
            let number := of_option (match_number s) in
            let keyword kw v :=
              match literal kw v s with
              | Some r => of_option (Some r)
              | None => number
              end in
            if c =? ord "n" then keyword "null"%string VNone
            else if c =? ord "t" then keyword "true"%string (VBool true)
            else if c =? ord "f" then keyword "false"%string (VBool false)
            else if c =? ord "N" then keyword "NaN"%string (VFloat FNaN)
            else if c =? ord "I" then
              keyword "Infinity"%string (VFloat (FInf false))
            else if c =? ord "-" then
              keyword "-Infinity"%string (VFloat (FInf true))
            else number
      end
  end

with parse_array (fuel : nat) (acc : list value) (s : str) : scan value :=
  match fuel with
  | O => Exhausted
  | S fuel' =>
      match scan_once fuel' s with
      | Found v rest =>
          match skip_ws rest with
          | c :: t =>
              if c =? ord "]" then Found (VList (acc ++ [v])) t
              else if c =? ord "," then parse_array fuel' (acc ++ [v]) (skip_ws t)
              else Invalid
          | [] => Invalid
          end
      | Invalid => Invalid
      | Exhausted => Exhausted
      end
  end

with parse_object (fuel : nat) (acc : list (str * value)) (s : str)
  : scan value :=
  match fuel with
  | O => Exhausted
  | S fuel' =>
      match s with
      | q :: t =>
          if q =? DQ then
            match scanstring t with
            | Some (key, rest) =>
                match skip_ws rest with
                | colon :: t1 =>
                    if colon =? ord ":" then
                      match scan_once fuel' (skip_ws t1) with
                      | Found v rest1 =>
                          match skip_ws rest1 with
                          | c :: t2 =>
                              if c =? ord "}"
                              then Found (VDict (dict_set acc key v)) t2
                              else if c =? ord ","
                              then parse_object fuel' (dict_set acc key v)
                                                (skip_ws t2)
                              else Invalid
                          | [] => Invalid
                          end
                      | Invalid => Invalid
                      | Exhausted => Exhausted
                      end
                    else Invalid
                | [] => Invalid
                end
            | None => Invalid
            end
          else Invalid
      | [] => Invalid
      end
  end.

Definition BOM : N := 65279.

(** [json.loads(s)] for a [str]: [None] stands for [JSONDecodeError].  Every
    nested call uses up at most two units of fuel for a character it
    consumes, so the fuel given here is never used up. *)
Definition json_loads (s : str) : option value :=
  if startswith s [BOM] then None
  else
    let s0 := skip_ws s in
    match scan_once (2 * length s0 + 1) s0 with
    | Found v rest =>
        match skip_ws rest with
        | [] => Some v
        | _ :: _ => None
        end
    | Invalid => None
    | Exhausted => None
    end.

End Json.
Export Json.

Module JsonDump.

(** ** json.dump(obj, f, indent=2)

    After [json/encoder.py]: [encode_basestring_ascii] and [_make_iterencode]
    with [ensure_ascii=True], [allow_nan=True], separators [","] and [": "]. *)

Definition hex_digit (n : N) : N := if n <? 10 then 48 + n else 87 + n.

(** ['\\u{0:04x}'.format(n)]. *)
Definition u_escape (n : N) : str :=
  pystr "\u" ++ [hex_digit ((n / 4096) mod 16); hex_digit ((n / 256) mod 16);
                 hex_digit ((n / 16) mod 16); hex_digit (n mod 16)].

Definition escape_ascii (c : N) : str :=
  if c =? DQ then [ord "\"; DQ]
  else if c =? ord "\" then [ord "\"; ord "\"]
  else if c =? 10 then pystr "\n"
  else if c =? 13 then pystr "\r"
  else if c =? 9 then pystr "\t"
  else if c =? 12 then pystr "\f"
  else if c =? 8 then pystr "\b"
  else if (32 <=? c) && (c <=? 126) then [c]
  else if c <? 65536 then u_escape c
  else
    let n := c - 65536 in
    u_escape (N.lor 55296 (N.land (N.shiftr n 10) 1023))
    ++ u_escape (N.lor 56320 (N.land n 1023)).

Definition encode_basestring_ascii (s : str) : str :=
  DQ :: flat_map escape_ascii s ++ [DQ].

(** [int.__repr__]. *)
Definition int_repr (z : Z) : str :=
  pystr (DecimalString.NilZero.string_of_int (Z.to_int z)).

(** [sep.join(parts)]. *)
Fixpoint join (sep : str) (parts : list str) : str :=
  match parts with
  | [] => []
  | [p] => p
  | p :: rest => p ++ sep ++ join sep rest
  end.

(** ['\n' + ' ' * 2 * level]. *)
Definition newline_indent (level : nat) : str := LF :: repeat 32 (2 * level).

Section Encoder.

(** [float.__repr__] of a finite float; the binary64 arithmetic behind it is
    not modelled. *)
Variable float_repr : pyfloat -> str.

Definition floatstr (f : pyfloat) : str :=
  match f with
  | FNaN => pystr "NaN"
  | FInf false => pystr "Infinity"
  | FInf true => pystr "-Infinity"
  | FDec _ _ _ => float_repr f
  end.

(** [_iterencode(o, level)], the chunks joined. *)
Fixpoint iterencode (level : nat) (o : value) : str :=
  match o with
  | VNone => pystr "null"
  | VBool true => pystr "true"
  | VBool false => pystr "false"
  | VInt z => int_repr z
  | VFloat f => floatstr f
  | VStr s => encode_basestring_ascii s
  | VList [] => pystr "[]"
  | VList items =>
      pystr "[" ++ newline_indent (S level)
      ++ join (pystr "," ++ newline_indent (S level))
              (map (iterencode (S level)) items)
      ++ newline_indent level ++ pystr "]"
  | VDict [] => pystr "{}"
  | VDict items =>
      pystr "{" ++ newline_indent (S level)
      ++ join (pystr "," ++ newline_indent (S level))
              (map (fun kv => encode_basestring_ascii (fst kv) ++ pystr ": "
                              ++ iterencode (S level) (snd kv)) items)
      ++ newline_indent level ++ pystr "}"
  end.

(** The text [json.dump(obj, f, indent=2)] writes to [f]. *)
Definition json_dump_indent2 (obj : value) : str := iterencode 0 obj.

End Encoder.

End JsonDump.
Export JsonDump.

(* ===================================================================== *)
(** * Paths *)
(* ===================================================================== *)

Module Path.

Definition SEP : N := ord "/".

(** [os.path.join(a, b)] of [posixpath]. *)
Definition path_join (a b : str) : str :=
  if startswith b [SEP] then b
  else if negb (nonempty a) || endswith a [SEP] then a ++ b
  else a ++ [SEP] ++ b.

(** [s.split('/')]. *)
Fixpoint split_sep (s : str) : list str :=
  match s with
  | [] => [[]]
  | c :: t =>
      if c =? SEP then [] :: split_sep t
      else
        match split_sep t with
        | h :: r => (c :: h) :: r
        | [] => [[c]]
        end
  end.

(** [Path(p).name]: the last component, empty and [.] components dropped. *)
Definition name (p : str) : str :=
  last (filter (fun c => nonempty c && negb (str_eqb c (pystr ".")))
               (split_sep p)) [].

(** [s.rfind('.')]. *)
Fixpoint rfind_dot (s : str) : option nat :=
  match s with
  | [] => None
  | c :: t =>
      match rfind_dot t with
      | Some i => Some (S i)
      | None => if c =? ord "." then Some O else None
      end
  end.

(** [Path(p).stem]. *)
Definition stem (p : str) : str :=
  let n := name p in
  match rfind_dot n with
  | Some i =>
      if (0 <? i)%nat && (i <? length n - 1)%nat then firstn i n else n
  | None => n
  end.

(** [d.rstrip('/')]. *)
Fixpoint rstrip_sep (d : str) : str :=
  match d with
  | [] => []
  | c :: t =>
      match rstrip_sep t with
      | [] => if c =? SEP then [] else [c]
      | t' => c :: t'
      end
  end.

(** A directory name without trailing separators; the root stays. *)
Definition norm_dir (d : str) : str :=
  match rstrip_sep d with
  | [] => d
  | r => r
  end.

(** [p[:p.rfind('/') + 1]]. *)
Fixpoint head_of (p : str) : str :=
  match p with
  | [] => []
  | c :: t => if existsb (N.eqb SEP) p then c :: head_of t else []
  end.

(** [os.path.dirname(p)] of [posixpath]. *)
Definition dirname (p : str) : str := norm_dir (head_of p).

End Path.
Export Path.

(* ===================================================================== *)
(** * The outside world *)
(* ===================================================================== *)

Module World.

(** The lines the scripts print. *)
Inductive message : Type :=
| MsgProcessing (pdf_path : str)
| MsgExtractedText (pdf_path : str)
| MsgEmptyResponse
| MsgFailedParse
| MsgRawResponse (response_content : str)
| MsgFailedExtractValid
| MsgErrorCalling (e : exn)
| MsgFailedMetadata (pdf_path : str)
| MsgExtractedMetadata (model_id pdf_path : str)
| MsgSaved (output_path : str)
| MsgErrorProcessing (pdf_path : str) (e : exn)
| MsgChunk (content : str)
| MsgErrorOccurred (e : exn).

(** What can be observed of a run, in the order it happens. *)
Inductive event : Type :=
| Printed (m : message)
| Requested (model_id : str)
| Slept (delay : Q)
| ClientCreated.

(** The object [client.chat.completions.create] returns, as far as
    [extract_metadata] looks at it: its truth value, whether ["choices"] is
    in it, and for each choice what [choice["message"]["content"]] gives. *)
Record response : Type := mkResponse {
  resp_truthy : bool;
  has_choices : bool;
  choices : list (pyresult str) }.

(** The collaborators.  [getenv] is [os.getenv] after [load_dotenv()];
    [pdf_pages] is [UnstructuredPDFLoader(path).load()], the page contents;
    the two backends answer by the number of calls made before; [random] is
    the sequence of [random.random()] draws; [float_repr] is
    [float.__repr__]. *)
Record Env : Type := mkEnv {
  getenv : str -> option str;
  pdf_pages : str -> pyresult (list str);
  read_text : str -> pyresult str;
  listdir : str -> pyresult (list str);
  random : nat -> Q;
  float_repr : pyfloat -> str;
  together_create : nat -> str -> str -> pyresult response;
  together_stream : nat -> pyresult (list (pyresult str));
  ollama_generate : nat -> str -> str -> pyresult (list (pyresult str)) }.

(** The state a run changes. *)
Record World : Type := mkWorld {
  dirs : list str;
  files : list (str * str);
  calls : nat;
  draws : nat;
  trace : list event }.

(** A Python computation: it ends with a value or an exception, and changes
    the world. *)
Definition M (A : Type) : Type := World -> pyresult A * World.

Definition ret {A} (a : A) : M A := fun w => (Ok a, w).

Definition raise {A} (e : exn) : M A := fun w => (Raise e, w).

Definition lift {A} (r : pyresult A) : M A := fun w => (r, w).

Definition bind {A B} (m : M A) (k : A -> M B) : M B :=
  fun w =>
    match m w with
    | (Ok a, w') => k a w'
    | (Raise e, w') => (Raise e, w')
    end.

(** [try: body / except Exception as e: handler]. *)
Definition try_except {A} (body : M A) (handler : exn -> M A) : M A :=
  fun w =>
    match body w with
    | (Ok a, w') => (Ok a, w')
    | (Raise e, w') => handler e w'
    end.

Declare Scope py_scope.
Delimit Scope py_scope with py.
Notation "x <- m ;; k" := (bind m (fun x => k))
  (at level 61, m at next level, right associativity) : py_scope.
Notation "m ;; k" := (bind m (fun _ => k))
  (at level 61, right associativity) : py_scope.
Open Scope py_scope.

Definition emit (e : event) : M unit :=
  fun w => (Ok tt, mkWorld (dirs w) (files w) (calls w) (draws w)
                           (trace w ++ [e])).

Definition print (m : message) : M unit := emit (Printed m).

(** [for x in xs: body(x)]. *)
Fixpoint for_each {A} (xs : list A) (body : A -> M unit) : M unit :=
  match xs with
  | [] => ret tt
  | x :: rest => body x ;; for_each rest body
  end.

(** [random.random()]. *)
Definition draw (E : Env) : M Q :=
  fun w => (Ok (random E (draws w)),
            mkWorld (dirs w) (files w) (calls w) (S (draws w)) (trace w)).

(** [time.sleep(delay)]. *)
Definition sleep (delay : Q) : M unit := emit (Slept delay).

(** A request that reaches a backend: it is counted and traced. *)
Definition request {A} (model_id : str) (answer : nat -> pyresult A) : M A :=
  fun w => (answer (calls w),
            mkWorld (dirs w) (files w) (S (calls w)) (draws w)
                    (trace w ++ [Requested model_id])).

Definition dir_exists (w : World) (d : str) : bool :=
  negb (nonempty d) || existsb (str_eqb (norm_dir d)) (map norm_dir (dirs w)).

(** [os.makedirs(d, exist_ok=True)]. *)
Definition makedirs (d : str) : M unit :=
  fun w => (Ok tt, mkWorld (d :: dirs w) (files w) (calls w) (draws w)
                           (trace w)).

(** [with open(path, 'w', encoding='utf-8') as f: f.write(text)]: the file
    is created or replaced; a missing directory is [FileNotFoundError]. *)
Definition write_file (path text : str) : M unit :=
  fun w =>
    if dir_exists w (dirname path)
    then (Ok tt,
          mkWorld (dirs w)
                  ((path, text)
                   :: filter (fun f => negb (str_eqb (fst f) path)) (files w))
                  (calls w) (draws w) (trace w))
    else (Raise (FileNotFoundError path), w).

(** Truth value of an optional string ([None] and [''] are false). *)
Definition truthy_opt (o : option str) : bool :=
  match o with
  | Some s => nonempty s
  | None => false
  end.

(** [Together(api_key=k)], after the SDK's client: a missing key is looked
    up in the environment, and a client without key is refused. *)
Definition Together (E : Env) (api_key : option str) : M unit :=
  let key :=
    if truthy_opt api_key then api_key
    else getenv E (pystr "TOGETHER_API_KEY") in
  if truthy_opt key then emit ClientCreated
  else raise AuthenticationError.

End World.
Export World.

(* ===================================================================== *)
(** * tenacity: retry with random exponential back-off *)
(* ===================================================================== *)

Module Tenacity.

(** [stop_after_attempt(10)]. *)
Definition max_attempt_number : nat := 10.

(** [wait_random_exponential(min=1, max=120)], with the defaults
    [multiplier=1] and [exp_base=2]. *)
Definition wait_min : Q := 1.
Definition wait_max : Q := 120.
Definition multiplier : Q := 1.
Definition exp_base : Z := 2.

(** [wait_exponential.__call__]:
    [max(max(0, min), min(multiplier * exp_base ** (attempt_number - 1), max))]. *)
Definition wait_exponential (attempt_number : nat) : Q :=
  let exp := inject_Z (exp_base ^ Z.of_nat (attempt_number - 1)) in
  let result := (multiplier * exp)%Q in
  Qmax (Qmax 0 wait_min) (Qmin result wait_max).

(** [wait_random_exponential.__call__]: [random.uniform(min, high)], which
    is [min + (high - min) * random.random()].  This is the draw of the
    releases of tenacity that honour [min]; a release that draws from
    [random.uniform(0, high)] uses [min] for [high] alone. *)
Definition wait_random_exponential (u : Q) (attempt_number : nat) : Q :=
  let high := wait_exponential attempt_number in
  (wait_min + (high - wait_min) * u)%Q.

(** The loop of [Retrying.__call__] with [left] attempts allowed after the
    current one, that is at attempt [max_attempt_number - left].  Any
    exception of [fn] is retried; at the last attempt [stop] holds and
    [RetryError] is raised from it. *)
Fixpoint retrying {A} (E : Env) (fn : M A) (left : nat) : M A :=
  try_except fn
    (fun e =>
       match left with
       | O => raise (RetryError e)
       | S left' =>
           u <- draw E ;;
           sleep (wait_random_exponential u (max_attempt_number - left)) ;;
           retrying E fn left'
       end).

(** [@retry(wait=wait_random_exponential(min=1, max=120),
            stop=stop_after_attempt(10))]. *)
Definition retry {A} (E : Env) (fn : M A) : M A :=
  retrying E fn (max_attempt_number - 1).

End Tenacity.
Export Tenacity.

(* ===================================================================== *)
(** * Code.py *)
(* ===================================================================== *)

Module Code.

Section Script.

Variable E : Env.

Definition MODEL : str := pystr "meta-llama/Meta-Llama-3.1-8B-Instruct-Turbo".

(** The script, top to bottom. *)
Definition main : M unit :=
  let TOGETHER_API_KEY := getenv E (pystr "TOGETHER_API_KEY") in
  if negb (truthy_opt TOGETHER_API_KEY) then
    raise (ValueError
             (pystr "TOGETHER_API_KEY is not set. Please define it in your .env file."))
  else
    Together E TOGETHER_API_KEY ;;
    try_except
      (stream <- request MODEL (together_stream E) ;;
       for_each stream
         (fun chunk =>
            content <- lift chunk ;;
            if nonempty content then print (MsgChunk content) else ret tt))
      (fun e => print (MsgErrorOccurred e)).

End Script.

End Code.

(* ===================================================================== *)
(** * Extract_Metadata_With_LLM.py: the hosted variant *)
(* ===================================================================== *)

Module Hosted.

Definition MODEL_ID : str :=
  pystr "meta-llama/Meta-Llama-3.1-405B-Instruct-Turbo".

(** The fields of [PaperMetadata] with their defaults.  The class is used
    for one thing, [PaperMetadata.model_json_schema()] in the request. *)
Definition PaperMetadata : list (str * value) :=
  [ (pystr "PaperTitle", VStr []);
    (pystr "PublicationYear", VStr []);
    (pystr "Authors", VList []);
    (pystr "AuthorContact", VList []);
    (pystr "Abstract", VStr []);
    (pystr "SummaryAbstract", VStr []) ].

Section Script.

Variable E : Env.

Definition extract_text_from_pdf (pdf_path : str) : M str :=
  documents <- lift (pdf_pages E pdf_path) ;;
  ret (join [LF] documents).

(** The user message of the request. *)
Definition user_content (content : str) : str :=
  pystr "Here is the paper content:" ++ [LF; LF] ++ content ++ [LF; LF]
  ++ pystr "Please extract the relevant metadata strictly as valid JSON.".

Definition chat_completion_with_backoff (model_id content : str) : M response :=
  retry E (request model_id
             (fun n => together_create E n model_id (user_content content))).

(** The part of [extract_metadata] that turns the text of the first choice
    into the result: strip, empty check, direct JSON parse. *)
Definition parse_response (content : str) : M value :=
  let response_content := strip content in
  if negb (nonempty response_content) then
    print MsgEmptyResponse ;; ret (VDict [])
  else
    match json_loads response_content with
    | Some v => ret v
    | None =>
        print MsgFailedParse ;;
        print (MsgRawResponse response_content) ;;
        ret (VDict [])
    end.

Definition extract_metadata (content model_id : str) : M value :=
  try_except
    (response <- chat_completion_with_backoff model_id content ;;
     if negb (resp_truthy response) || negb (has_choices response)
        || (length (choices response) =? 0)%nat
     then print MsgEmptyResponse ;; ret (VDict [])
     else
       text <- lift (nth 0 (choices response) (Raise (OtherError (pystr "IndexError")))) ;;
       parse_response text)
    (fun e => print (MsgErrorCalling e) ;; ret (VDict [])).

Definition process_research_paper (pdf_path output_folder model_id : str)
  : M unit :=
  print (MsgProcessing pdf_path) ;;
  try_except
    (content <- extract_text_from_pdf pdf_path ;;
     print (MsgExtractedText pdf_path) ;;
     metadata <- extract_metadata content model_id ;;
     if negb (truthy metadata) then print (MsgFailedMetadata pdf_path)
     else
       print (MsgExtractedMetadata model_id pdf_path) ;;
       let output_filename := stem pdf_path ++ pystr ".json" in
       let output_path := path_join output_folder output_filename in
       write_file output_path (json_dump_indent2 (float_repr E) metadata) ;;
       print (MsgSaved output_path))
    (fun e => print (MsgErrorProcessing pdf_path e)).

Definition process_directory (directory_path output_folder model_id : str)
  : M unit :=
  filenames <- lift (listdir E directory_path) ;;
  for_each filenames
    (fun filename =>
       if endswith (lower filename) (pystr ".pdf") then
         let pdf_path := path_join directory_path filename in
         process_research_paper pdf_path output_folder model_id
       else ret tt).

(** The script, top to bottom: the module-level client, then the body of
    [if __name__ == "__main__"]. *)
Definition main : M unit :=
  let TOGETHER_API_KEY := getenv E (pystr "TOGETHER_API_KEY") in
  Together E TOGETHER_API_KEY ;;
  let pdf_path := pystr "data/1706.03762v7.pdf" in
  let output_folder := pystr "extracted_metadata" in
  makedirs output_folder ;;
  process_research_paper pdf_path output_folder MODEL_ID ;;
  let directory_path := pystr "data" in
  process_directory directory_path output_folder MODEL_ID.

End Script.

End Hosted.

(* ===================================================================== *)
(** * Extract_Metadata_With_LLM_ollama.py: the local variant *)
(* ===================================================================== *)

Module Ollama.

Definition MODEL_ID : str := pystr "llama-3.2-8b".

Section Script.

Variable E : Env.

Definition read_prompt (prompt_path : str) : M str :=
  lift (read_text E prompt_path).

Definition extract_text_from_pdf (pdf_path : str) : M str :=
  documents <- lift (pdf_pages E pdf_path) ;;
  ret (join [LF] documents).

(** The texts of the streamed chunks, up to the first chunk whose
    [chunk["text"]] raises. *)
Fixpoint chunk_texts (chunks : list (pyresult str)) : pyresult (list str) :=
  match chunks with
  | [] => Ok []
  | Ok text :: rest =>
      match chunk_texts rest with
      | Ok texts => Ok (text :: texts)
      | Raise e => Raise e
      end
  | Raise e :: _ => Raise e
  end.

Definition ollama_completion_with_backoff (model_id prompt : str) : M str :=
  retry E
    (chunks <- request model_id (fun n => ollama_generate E n model_id prompt) ;;
     generated_text <- lift (chunk_texts chunks) ;;
     ret (join [] generated_text)).

Definition combined_prompt (prompt_data content : str) : str :=
  prompt_data ++ [LF; LF] ++ pystr "Here is the paper content:" ++ [LF; LF]
  ++ content ++ [LF; LF]
  ++ pystr "Please extract the relevant metadata in JSON format.".

(** Step 4 of [extract_metadata], the two [re.sub] calls. *)
Definition clean (response_content : str) : str :=
  re_sub match_ws_fence (re_sub match_fence_json response_content).

(** The part of [extract_metadata] that turns the text of the completion
    into the result: strip, empty check, fence clean-up, JSON parse, and the
    brace search when the parse fails. *)
Definition parse_response (completion : str) : M value :=
  let response_content := strip completion in
  if negb (nonempty response_content) then
    print MsgEmptyResponse ;; ret (VDict [])
  else
    let response_content := clean response_content in
    match json_loads response_content with
    | Some v => ret v
    | None =>
        print MsgFailedParse ;;
        print (MsgRawResponse response_content) ;;
        match search_braces response_content with
        | Some group0 =>
            match json_loads group0 with
            | Some v => ret v
            | None => print MsgFailedExtractValid ;; ret (VDict [])
            end
        | None => ret (VDict [])
        end
    end.

Definition extract_metadata (content prompt_path model_id : str) : M value :=
  prompt_data <- read_prompt prompt_path ;;
  try_except
    (completion <-
       ollama_completion_with_backoff model_id
         (combined_prompt prompt_data content) ;;
     parse_response completion)
    (fun e => print (MsgErrorCalling e) ;; ret (VDict [])).

Definition process_research_paper
  (pdf_path prompt_path output_folder model_id : str) : M unit :=
  print (MsgProcessing pdf_path) ;;
  try_except
    (content <- extract_text_from_pdf pdf_path ;;
     print (MsgExtractedText pdf_path) ;;
     metadata <- extract_metadata content prompt_path model_id ;;
     if negb (truthy metadata) then print (MsgFailedMetadata pdf_path)
     else
       print (MsgExtractedMetadata model_id pdf_path) ;;
       let output_filename := stem pdf_path ++ pystr ".json" in
       let output_path := path_join output_folder output_filename in
       write_file output_path (json_dump_indent2 (float_repr E) metadata) ;;
       print (MsgSaved output_path))
    (fun e => print (MsgErrorProcessing pdf_path e)).

Definition process_directory
  (prompt_path directory_path output_folder model_id : str) : M unit :=
  filenames <- lift (listdir E directory_path) ;;
  for_each filenames
    (fun filename =>
       if endswith (lower filename) (pystr ".pdf") then
         let pdf_path := path_join directory_path filename in
         process_research_paper pdf_path prompt_path output_folder model_id
       else ret tt).

(** The body of [if __name__ == "__main__"]. *)
Definition main : M unit :=
  let pdf_path := pystr "data/1706.03762v7.pdf" in
  let prompt_path := pystr "prompt.txt" in
  let output_folder := pystr "extracted_metadata" in
  process_research_paper pdf_path prompt_path output_folder MODEL_ID ;;
  let directory_path := pystr "data" in
  process_directory prompt_path directory_path output_folder MODEL_ID.

End Script.

End Ollama.

(* ===================================================================== *)
(** * Vocabulary of the properties *)
(* ===================================================================== *)

Definition BACKTICK : N := ord "`".
Definition LBRACE : N := ord "{".
Definition RBRACE : N := ord "}".

(** No character of [s] is [ch]. *)
Definition lacks (ch : N) (s : str) : bool :=
  forallb (fun c => negb (c =? ch)) s.

(** [s] is empty or consists of white space ([s.strip() == '']). *)
Definition all_space (s : str) : bool := forallb is_space s.

(** [s] consists of the white space JSON allows between tokens. *)
Definition all_json_ws (s : str) : bool := forallb is_json_ws s.

(** The white space at the head of [s]. *)
Fixpoint leading_space (s : str) : str :=
  match s with
  | [] => []
  | c :: t => if is_space c then c :: leading_space t else []
  end.

(** [m] at the head of a text leaves a strictly shorter text. *)
Definition consuming (m : str -> option str) : Prop :=
  forall s r, m s = Some r -> (length r < length s)%nat.

(** The delays slept in a trace, the requests sent, the documents started
    and the lines printed. *)
Definition delays (tr : list event) : list Q :=
  flat_map (fun ev => match ev with Slept d => [d] | _ => [] end) tr.

Definition requests (tr : list event) : nat :=
  length (filter (fun ev => match ev with Requested _ => true | _ => false end)
                 tr).

Definition started (tr : list event) : list str :=
  flat_map (fun ev => match ev with
                      | Printed (MsgProcessing p) => [p]
                      | _ => []
                      end) tr.

Definition printed (tr : list event) : list message :=
  flat_map (fun ev => match ev with Printed m => [m] | _ => [] end) tr.

Definition delay_in_bounds (d : Q) : Prop := (1 <= d)%Q /\ (d <= 120)%Q.

(** [d.get(k)] on a parsed value. *)
Fixpoint assoc (k : str) (d : list (str * value)) : option value :=
  match d with
  | [] => None
  | (k', v) :: d' => if str_eqb k k' then Some v else assoc k d'
  end.

Definition get (k : str) (v : value) : option value :=
  match v with
  | VDict d => assoc k d
  | _ => None
  end.

(** The validation the specification describes: every field of
    [PaperMetadata], with the parsed value where the key is present and the
    default where it is missing. *)
Definition spec_validated (parsed : list (str * value)) : value :=
  VDict (map (fun field =>
                match assoc (fst field) parsed with
                | Some v => (fst field, v)
                | None => field
                end) Hosted.PaperMetadata).

(** The value [Ollama.parse_response] returns for a cleaned text: step 5 of
    [extract_metadata], without the printing. *)
Definition parse_cleaned (response_content : str) : value :=
  match json_loads response_content with
  | Some v => v
  | None =>
      match search_braces response_content with
      | Some group0 =>
          match json_loads group0 with
          | Some v => v
          | None => VDict []
          end
      | None => VDict []
      end
  end.

(** The values the two parse steps return, without the printing. *)
Definition local_value (completion : str) : value :=
  if nonempty (strip completion)
  then parse_cleaned (Ollama.clean (strip completion))
  else VDict [].

Definition hosted_value (content : str) : value :=
  if nonempty (strip content)
  then match json_loads (strip content) with
       | Some v => v
       | None => VDict []
       end
  else VDict [].

(** One attempt of the local call: the stream is requested and its chunks
    are joined; either step can raise. *)
Definition ollama_attempt (E : Env) (model_id prompt : str) (n : nat)
  : pyresult str :=
  match ollama_generate E n model_id prompt with
  | Ok chunks =>
      match Ollama.chunk_texts chunks with
      | Ok texts => Ok (join [] texts)
      | Raise e => Raise e
      end
  | Raise e => Raise e
  end.

(** What a retried call leaves behind: [attempts] requests and [sleeps]
    delays that satisfy [D], nothing printed, no file touched. *)
Definition retry_effects (D : Q -> Prop) (w w' : World)
                         (attempts sleeps : nat) : Prop :=
  calls w' = (calls w + attempts)%nat
  /\ files w' = files w /\ dirs w' = dirs w
  /\ exists tr, trace w' = trace w ++ tr
                /\ requests tr = attempts
                /\ length (delays tr) = sleeps
                /\ Forall D (delays tr)
                /\ printed tr = [].

(** Every computation run from [w] by [m] adds to the trace events that
    satisfy [P], and nothing else. *)
Definition appends (P : event -> Prop) {A} (m : M A) : Prop :=
  forall w, exists tr, trace (snd (m w)) = trace w ++ tr /\ Forall P tr.

(** An event other than the line that opens a document. *)
Definition not_start (ev : event) : Prop :=
  match ev with
  | Printed (MsgProcessing _) => False
  | _ => True
  end.

(** The file name filter of [process_directory]. *)
Definition is_pdf (filename : str) : bool :=
  endswith (lower filename) (pystr ".pdf").

(** The lines the parse steps print before they return. *)
Definition hosted_diagnostics (raw : str) : list message :=
  if nonempty (strip raw) then
    match json_loads (strip raw) with
    | Some _ => []
    | None => [MsgFailedParse; MsgRawResponse (strip raw)]
    end
  else [MsgEmptyResponse].

Definition local_diagnostics (raw : str) : list message :=
  if nonempty (strip raw) then
    let c := Ollama.clean (strip raw) in
    match json_loads c with
    | Some _ => []
    | None =>
        [MsgFailedParse; MsgRawResponse c]
        ++ match search_braces c with
           | Some group0 =>
               match json_loads group0 with
               | Some _ => []
               | None => [MsgFailedExtractValid]
               end
           | None => []
           end
    end
  else [MsgEmptyResponse].

(** The JSON parse fails and the brace search gives nothing that parses. *)
Definition unparsable (c : str) : Prop :=
  json_loads c = None
  /\ forall group0, search_braces c = Some group0 -> json_loads group0 = None.

(** Between [w] and [w'] the lines [lines] were printed, and no file or
    directory was touched. *)
Definition prints (w w' : World) (lines : list message) : Prop :=
  files w' = files w /\ dirs w' = dirs w
  /\ exists tr, trace w' = trace w ++ tr /\ printed tr = lines.

(** From call number [start] on, the backend fails [failures] times, fewer
    than the attempts allowed, and then answers [v]. *)
Definition answers_after {A} (answer : nat -> pyresult A)
                         (start failures : nat) (v : A) : Prop :=
  (failures < max_attempt_number)%nat
  /\ (forall i, (i < failures)%nat ->
                exists e, answer (start + i)%nat = Raise e)
  /\ answer (start + failures)%nat = Ok v.

(** A world in which nothing has happened. *)
Definition fresh : World := mkWorld [] [] 0 0 [].

(** The raw texts of the end-to-end scenarios. *)
Definition object_X : str :=
  pystr "{" ++ [DQ] ++ pystr "PaperTitle" ++ [DQ] ++ pystr ": " ++ [DQ]
  ++ pystr "X" ++ [DQ] ++ pystr "}".

Definition object_Y : str :=
  pystr "{" ++ [DQ] ++ pystr "PaperTitle" ++ [DQ] ++ pystr ": " ++ [DQ]
  ++ pystr "Y" ++ [DQ] ++ pystr "}".

Definition scenario_A : str :=
  pystr "```json" ++ [LF] ++ object_X ++ [LF] ++ pystr "```".

Definition scenario_B : str :=
  pystr "Sure, here is the result: " ++ object_Y ++ pystr " Hope that helps!".

(** A document whose title quotes a tagged fence. *)
Definition fence_in_title : str :=
  pystr "{" ++ [DQ] ++ pystr "PaperTitle" ++ [DQ] ++ pystr ": " ++ [DQ]
  ++ pystr "Use ```json fences" ++ [DQ] ++ pystr "}".

(** The mapping scenario A expects: every field of [PaperMetadata]. *)
Definition scenario_A_expected : value :=
  VDict [ (pystr "PaperTitle", VStr (pystr "X"));
          (pystr "PublicationYear", VStr []);
          (pystr "Authors", VList []);
          (pystr "AuthorContact", VList []);
          (pystr "Abstract", VStr []);
          (pystr "SummaryAbstract", VStr []) ].

(** Prose with braces of its own before the object. *)
Definition braces_in_prose : str := pystr "Fields {title}: " ++ object_Y.

(** An array in an untagged fence, a vertical tab after the opening fence. *)
Definition array_text : str := pystr "[1]".
Definition fenced_array : str := fence ++ [11] ++ array_text ++ [LF] ++ fence.

(** An environment for the examples: the directory holds [filenames], each
    of them loads as a document of two pages and any other path is missing,
    the prompt file exists, and both backends answer the [n]-th call with
    [reply n]. *)
Definition scripted_env (key : option str) (filenames : list str)
                        (reply : nat -> pyresult str) : Env :=
  mkEnv (fun _ => key)
        (fun path =>
           if existsb (str_eqb (Path.name path)) filenames
           then Ok [pystr "Attention Is All You Need"; pystr "Abstract"]
           else Raise (FileNotFoundError path))
        (fun _ => Ok (pystr "Extract the metadata."))
        (fun _ => Ok filenames)
        (fun _ => 1 # 2)
        (fun _ => [])
        (fun n _ _ =>
           match reply n with
           | Ok text => Ok (mkResponse true true [Ok text])
           | Raise e => Raise e
           end)
        (fun _ => Raise (OtherError (pystr "ConnectionError")))
        (fun n _ _ =>
           match reply n with
           | Ok text => Ok [Ok text]
           | Raise e => Raise e
           end).

(** Three failures, then the object of scenario A. *)
Definition flaky_reply (n : nat) : pyresult str :=
  if (n <? 3)%nat then Raise (OtherError (pystr "Timeout")) else Ok object_X.

Definition failing_reply (n : nat) : pyresult str :=
  Raise (OtherError (pystr "Timeout")).

(** Replies for the examples: the empty object, a text that is no JSON,
    the object of scenario A. *)
Definition empty_object_reply (n : nat) : pyresult str := Ok (pystr "{}").
Definition garbage_reply (n : nat) : pyresult str := Ok (pystr "not json").
Definition object_reply (n : nat) : pyresult str := Ok object_X.

(** A run with a credential, a directory [data] that holds one document and
    one text file, and no output directory yet. *)
Definition one_pdf_env : Env :=
  scripted_env (Some (pystr "secret")) [pystr "a.pdf"; pystr "notes.txt"]
               object_reply.

Definition no_output_dir : World := mkWorld [pystr "data"] [] 0 0 [].

(** The object of scenario A as [json.dump] with [indent=2] writes it. *)
Definition pretty_X : str :=
  pystr "{" ++ [LF] ++ pystr "  " ++ [DQ] ++ pystr "PaperTitle" ++ [DQ]
  ++ pystr ": " ++ [DQ] ++ pystr "X" ++ [DQ] ++ [LF] ++ pystr "}".

Definition title (t : string) : value :=
  VDict [(pystr "PaperTitle", VStr (pystr t))].

(* ===================================================================== *)
(** * Vocabulary of the further properties *)
(* ===================================================================== *)

(** The directories and the files of [w] are [d0] and [f0]. *)
Definition on_disk (d0 : list str) (f0 : list (str * str)) (w : World) : Prop :=
  dirs w = d0 /\ files w = f0.

(** The directories of [w] are [d0]. *)
Definition has_dirs (d0 : list str) (w : World) : Prop := dirs w = d0.

(** [I] looks at the directories and the files only. *)
Definition disk_only (I : World -> Prop) : Prop :=
  forall w w', dirs w' = dirs w -> files w' = files w -> I w -> I w'.

(** [m] keeps [I]: run from a world where [I] holds, it ends in one. *)
Definition keeps (I : World -> Prop) {A} (m : M A) : Prop :=
  forall w, I w -> I (snd (m w)).

(** Between [w] and [w'] the lines [lines] were printed. *)
Definition logged (w w' : World) (lines : list message) : Prop :=
  exists tr, trace w' = trace w ++ tr /\ printed tr = lines.

(** The files after [path] has been written with [text]. *)
Definition with_file (path text : str) (fs : list (str * str))
  : list (str * str) :=
  (path, text) :: filter (fun f => negb (str_eqb (fst f) path)) fs.

(** An environment whose hosted backend always answers [resp]. *)
Definition response_env (resp : response) : Env :=
  mkEnv (fun _ => Some (pystr "secret"))
        (fun _ => Ok [pystr "Attention Is All You Need"])
        (fun _ => Ok (pystr "Extract the metadata."))
        (fun _ => Ok [])
        (fun _ => 1 # 2)
        (fun _ => [])
        (fun _ _ _ => Ok resp)
        (fun _ => Ok [])
        (fun _ _ _ => Ok []).

(** Where [process_research_paper] writes the metadata of [pdf_path]. *)
Definition output_path (output_folder pdf_path : str) : str :=
  path_join output_folder (stem pdf_path ++ pystr ".json").

(** A world in which the output directory [out] exists. *)
Definition with_out_dir : World := mkWorld [pystr "out"] [] 0 0 [].

(** A reply that is a JSON array. *)
Definition array_reply (n : nat) : pyresult str := Ok (pystr "[1]").

(** An environment in which no prompt file can be read. *)
Definition no_prompt_env : Env :=
  mkEnv (fun _ => None)
        (fun _ => Ok [pystr "Attention Is All You Need"])
        (fun path => Raise (FileNotFoundError path))
        (fun _ => Ok [])
        (fun _ => 1 # 2)
        (fun _ => [])
        (fun _ _ _ => Raise (OtherError (pystr "Timeout")))
        (fun _ => Raise (OtherError (pystr "Timeout")))
        (fun _ _ _ => Raise (OtherError (pystr "Timeout"))).

(** An environment with a credential whose two streaming backends answer
    the [n]-th call with [stream n]. *)
Definition streaming_env (stream : nat -> pyresult (list (pyresult str)))
  : Env :=
  mkEnv (fun _ => Some (pystr "secret"))
        (fun _ => Ok [pystr "Attention Is All You Need"])
        (fun _ => Ok (pystr "Extract the metadata."))
        (fun _ => Ok [])
        (fun _ => 1 # 2)
        (fun _ => [])
        (fun _ _ _ => Raise (OtherError (pystr "Timeout")))
        stream
        (fun n _ _ => stream n).

(** A stream that breaks after its first chunk, then whole streams. *)
Definition broken_then_whole (n : nat) : pyresult (list (pyresult str)) :=
  match n with
  | O => Ok [Ok (pystr "{"); Raise (OtherError (pystr "KeyError"))]
  | S _ => Ok [Ok (pystr "{"); Ok []; Ok (pystr "}")]
  end.

(** The lines [Code.py] prints for the contents of the chunks of a stream:
    one for each content that is not empty. *)
Definition chunk_lines (contents : list str) : list message :=
  map MsgChunk (filter nonempty contents).

(** What [w] holds under the path [q] is what the files [f0] hold under
    it. *)
Definition same_file (q : str) (f0 : list (str * str)) (w : World) : Prop :=
  forall text, In (q, text) (files w) <-> In (q, text) f0.

(** What a script ends with once it has started: the exception of the
    listing of [data] when that fails, and no exception otherwise. *)
Definition script_result (E : Env) : pyresult unit :=
  match listdir E (pystr "data") with
  | Ok _ => Ok tt
  | Raise e => Raise e
  end.

(** A world with files of the user in the two directories. *)
Definition user_files : World :=
  mkWorld [pystr "data"; pystr "extracted_metadata"]
          [ (pystr "data/a.pdf", pystr "%PDF");
            (pystr "extracted_metadata/notes.txt", pystr "keep") ]
          0 0 [].

(** A Unicode scalar value: a code point that is no surrogate. *)
Definition is_scalar (c : N) : bool :=
  (c <? 55296) || ((57343 <? c) && (c <? 1114112)).

(** A text of scalar values: a [str] that has an encoding in UTF-8. *)
Definition text_ok (s : str) : bool := forallb is_scalar s.

(** No key occurs twice. *)
Fixpoint distinct (keys : list str) : bool :=
  match keys with
  | [] => true
  | k :: rest => negb (existsb (str_eqb k) rest) && distinct rest
  end.

(** The values [json.dump] and [json.loads] agree on: texts of scalar
    values, mappings with distinct keys, and no float with a decimal
    expansion. *)
Fixpoint plain (v : value) : bool :=
  match v with
  | VNone | VBool _ | VInt _ => true
  | VFloat f => match f with FDec _ _ _ => false | _ => true end
  | VStr s => text_ok s
  | VList items => forallb plain items
  | VDict items =>
      distinct (map fst items)
      && forallb (fun kv => text_ok (fst kv) && plain (snd kv)) items
  end.

(** What can follow the text of a value in the text of a container: a
    comma, a line feed, or nothing. *)
Definition closes (rest : str) : bool :=
  match rest with
  | [] => true
  | c :: _ => (c =? ord ",") || (c =? LF)
  end.

(** [P] holds of the numbers below [n]. *)
Definition below (n : nat) (P : N -> bool) : bool :=
  forallb P (map N.of_nat (seq 0 n)).

(** How the text of a value starts: with a character that is no white
    space, no closing bracket and no byte order mark. *)
Definition starts_value (s : str) : Prop :=
  exists c t, s = c :: t /\ is_json_ws c = false
              /\ (c =? ord "]") = false /\ (c =? ord "}") = false
              /\ (c =? BOM) = false.

(** The text of an item of a mapping. *)
Definition entry (float_repr : pyfloat -> str) (level : nat)
                 (kv : str * value) : str :=
  encode_basestring_ascii (fst kv) ++ pystr ": "
  ++ iterencode float_repr level (snd kv).

(** The scan of the text of [v], followed by [rest], finds [v] and leaves
    [rest], with any fuel from some amount on. *)
Definition scans_back (float_repr : pyfloat -> str) (v : value) : Prop :=
  forall level rest,
    plain v = true -> closes rest = true ->
    exists fuel0, forall fuel, (fuel0 <= fuel)%nat ->
      scan_once fuel (iterencode float_repr level v ++ rest) = Found v rest.

(** Metadata for the examples. *)
Definition sample_metadata : value :=
  VDict [ (pystr "PaperTitle",
           VStr (pystr "Attention " ++ [DQ; 233; 128512; 10; DQ]));
          (pystr "PublicationYear", VInt 2017);
          (pystr "Authors", VList [VStr (pystr "A. Vaswani"); VNone]);
          (pystr "Scores",
           VDict [ (pystr "bleu", VInt (-28)); (pystr "best", VBool true);
                   (pystr "bound", VFloat (FInf true));
                   (pystr "empty", VList []) ]) ].

(** Every mapping in [v] has distinct keys. *)
Fixpoint keys_distinct (v : value) : bool :=
  match v with
  | VList items => forallb keys_distinct items
  | VDict items =>
      distinct (map fst items)
      && forallb (fun kv => keys_distinct (snd kv)) items
  | _ => true
  end.

(** The texts in [v] are texts of scalar values, and [v] holds no float
    with a decimal expansion. *)
Fixpoint portable (v : value) : bool :=
  match v with
  | VFloat f => match f with FDec _ _ _ => false | _ => true end
  | VStr s => text_ok s
  | VList items => forallb portable items
  | VDict items =>
      forallb (fun kv => text_ok (fst kv) && portable (snd kv)) items
  | _ => true
  end.

(** The upper ends of the windows the waits of one wrapped call are drawn
    from, in seconds: after the [k]-th failed attempt the wait is drawn
    from 1 to [min (2 ^ (k - 1)) 120]. *)
Definition backoff_windows : list Q := [1; 2; 4; 8; 16; 32; 64; 120; 120]%Q.

Definition in_window (d high : Q) : Prop := (1 <= d)%Q /\ (d <= high)%Q.

Definition total (ds : list Q) : Q := fold_right Qplus 0%Q ds.

(** Between [w] and [w'] the waits lie in the first windows, one after the
    other, and add up to 367 seconds at most. *)
Definition within_windows (w w' : World) : Prop :=
  exists tr,
    trace w' = trace w ++ tr
    /\ Forall2 in_window (delays tr)
               (firstn (length (delays tr)) backoff_windows)
    /\ (total (delays tr) <= 367)%Q.

(** A reply that is the JSON [null]. *)
Definition null_reply (n : nat) : pyresult str := Ok (pystr "null").

(* ===================================================================== *)
(** * Strings: strip *)
(* ===================================================================== *)

Section StripFacts.

Lemma lstrip_all_space (s : str) : all_space s = true -> lstrip s = [].
Proof.
  induction s as [|c t IH]; simpl; [reflexivity|].
  intros H. apply andb_prop in H as [Hc Ht]. rewrite Hc. auto.
Qed.

Lemma rstrip_all_space (s : str) : all_space s = true -> rstrip s = [].
Proof.
  induction s as [|c t IH]; simpl; [reflexivity|].
  intros H. apply andb_prop in H as [Hc Ht]. rewrite (IH Ht), Hc. reflexivity.
Qed.

Lemma rstrip_nil_all_space (s : str) : rstrip s = [] -> all_space s = true.
Proof.
  induction s as [|c t IH]; simpl; [reflexivity|].
  destruct (rstrip t) eqn:Ht.
  - destruct (is_space c); [intros _; simpl; auto | discriminate].
  - discriminate.
Qed.

Lemma lstrip_app_space (o s : str) :
  all_space o = true -> lstrip (o ++ s) = lstrip s.
Proof.
  induction o as [|c t IH]; simpl; [reflexivity|].
  intros H. apply andb_prop in H as [Hc Ht]. rewrite Hc. auto.
Qed.

Lemma rstrip_cons (c : N) (t : str) :
  rstrip (c :: t) = if is_space c && all_space t then [] else c :: rstrip t.
Proof.
  simpl. destruct (rstrip t) eqn:Ht.
  - rewrite (rstrip_nil_all_space _ Ht), andb_true_r.
    destruct (is_space c); reflexivity.
  - destruct (all_space t) eqn:Ha.
    + rewrite (rstrip_all_space _ Ha) in Ht. discriminate.
    + rewrite andb_false_r. reflexivity.
Qed.

Lemma all_space_app (a b : str) :
  all_space (a ++ b) = all_space a && all_space b.
Proof. apply forallb_app. Qed.

Lemma rstrip_app_space (s o : str) :
  all_space o = true -> rstrip (s ++ o) = rstrip s.
Proof.
  intros Ho. induction s as [|c t IH].
  - simpl. rewrite (rstrip_all_space _ Ho). reflexivity.
  - rewrite <- app_comm_cons, !rstrip_cons, IH, all_space_app, Ho, andb_true_r.
    reflexivity.
Qed.

(** A character that is no white space stops [rstrip]. *)
Lemma rstrip_app_keep (a : str) (c : N) (b : str) :
  is_space c = false -> rstrip (a ++ c :: b) = a ++ c :: rstrip b.
Proof.
  intros Hc. induction a as [|x a IH].
  - simpl app. rewrite rstrip_cons, Hc. reflexivity.
  - rewrite <- !app_comm_cons, rstrip_cons, IH, all_space_app.
    simpl all_space. rewrite Hc, andb_false_r, andb_false_r. reflexivity.
Qed.

(** A character that is no white space stops [lstrip]. *)
Lemma lstrip_app_keep (a : str) (c : N) (b : str) :
  is_space c = false -> lstrip (a ++ c :: b) = lstrip a ++ c :: b.
Proof.
  intros Hc. induction a as [|x a IH]; simpl.
  - rewrite Hc. reflexivity.
  - destruct (is_space x); [exact IH | reflexivity].
Qed.

Lemma lstrip_split (s : str) : s = leading_space s ++ lstrip s.
Proof.
  induction s as [|c t IH]; simpl; [reflexivity|].
  destruct (is_space c); simpl; [f_equal; exact IH | reflexivity].
Qed.

Lemma leading_space_all_space (s : str) : all_space (leading_space s) = true.
Proof.
  induction s as [|c t IH]; simpl; [reflexivity|].
  destruct (is_space c) eqn:Hc; simpl; [rewrite Hc; exact IH | reflexivity].
Qed.

(** [lstrip] gives the empty string or starts with a character that is no
    white space. *)
Lemma lstrip_head (s : str) :
  lstrip s = [] \/ exists c t, lstrip s = c :: t /\ is_space c = false.
Proof.
  induction s as [|c t IH]; simpl; [left; reflexivity|].
  destruct (is_space c) eqn:Hc; [exact IH | right; eauto].
Qed.

Lemma lstrip_nil_all_space (s : str) : lstrip s = [] -> all_space s = true.
Proof.
  induction s as [|c t IH]; simpl; [reflexivity|].
  destruct (is_space c); [exact IH | discriminate].
Qed.

Lemma lstrip_length (s : str) : (length (lstrip s) <= length s)%nat.
Proof.
  induction s as [|c t IH]; simpl; [lia|].
  destruct (is_space c); simpl; lia.
Qed.

Lemma lacks_app (ch : N) (a b : str) :
  lacks ch (a ++ b) = lacks ch a && lacks ch b.
Proof. apply forallb_app. Qed.

Lemma lacks_lstrip (ch : N) (s : str) :
  lacks ch s = true -> lacks ch (lstrip s) = true.
Proof.
  induction s as [|c t IH]; simpl; [reflexivity|].
  intros H. destruct (is_space c).
  - apply andb_prop in H as [_ Ht]. auto.
  - exact H.
Qed.

Lemma lacks_rstrip (ch : N) (s : str) :
  lacks ch s = true -> lacks ch (rstrip s) = true.
Proof.
  induction s as [|c t IH]; [reflexivity|].
  intros H. simpl in H. apply andb_prop in H as [Hc Ht].
  rewrite rstrip_cons. destruct (is_space c && all_space t); [reflexivity|].
  simpl. rewrite Hc. auto.
Qed.

Lemma lacks_strip (ch : N) (s : str) :
  lacks ch s = true -> lacks ch (strip s) = true.
Proof. intros H. apply lacks_rstrip, lacks_lstrip, H. Qed.

(** White space contains neither a backtick nor a brace. *)
Lemma all_space_lacks (ch : N) (s : str) :
  is_space ch = false -> all_space s = true -> lacks ch s = true.
Proof.
  intros Hch. induction s as [|c t IH]; simpl; [reflexivity|].
  intros H. apply andb_prop in H as [Hc Ht]. rewrite (IH Ht), andb_true_r.
  destruct (N.eqb_spec c ch) as [->|]; [congruence | reflexivity].
Qed.

Lemma strip_app_space (o1 s o2 : str) :
  all_space o1 = true -> all_space o2 = true ->
  strip (o1 ++ s ++ o2) = strip s.
Proof.
  intros H1 H2. unfold strip. rewrite lstrip_app_space by exact H1.
  destruct (lstrip_head s) as [Hs | (c & t & Hs & Hc)].
  - rewrite Hs. apply lstrip_nil_all_space in Hs.
    rewrite lstrip_all_space by (rewrite all_space_app, Hs, H2; reflexivity).
    reflexivity.
  - rewrite (lstrip_split s) at 1. rewrite <- app_assoc, Hs.
    rewrite lstrip_app_space by apply leading_space_all_space.
    simpl app. simpl lstrip. rewrite Hc.
    change (c :: t ++ o2) with ((c :: t) ++ o2).
    apply rstrip_app_space, H2.
Qed.

End StripFacts.

(* ===================================================================== *)
(** * Regular expressions: substitution and search *)
(* ===================================================================== *)

Lemma strip_prefix_length (p s r : str) :
  strip_prefix p s = Some r -> length s = (length p + length r)%nat.
Proof.
  revert s. induction p as [|a p IH]; intros s H; simpl in *.
  - injection H as ->. reflexivity.
  - destruct s as [|c s]; [discriminate|].
    destruct (a =? c); [|discriminate]. simpl. f_equal. auto.
Qed.

Lemma match_fence_json_consuming : consuming match_fence_json.
Proof.
  intros s r. unfold match_fence_json.
  destruct (strip_prefix fence_json s) as [rest|] eqn:Hp; [|discriminate].
  intros [= <-]. apply strip_prefix_length in Hp.
  pose proof (lstrip_length rest). simpl in Hp. lia.
Qed.

Lemma match_ws_fence_consuming : consuming match_ws_fence.
Proof.
  intros s r H. unfold match_ws_fence in H.
  apply strip_prefix_length in H. pose proof (lstrip_length s).
  simpl in H. lia.
Qed.

Section Substitution.

Variable m : str -> option str.
Hypothesis m_consuming : consuming m.

(** More fuel than characters changes nothing. *)
Lemma sub_loop_fuel (fuel : nat) :
  forall s, (length s <= fuel)%nat -> sub_loop fuel m s = re_sub m s.
Proof.
  unfold re_sub. induction fuel as [fuel IH] using lt_wf_ind.
  intros s Hlen. destruct s as [|c t].
  - destruct fuel; reflexivity.
  - simpl in Hlen. destruct fuel as [|fuel]; [lia|].
    simpl. destruct (m (c :: t)) as [rest|] eqn:Hm.
    + pose proof (m_consuming _ _ Hm) as Hr. simpl in Hr.
      rewrite (IH fuel) by lia. rewrite (IH (length t)) by lia.
      reflexivity.
    + f_equal. rewrite (IH fuel) by lia. reflexivity.
Qed.

Lemma re_sub_nil : re_sub m [] = [].
Proof. reflexivity. Qed.

(** A match at the head is deleted and the scan goes on after it. *)
Lemma re_sub_match (s rest : str) :
  m s = Some rest -> re_sub m s = re_sub m rest.
Proof.
  intros Hm. pose proof (m_consuming _ _ Hm) as Hr.
  destruct s as [|c t]; [simpl in Hr; lia|].
  unfold re_sub at 1. simpl. rewrite Hm. apply sub_loop_fuel.
  simpl in Hr. lia.
Qed.

(** Without a match at the head the character is copied. *)
Lemma re_sub_skip (c : N) (t : str) :
  m (c :: t) = None -> re_sub m (c :: t) = c :: re_sub m t.
Proof.
  intros Hm. unfold re_sub at 1. simpl. rewrite Hm. reflexivity.
Qed.

Lemma re_sub_length (s : str) : (length (re_sub m s) <= length s)%nat.
Proof.
  induction s as [s IH] using (induction_ltof1 _ (@length N)).
  unfold ltof in IH. destruct s as [|c t]; [simpl; lia|].
  destruct (m (c :: t)) as [rest|] eqn:Hm.
  - rewrite (re_sub_match _ _ Hm). pose proof (m_consuming _ _ Hm).
    specialize (IH rest). lia.
  - rewrite (re_sub_skip _ _ Hm). simpl. specialize (IH t). simpl in IH. lia.
Qed.

(** The substitution leaves the text as it is or makes it shorter. *)
Lemma re_sub_fixed_or_shorter (s : str) :
  re_sub m s = s \/ (length (re_sub m s) < length s)%nat.
Proof.
  induction s as [|c t IH]; [left; reflexivity|].
  destruct (m (c :: t)) as [rest|] eqn:Hm.
  - right. rewrite (re_sub_match _ _ Hm). pose proof (m_consuming _ _ Hm).
    pose proof (re_sub_length rest). lia.
  - rewrite (re_sub_skip _ _ Hm). destruct IH as [-> | IH].
    + left. reflexivity.
    + right. simpl. lia.
Qed.

(** A text in which the pattern matches somewhere gets shorter. *)
Lemma re_sub_shorter (pre s rest : str) :
  m s = Some rest ->
  (length (re_sub m (pre ++ s)) < length (pre ++ s))%nat.
Proof.
  intros Hm. induction pre as [|c pre IH]; simpl app.
  - rewrite (re_sub_match _ _ Hm). pose proof (m_consuming _ _ Hm).
    pose proof (re_sub_length rest). lia.
  - destruct (m (c :: pre ++ s)) as [r|] eqn:Hc.
    + rewrite (re_sub_match _ _ Hc). pose proof (m_consuming _ _ Hc).
      pose proof (re_sub_length r). lia.
    + rewrite (re_sub_skip _ _ Hc). simpl. lia.
Qed.

End Substitution.

(** ** The two fence patterns *)

Lemma strip_prefix_fence_head (p : str) (c : N) (t : str) :
  (c =? BACKTICK) = false ->
  strip_prefix (BACKTICK :: p) (c :: t) = None.
Proof.
  intros Hc.
  change (strip_prefix (BACKTICK :: p) (c :: t))
    with (if BACKTICK =? c then strip_prefix p t else None).
  rewrite N.eqb_sym, Hc. reflexivity.
Qed.

Lemma match_fence_json_none (s : str) :
  lacks BACKTICK s = true -> match_fence_json s = None.
Proof.
  unfold match_fence_json. destruct s as [|c t]; [reflexivity|].
  simpl lacks. intros H. apply andb_prop in H as [Hc _].
  apply negb_true_iff in Hc.
  change fence_json with (BACKTICK :: pystr "``json").
  rewrite strip_prefix_fence_head by exact Hc. reflexivity.
Qed.

Lemma match_ws_fence_none (s : str) :
  lacks BACKTICK s = true -> match_ws_fence s = None.
Proof.
  intros H. unfold match_ws_fence. apply (lacks_lstrip BACKTICK) in H.
  destruct (lstrip s) as [|c t]; [reflexivity|].
  simpl in H. apply andb_prop in H as [Hc _]. apply negb_true_iff in Hc.
  change fence with (BACKTICK :: pystr "``").
  apply strip_prefix_fence_head, Hc.
Qed.

(** A text without backtick goes through a fence substitution unchanged. *)
Lemma re_sub_no_backtick (m : str -> option str) (s : str) :
  (forall t, lacks BACKTICK t = true -> m t = None) ->
  lacks BACKTICK s = true -> re_sub m s = s.
Proof.
  intros Hm. induction s as [|c t IH]; [reflexivity|].
  intros H. rewrite re_sub_skip by (apply Hm, H).
  simpl in H. apply andb_prop in H as [_ Ht]. f_equal. auto.
Qed.

Lemma clean_no_backtick (s : str) :
  lacks BACKTICK s = true -> Ollama.clean s = s.
Proof.
  intros H. unfold Ollama.clean.
  rewrite (re_sub_no_backtick match_fence_json) by (auto using match_fence_json_none).
  apply re_sub_no_backtick; auto using match_ws_fence_none.
Qed.

(** A text free of the tagged fence goes through the first substitution
    unchanged. *)
Lemma re_sub_fence_json_absent (s : str) :
  contains fence_json s = false -> re_sub match_fence_json s = s.
Proof.
  induction s as [|c t IH]; [reflexivity|].
  simpl contains. intros H. apply orb_false_elim in H as [Hs Ht].
  rewrite re_sub_skip.
  - f_equal. auto.
  - unfold match_fence_json. unfold startswith in Hs.
    destruct (strip_prefix fence_json (c :: t)); [discriminate | reflexivity].
Qed.

(** After a text without backtick, the closing fence and the white space
    before it are deleted together with the white space that ends the
    text. *)
Lemma re_sub_closing_fence (s ws : str) :
  lacks BACKTICK s = true -> all_space ws = true ->
  re_sub match_ws_fence (s ++ ws ++ fence) = rstrip s.
Proof.
  intros Hs Hws. induction s as [|c t IH].
  - simpl app. rewrite (re_sub_match _ match_ws_fence_consuming _ []).
    + reflexivity.
    + unfold match_ws_fence. rewrite lstrip_app_space by exact Hws.
      reflexivity.
  - simpl in Hs. apply andb_prop in Hs as [Hc Ht]. apply negb_true_iff in Hc.
    rewrite rstrip_cons. rewrite <- app_comm_cons.
    destruct (is_space c && all_space t) eqn:Hall.
    + apply andb_prop in Hall as [Hsc Hst].
      rewrite (re_sub_match _ match_ws_fence_consuming _ []); [reflexivity|].
      unfold match_ws_fence. simpl lstrip. rewrite Hsc.
      rewrite lstrip_app_space by exact Hst.
      rewrite lstrip_app_space by exact Hws. reflexivity.
    + rewrite re_sub_skip; [f_equal; auto|].
      unfold match_ws_fence. simpl lstrip.
      change fence with (BACKTICK :: pystr "``") at 2.
      destruct (is_space c) eqn:Hsc.
      * simpl in Hall.
        destruct (lstrip_head t) as [Hn | (x & u & Hu & Hx)].
        { apply lstrip_nil_all_space in Hn. congruence. }
        rewrite (lstrip_split t), <- app_assoc.
        rewrite lstrip_app_space by apply leading_space_all_space.
        rewrite Hu. simpl app. simpl lstrip. rewrite Hx.
        apply strip_prefix_fence_head.
        apply (lacks_lstrip BACKTICK) in Ht. rewrite Hu in Ht. simpl in Ht.
        apply andb_prop in Ht as [Ht _]. apply negb_true_iff, Ht.
      * apply strip_prefix_fence_head, Hc.
Qed.

(** After a text without backtick, the closing fence survives the first
    substitution. *)
Lemma re_sub_fence_json_tail (s : str) :
  lacks BACKTICK s = true ->
  re_sub match_fence_json (s ++ fence) = s ++ fence.
Proof.
  induction s as [|c t IH]; [reflexivity|].
  simpl lacks. intros H. apply andb_prop in H as [Hc Ht].
  apply negb_true_iff in Hc. rewrite <- app_comm_cons, re_sub_skip.
  - f_equal. auto.
  - unfold match_fence_json.
    change fence_json with (BACKTICK :: pystr "``json").
    rewrite strip_prefix_fence_head by exact Hc. reflexivity.
Qed.

(** ** The brace search *)

Lemma upto_last_close_none (s : str) :
  lacks RBRACE s = true -> upto_last_close s = None.
Proof.
  induction s as [|c t IH]; [reflexivity|].
  cbn [upto_last_close lacks forallb].
  intros H. apply andb_prop in H as [Hc Ht]. rewrite (IH Ht).
  apply negb_true_iff in Hc. change (ord "}") with RBRACE.
  rewrite Hc. reflexivity.
Qed.

Lemma upto_last_close_app (mid post : str) :
  lacks RBRACE post = true ->
  upto_last_close (mid ++ RBRACE :: post) = Some (mid ++ [RBRACE]).
Proof.
  intros Hpost. induction mid as [|c t IH]; cbn [app upto_last_close].
  - rewrite (upto_last_close_none _ Hpost). reflexivity.
  - rewrite IH. reflexivity.
Qed.

Lemma search_braces_skip (pre s : str) :
  lacks LBRACE pre = true -> search_braces (pre ++ s) = search_braces s.
Proof.
  induction pre as [|c t IH]; [reflexivity|].
  cbn [app search_braces lacks forallb].
  intros H. apply andb_prop in H as [Hc Ht].
  apply negb_true_iff in Hc. change (ord "{") with LBRACE.
  rewrite Hc. auto.
Qed.

(** The search finds the text from the first opening brace through the
    last closing brace. *)
Lemma search_braces_found (pre mid post : str) :
  lacks LBRACE pre = true -> lacks RBRACE post = true ->
  search_braces (pre ++ LBRACE :: mid ++ RBRACE :: post)
  = Some (LBRACE :: mid ++ [RBRACE]).
Proof.
  intros Hpre Hpost. rewrite search_braces_skip by exact Hpre.
  cbn [search_braces]. rewrite upto_last_close_app by exact Hpost.
  reflexivity.
Qed.

(* ===================================================================== *)
(** * json.loads: white space around the document *)
(* ===================================================================== *)

Lemma skip_ws_app (ws s : str) :
  all_json_ws ws = true -> skip_ws (ws ++ s) = skip_ws s.
Proof.
  induction ws as [|c t IH]; [reflexivity|].
  cbn [all_json_ws forallb app skip_ws]. intros H.
  apply andb_prop in H as [Hc Ht]. rewrite Hc. auto.
Qed.

Lemma json_ws_cases (c : N) :
  is_json_ws c = true -> c = 32 \/ c = 9 \/ c = 10 \/ c = 13.
Proof.
  unfold is_json_ws. intros H.
  repeat (apply orb_prop in H as [H | H]); apply N.eqb_eq in H; auto.
Qed.

(** No JSON value starts with a byte order mark. *)
Lemma scan_once_BOM (fuel : nat) (t : str) :
  scan_once (S fuel) (BOM :: t) = Invalid.
Proof. reflexivity. Qed.

Lemma json_loads_nil : json_loads [] = None.
Proof. reflexivity. Qed.

(** [json.loads] skips the white space before the document. *)
Lemma json_loads_leading_ws (ws s : str) :
  all_json_ws ws = true -> json_loads (ws ++ s) = json_loads s.
Proof.
  intros Hws. destruct ws as [|c t]; [reflexivity|].
  unfold json_loads. rewrite skip_ws_app by exact Hws.
  assert (Hb : startswith ((c :: t) ++ s) [BOM] = false).
  { cbn [all_json_ws forallb] in Hws. apply andb_prop in Hws as [Hc _].
    destruct (json_ws_cases _ Hc) as [-> | [-> | [-> | ->]]]; reflexivity. }
  rewrite Hb. destruct (startswith s [BOM]) eqn:Hs; [|reflexivity].
  destruct s as [|b u]; [discriminate|].
  unfold startswith in Hs. cbn [strip_prefix] in Hs.
  destruct (N.eqb_spec BOM b) as [<-|]; [|discriminate].
  change (skip_ws (BOM :: u)) with (BOM :: u).
  rewrite Nat.add_1_r, scan_once_BOM. reflexivity.
Qed.

(* ===================================================================== *)
(** * json.loads: the fuel is never used up *)
(* ===================================================================== *)

Lemma skip_ws_length (s : str) : (length (skip_ws s) <= length s)%nat.
Proof.
  induction s as [|c t IH]; cbn [skip_ws]; [lia|].
  destruct (is_json_ws c); cbn [length]; lia.
Qed.

Lemma span_digits_length (s ds r : str) :
  span_digits s = (ds, r) -> (length r <= length s)%nat.
Proof.
  revert ds r. induction s as [|c t IH]; intros ds r; cbn [span_digits].
  - intros [= <- <-]. lia.
  - destruct (is_digit c).
    + destruct (span_digits t) as [ds' r'] eqn:Ht. intros [= <- <-].
      specialize (IH _ _ eq_refl). cbn [length]. lia.
    + intros [= <- <-]. lia.
Qed.

Lemma cons_char_rest (c : N) (o : option (str * str)) (k r : str) :
  cons_char c o = Some (k, r) -> exists k', o = Some (k', r).
Proof.
  destruct o as [[k' r']|]; cbn; [|discriminate].
  intros [= <- <-]. eauto.
Qed.

(** A string literal takes at least its closing quote. *)
Lemma scanstring_length (s k r : str) :
  scanstring s = Some (k, r) -> (length r < length s)%nat.
Proof.
  revert k r. induction s as [s IH] using (induction_ltof1 _ (@length N)).
  unfold ltof in IH. intros k r. destruct s as [|c t]; [discriminate|].
  cbn [scanstring]. destruct (c =? DQ).
  { intros [= <- <-]. cbn [length]. lia. }
  destruct (c =? ord "\").
  2:{ destruct (c <=? 31); [discriminate|]. intros H.
      apply cons_char_rest in H as [k' H]. apply IH in H; cbn [length] in *; lia. }
  destruct t as [|e t1]; [discriminate|].
  destruct (e =? ord "u").
  2:{ destruct (escape_char e); [|discriminate]. intros H.
      apply cons_char_rest in H as [k' H].
      apply IH in H; cbn [length] in *; lia. }
  destruct t1 as [|h1 [|h2 [|h3 [|h4 t2]]]]; try discriminate.
  destruct (hex4 h1 h2 h3 h4) as [u|]; [|discriminate].
  assert (Hplain : forall k0, cons_char u (scanstring t2) = Some (k0, r) ->
                              (length r < length (c :: e :: h1 :: h2 :: h3 :: h4 :: t2))%nat).
  { intros k0 H. apply cons_char_rest in H as [k' H].
    apply IH in H; cbn [length] in *; lia. }
  destruct (is_high_surrogate u); [|apply Hplain].
  destruct t2 as [|b [|x [|g1 [|g2 [|g3 [|g4 t3]]]]]]; try apply Hplain.
  destruct ((b =? ord "\") && (x =? ord "u")); [|apply Hplain].
  destruct (hex4 g1 g2 g3 g4) as [u2|]; [|discriminate].
  destruct (is_low_surrogate u2); [|apply Hplain].
  intros H. apply cons_char_rest in H as [k' H].
  apply IH in H; cbn [length] in *; lia.
Qed.

Lemma match_frac_length (s ds r : str) :
  match_frac s = Some (ds, r) -> (length r <= length s)%nat.
Proof.
  unfold match_frac. destruct s as [|dot [|d t]]; try discriminate.
  destruct ((dot =? ord ".") && is_digit d); [|discriminate].
  cbn [tl]. destruct (span_digits (d :: t)) as [ds' r'] eqn:H.
  intros [= <- <-]. apply span_digits_length in H. cbn [length] in *. lia.
Qed.

Lemma match_exp_length (s : str) (ex : Z) (r : str) :
  match_exp s = Some (ex, r) -> (length r <= length s)%nat.
Proof.
  unfold match_exp. destruct s as [|e t]; [discriminate|].
  destruct ((e =? ord "e") || (e =? ord "E")); [|discriminate].
  destruct t as [|sg t'].
  - cbn. discriminate.
  - destruct (sg =? ord "-"); [|destruct (sg =? ord "+")];
      (destruct (span_digits _) as [[|c ds] r0] eqn:Hd; [discriminate|]);
      intros [= _ <-]; apply span_digits_length in Hd; cbn [length] in *; lia.
Qed.

(** A number takes at least one digit. *)
Lemma match_number_length (s : str) (v : value) (r : str) :
  match_number s = Some (v, r) -> (length r < length s)%nat.
Proof.
  unfold match_number.
  assert (Hcore : forall (neg : bool) (s1 : str),
    (length s1 <= length s)%nat ->
    match s1 with
    | [] => None
    | c :: t =>
        match (if (49 <=? c) && (c <=? 57)
               then let (ds, r0) := span_digits t in Some (c :: ds, r0)
               else if c =? ord "0" then Some ([c], t) else None) with
        | None => None
        | Some (ids, r0) =>
            let '(fds, r1, has_frac) :=
              match match_frac r0 with
              | Some (fds, r1) => (fds, r1, true)
              | None => ([], r0, false)
              end in
            let '(ex, r2, has_exp) :=
              match match_exp r1 with
              | Some (ex, r2) => (ex, r2, true)
              | None => (0%Z, r1, false)
              end in
            if has_frac || has_exp
            then Some (VFloat (FDec neg (digits_value (ids ++ fds))
                                    (ex - Z.of_nat (length fds))), r2)
            else
              let n := Z.of_N (digits_value ids) in
              Some (VInt (if neg then (- n)%Z else n), r2)
        end
    end = Some (v, r) -> (length r < length s)%nat).
  { intros neg s1 Hlen. destruct s1 as [|c t]; [discriminate|].
    assert (Hint : forall ids r0,
               (if (49 <=? c) && (c <=? 57)
                then let (ds, r0) := span_digits t in Some (c :: ds, r0)
                else if c =? ord "0" then Some ([c], t) else None)
               = Some (ids, r0) -> (length r0 <= length t)%nat).
    { intros ids r0. destruct ((49 <=? c) && (c <=? 57)).
      - destruct (span_digits t) as [ds r'] eqn:Hd. intros [= _ <-].
        eapply span_digits_length, Hd.
      - destruct (c =? ord "0"); [|discriminate]. intros [= _ <-]. lia. }
    destruct (if (49 <=? c) && (c <=? 57) then _ else _) as [[ids r0]|];
      [|discriminate].
    specialize (Hint _ _ eq_refl).
    destruct (match_frac r0) as [[fds r1]|] eqn:Hf.
    - apply match_frac_length in Hf.
      destruct (match_exp r1) as [[ex r2]|] eqn:He.
      + apply match_exp_length in He. cbn. intros [= _ <-].
        cbn [length] in Hlen. lia.
      + cbn. intros [= _ <-]. cbn [length] in Hlen. lia.
    - destruct (match_exp r0) as [[ex r2]|] eqn:He.
      + apply match_exp_length in He. cbn. intros [= _ <-].
        cbn [length] in Hlen. lia.
      + cbn. intros [= _ <-]. cbn [length] in Hlen. lia. }
  destruct s as [|c t].
  - apply (Hcore false []). lia.
  - destruct (c =? ord "-").
    + apply (Hcore true t). cbn [length]. lia.
    + apply (Hcore false (c :: t)). lia.
Qed.

Lemma literal_length (kw : string) (v v' : value) (s r : str) :
  literal kw v s = Some (v', r) ->
  length s = (length (pystr kw) + length r)%nat.
Proof.
  unfold literal. destruct (strip_prefix (pystr kw) s) as [rest|] eqn:H;
    [|discriminate].
  intros [= _ <-]. apply strip_prefix_length, H.
Qed.

Lemma skip_ws_cons_length (s : str) (c : N) (t : str) :
  skip_ws s = c :: t -> (length t < length s)%nat.
Proof.
  intros H. pose proof (skip_ws_length s) as Hl. rewrite H in Hl.
  cbn [length] in Hl. lia.
Qed.

(** What [scan_once] does when the text starts with none of a quote, a
    brace and a bracket: a keyword or a number. *)
Lemma scan_scalar_length (s : str) (v : value) (r : str) :
  (of_option (match_number s) = Found v r
   \/ exists kw v0,
        (0 < length (pystr kw))%nat
        /\ match literal kw v0 s with
           | Some p => of_option (Some p)
           | None => of_option (match_number s)
           end = Found v r) ->
  (length r < length s)%nat.
Proof.
  assert (Hnum : of_option (match_number s) = Found v r ->
                 (length r < length s)%nat).
  { destruct (match_number s) as [[v' r']|] eqn:H; [|discriminate].
    intros [= <- <-]. eapply match_number_length, H. }
  intros [H | (kw & v0 & Hkw & H)]; [auto|].
  destruct (literal kw v0 s) as [[v' r']|] eqn:Hl; [|auto].
  injection H as <- <-. apply literal_length in Hl. lia.
Qed.

(** A scan that finds a value has consumed at least one character. *)
Lemma scan_consumes (fuel : nat) :
  (forall s v r, scan_once fuel s = Found v r -> (length r < length s)%nat)
  /\ (forall acc s v r,
         parse_array fuel acc s = Found v r -> (length r < length s)%nat)
  /\ (forall acc s v r,
         parse_object fuel acc s = Found v r -> (length r < length s)%nat).
Proof.
  induction fuel as [|fuel (IHs & IHa & IHo)];
    [repeat split; intros; discriminate|].
  repeat split.
  - intros s v r. cbn [scan_once]. destruct s as [|c t]; [discriminate|].
    destruct (c =? DQ).
    { destruct (scanstring t) as [[k r']|] eqn:Hs; [|discriminate].
      cbn. intros [= _ <-]. apply scanstring_length in Hs. cbn [length]. lia. }
    destruct (c =? ord "{").
    { destruct (skip_ws t) as [|c' t'] eqn:Hw; [discriminate|].
      pose proof (skip_ws_length t) as Hl. rewrite Hw in Hl.
      destruct (c' =? ord "}").
      - intros [= _ <-]. cbn [length] in *. lia.
      - intros H. apply IHo in H. cbn [length] in *. lia. }
    destruct (c =? ord "[").
    { destruct (skip_ws t) as [|c' t'] eqn:Hw; [discriminate|].
      pose proof (skip_ws_length t) as Hl. rewrite Hw in Hl.
      destruct (c' =? ord "]").
      - intros [= _ <-]. cbn [length] in *. lia.
      - intros H. apply IHa in H. cbn [length] in *. lia. }
    cbv zeta. intros H. apply (scan_scalar_length _ v).
    repeat match type of H with
           | (if ?b then _ else _) = _ => destruct b
           end;
      first [ left; exact H
            | right; do 2 eexists; split; [|exact H]; cbn; lia ].
  - intros acc s v r. cbn [parse_array].
    destruct (scan_once fuel s) as [v0 rest| |] eqn:Hs; try discriminate.
    apply IHs in Hs.
    destruct (skip_ws rest) as [|c t] eqn:Hw; [discriminate|].
    apply skip_ws_cons_length in Hw.
    destruct (c =? ord "]"); [intros [= _ <-]; lia|].
    destruct (c =? ord ","); [|discriminate].
    intros H. apply IHa in H. pose proof (skip_ws_length t). lia.
  - intros acc s v r. cbn [parse_object].
    destruct s as [|q t]; [discriminate|].
    destruct (q =? DQ); [|discriminate].
    destruct (scanstring t) as [[key rest]|] eqn:Hk; [|discriminate].
    apply scanstring_length in Hk.
    destruct (skip_ws rest) as [|colon t1] eqn:Hw; [discriminate|].
    apply skip_ws_cons_length in Hw.
    destruct (colon =? ord ":"); [|discriminate].
    destruct (scan_once fuel (skip_ws t1)) as [v0 rest1| |] eqn:Hs;
      try discriminate.
    apply IHs in Hs. pose proof (skip_ws_length t1) as Hl1.
    destruct (skip_ws rest1) as [|c t2] eqn:Hw2; [discriminate|].
    apply skip_ws_cons_length in Hw2.
    destruct (c =? ord "}"); [intros [= _ <-]; cbn [length]; lia|].
    destruct (c =? ord ","); [|discriminate].
    intros H. apply IHo in H. pose proof (skip_ws_length t2).
    cbn [length]. lia.
Qed.

(** With two units of fuel for a character, and one more, the scan ends
    before the fuel does. *)
Lemma scan_fuel_suffices (fuel : nat) :
  (forall s, (2 * length s + 1 <= fuel)%nat -> scan_once fuel s <> Exhausted)
  /\ (forall acc s, (2 * length s + 2 <= fuel)%nat ->
                    parse_array fuel acc s <> Exhausted)
  /\ (forall acc s, (2 * length s + 2 <= fuel)%nat ->
                    parse_object fuel acc s <> Exhausted).
Proof.
  induction fuel as [|fuel (IHs & IHa & IHo)];
    [repeat split; intros; lia|].
  repeat split.
  - intros s Hf. cbn [scan_once]. destruct s as [|c t]; [discriminate|].
    cbn [length] in Hf.
    destruct (c =? DQ).
    { destruct (scanstring t) as [[k r']|]; discriminate. }
    destruct (c =? ord "{").
    { destruct (skip_ws t) as [|c' t'] eqn:Hw; [discriminate|].
      pose proof (skip_ws_length t) as Hl. rewrite Hw in Hl.
      destruct (c' =? ord "}"); [discriminate|].
      apply IHo. cbn [length] in *. lia. }
    destruct (c =? ord "[").
    { destruct (skip_ws t) as [|c' t'] eqn:Hw; [discriminate|].
      pose proof (skip_ws_length t) as Hl. rewrite Hw in Hl.
      destruct (c' =? ord "]"); [discriminate|].
      apply IHa. cbn [length] in *. lia. }
    cbv zeta.
    repeat match goal with
           | |- (if ?b then _ else _) <> _ => destruct b
           end;
      repeat match goal with
             | |- context [literal ?kw ?v ?s] => destruct (literal kw v s) as [[? ?]|]
             | |- context [match_number ?s] => destruct (match_number s) as [[? ?]|]
             end; discriminate.
  - intros acc s Hf. cbn [parse_array].
    destruct (scan_once fuel s) as [v0 rest| |] eqn:Hs; try discriminate.
    + apply (proj1 (scan_consumes fuel)) in Hs.
      destruct (skip_ws rest) as [|c t] eqn:Hw; [discriminate|].
      apply skip_ws_cons_length in Hw.
      destruct (c =? ord "]"); [discriminate|].
      destruct (c =? ord ","); [|discriminate].
      apply IHa. pose proof (skip_ws_length t). lia.
    + exfalso. revert Hs. apply IHs. lia.
  - intros acc s Hf. cbn [parse_object].
    destruct s as [|q t]; [discriminate|]. cbn [length] in Hf.
    destruct (q =? DQ); [|discriminate].
    destruct (scanstring t) as [[key rest]|] eqn:Hk; [|discriminate].
    apply scanstring_length in Hk.
    destruct (skip_ws rest) as [|colon t1] eqn:Hw; [discriminate|].
    apply skip_ws_cons_length in Hw.
    destruct (colon =? ord ":"); [|discriminate].
    pose proof (skip_ws_length t1) as Hl1.
    destruct (scan_once fuel (skip_ws t1)) as [v0 rest1| |] eqn:Hs;
      try discriminate.
    + apply (proj1 (scan_consumes fuel)) in Hs.
      destruct (skip_ws rest1) as [|c t2] eqn:Hw2; [discriminate|].
      apply skip_ws_cons_length in Hw2.
      destruct (c =? ord "}"); [discriminate|].
      destruct (c =? ord ","); [|discriminate].
      apply IHo. pose proof (skip_ws_length t2). lia.
    + exfalso. revert Hs. apply IHs. lia.
Qed.

(** The scan [json_loads] starts never runs out of fuel: a [None] of
    [json_loads] is a [JSONDecodeError]. *)
Lemma json_loads_fuel (s : str) :
  scan_once (2 * length (skip_ws s) + 1) (skip_ws s) <> Exhausted.
Proof. apply (proj1 (scan_fuel_suffices _)). lia. Qed.

(* ===================================================================== *)
(** * The parse step of the two variants *)
(* ===================================================================== *)

Lemma local_parse_value (completion : str) (w : World) :
  fst (Ollama.parse_response completion w) = Ok (local_value completion).
Proof.
  unfold Ollama.parse_response, local_value, parse_cleaned.
  destruct (nonempty (strip completion)); [|reflexivity].
  cbn [negb]. destruct (json_loads (Ollama.clean (strip completion)));
    [reflexivity|].
  cbn. destruct (search_braces (Ollama.clean (strip completion)));
    [|reflexivity].
  destruct (json_loads s); reflexivity.
Qed.

Lemma hosted_parse_value (content : str) (w : World) :
  fst (Hosted.parse_response content w) = Ok (hosted_value content).
Proof.
  unfold Hosted.parse_response, hosted_value.
  destruct (nonempty (strip content)); [|reflexivity].
  cbn [negb]. destruct (json_loads (strip content)); reflexivity.
Qed.

Lemma parse_cleaned_nil : parse_cleaned [] = VDict [].
Proof. reflexivity. Qed.

(** Without backtick the clean-up does nothing: the value is that of the
    stripped text. *)
Lemma local_value_no_backtick (body : str) :
  lacks BACKTICK body = true -> local_value body = parse_cleaned (strip body).
Proof.
  intros H. unfold local_value.
  rewrite clean_no_backtick by (apply lacks_strip, H).
  destruct (strip body); reflexivity.
Qed.

(** JSON white space before a cleaned text does not change its value. *)
Lemma parse_cleaned_leading_ws (ws s : str) :
  all_json_ws ws = true -> parse_cleaned (ws ++ s) = parse_cleaned s.
Proof.
  intros H. unfold parse_cleaned.
  rewrite json_loads_leading_ws by exact H.
  rewrite search_braces_skip; [reflexivity|].
  clear s. induction ws as [|c t IH]; [reflexivity|].
  cbn [all_json_ws forallb] in H. apply andb_prop in H as [Hc Ht].
  cbn [lacks forallb]. fold (lacks LBRACE t). rewrite (IH Ht), andb_true_r.
  destruct (json_ws_cases _ Hc) as [-> | [-> | [-> | ->]]]; reflexivity.
Qed.

Lemma strip_prefix_app (p r : str) : strip_prefix p (p ++ r) = Some r.
Proof.
  induction p as [|a p IH]; [reflexivity|].
  cbn [app strip_prefix]. rewrite N.eqb_refl. exact IH.
Qed.

Lemma lstrip_app_nonempty (a b : str) :
  lstrip a <> [] -> lstrip (a ++ b) = lstrip a ++ b.
Proof.
  induction a as [|x a IH]; [intros H; exfalso; apply H; reflexivity|].
  cbn [app lstrip]. destruct (is_space x); [exact IH | reflexivity].
Qed.

(** A text between two backticks has nothing to strip. *)
Lemma strip_between_backticks (inner : str) :
  strip (BACKTICK :: inner ++ [BACKTICK]) = BACKTICK :: inner ++ [BACKTICK].
Proof.
  unfold strip. change (lstrip (BACKTICK :: inner ++ [BACKTICK]))
    with (BACKTICK :: inner ++ [BACKTICK]).
  change (BACKTICK :: inner ++ [BACKTICK])
    with ((BACKTICK :: inner) ++ BACKTICK :: []) at 1.
  rewrite rstrip_app_keep by reflexivity. reflexivity.
Qed.

(** The clean-up of a tagged fence around a text without backtick leaves
    the stripped text. *)
Lemma clean_tagged (ws1 body ws2 : str) :
  all_space ws1 = true -> all_space ws2 = true ->
  lacks BACKTICK body = true ->
  Ollama.clean (fence_json ++ ws1 ++ body ++ ws2 ++ fence) = strip body.
Proof.
  intros H1 H2 Hb. unfold Ollama.clean.
  rewrite (re_sub_match _ match_fence_json_consuming _
             (lstrip (body ++ ws2 ++ fence))).
  2:{ unfold match_fence_json. rewrite strip_prefix_app.
      rewrite lstrip_app_space by exact H1. reflexivity. }
  destruct (lstrip_head body) as [Hn | (c & t & Hl & Hc)].
  - pose proof (lstrip_nil_all_space _ Hn) as Hall.
    rewrite lstrip_app_space by exact Hall.
    rewrite lstrip_app_space by exact H2.
    unfold strip. rewrite Hn. reflexivity.
  - rewrite lstrip_app_nonempty by (rewrite Hl; discriminate).
    rewrite app_assoc. rewrite re_sub_fence_json_tail.
    + rewrite <- app_assoc. apply re_sub_closing_fence; [|exact H2].
      apply lacks_lstrip, Hb.
    + rewrite lacks_app, (lacks_lstrip _ _ Hb).
      apply all_space_lacks; [reflexivity | exact H2].
Qed.

(** The clean-up of an untagged fence leaves the white space after the
    opening fence in place. *)
Lemma clean_untagged (ws1 body ws2 : str) :
  all_space ws1 = true -> all_space ws2 = true ->
  lacks BACKTICK body = true ->
  contains fence_json (fence ++ ws1 ++ body ++ ws2 ++ fence) = false ->
  Ollama.clean (fence ++ ws1 ++ body ++ ws2 ++ fence) = rstrip (ws1 ++ body).
Proof.
  intros H1 H2 Hb Hc. unfold Ollama.clean.
  rewrite re_sub_fence_json_absent by exact Hc.
  rewrite (re_sub_match _ match_ws_fence_consuming _
             (ws1 ++ body ++ ws2 ++ fence)).
  2:{ unfold match_ws_fence.
      change (lstrip (fence ++ ws1 ++ body ++ ws2 ++ fence))
        with (fence ++ ws1 ++ body ++ ws2 ++ fence).
      apply strip_prefix_app. }
  rewrite app_assoc. apply re_sub_closing_fence; [|exact H2].
  rewrite lacks_app, Hb, andb_true_r.
  apply all_space_lacks; [reflexivity | exact H1].
Qed.

Lemma fenced_shape (tag inner : str) :
  (BACKTICK :: pystr "``" ++ tag) ++ inner ++ fence
  = BACKTICK :: (pystr "``" ++ tag ++ inner ++ pystr "``") ++ [BACKTICK].
Proof.
  cbn [pystr list_ascii_of_string map app]. do 3 f_equal.
  rewrite <- !app_assoc. reflexivity.
Qed.

(** The value of a fenced text is the value of its clean-up. *)
Lemma local_value_fenced (o1 tag inner o2 : str) :
  all_space o1 = true -> all_space o2 = true ->
  local_value (o1 ++ ((BACKTICK :: pystr "``" ++ tag) ++ inner ++ fence) ++ o2)
  = parse_cleaned
      (Ollama.clean ((BACKTICK :: pystr "``" ++ tag) ++ inner ++ fence)).
Proof.
  intros H1 H2. unfold local_value.
  rewrite strip_app_space by assumption.
  rewrite fenced_shape, strip_between_backticks. reflexivity.
Qed.

(* ===================================================================== *)
(** * Claims on the parse step *)
(* ===================================================================== *)







(** C3, as stated, fails: the hosted variant strips no fence, so the fenced
    object of scenario A gives the empty mapping and the bare object gives
    the object; in the local variant an untagged fence followed by a
    vertical tab leaves a text [json.loads] rejects. *)
Lemma C3_fence_changes_result :
  fst (Hosted.parse_response scenario_A fresh)
  <> fst (Hosted.parse_response object_X fresh)
  /\ fst (Ollama.parse_response fenced_array fresh)
     <> fst (Ollama.parse_response array_text fresh).
Proof. split; intros H; vm_compute in H; discriminate H. Qed.

(** C3, amended: in the local variant, for a text without backtick between
    an opening fence and a closing fence, with white space allowed around
    the fences and around the text, the value is the value of the text
    alone: always for a fence tagged [json], and for an untagged fence when
    the fenced text holds no tagged fence and the white space between the
    opening fence and the first character of the text is JSON white
    space. *)
Theorem C3_local_fence_transparent
  (o1 ws1 body ws2 o2 : str) (w w' : World) :
  all_space o1 = true -> all_space ws1 = true ->
  all_space ws2 = true -> all_space o2 = true ->
  lacks BACKTICK body = true ->
  fst (Ollama.parse_response
         (o1 ++ fence_json ++ ws1 ++ body ++ ws2 ++ fence ++ o2) w)
  = fst (Ollama.parse_response body w')
  /\ (contains fence_json (fence ++ ws1 ++ body ++ ws2 ++ fence) = false ->
      all_json_ws (ws1 ++ leading_space body) = true ->
      fst (Ollama.parse_response
             (o1 ++ fence ++ ws1 ++ body ++ ws2 ++ fence ++ o2) w)
      = fst (Ollama.parse_response body w')).
Proof.
  intros Ho1 Hw1 Hw2 Ho2 Hb. rewrite !local_parse_value.
  rewrite (local_value_no_backtick body) by exact Hb. split.
  - f_equal.
    replace (o1 ++ fence_json ++ ws1 ++ body ++ ws2 ++ fence ++ o2)
      with (o1 ++ ((BACKTICK :: pystr "``" ++ pystr "json")
                   ++ (ws1 ++ body ++ ws2) ++ fence) ++ o2)
      by (rewrite <- !app_assoc; reflexivity).
    rewrite local_value_fenced by assumption.
    change (BACKTICK :: pystr "``" ++ pystr "json") with fence_json.
    rewrite <- !app_assoc. rewrite clean_tagged by assumption. reflexivity.
  - intros Hc Hj. f_equal.
    replace (o1 ++ fence ++ ws1 ++ body ++ ws2 ++ fence ++ o2)
      with (o1 ++ ((BACKTICK :: pystr "``" ++ [])
                   ++ (ws1 ++ body ++ ws2) ++ fence) ++ o2)
      by (rewrite <- !app_assoc; reflexivity).
    rewrite local_value_fenced by assumption.
    change (BACKTICK :: pystr "``" ++ []) with fence.
    rewrite <- !app_assoc. rewrite clean_untagged by assumption.
    unfold strip.
    destruct (lstrip_head body) as [Hn | (c & t & Hl & Hsc)].
    + rewrite Hn. rewrite rstrip_all_space; [reflexivity|].
      rewrite all_space_app, Hw1. apply lstrip_nil_all_space, Hn.
    + rewrite (lstrip_split body) at 1. rewrite Hl, app_assoc.
      rewrite rstrip_app_keep by exact Hsc.
      change (rstrip (c :: t)) with (rstrip ([] ++ c :: t)).
      rewrite (rstrip_app_keep []) by exact Hsc.
      apply parse_cleaned_leading_ws, Hj.
Qed.

(** The fenced object of scenario A and the same object in an untagged
    fence, through the local variant. *)
Lemma C3_local_fence_transparent_witness :
  fst (Ollama.parse_response scenario_A fresh)
  = fst (Ollama.parse_response object_X fresh)
  /\ fst (Ollama.parse_response
            (fence ++ [LF] ++ object_X ++ [LF] ++ fence) fresh)
     = fst (Ollama.parse_response object_X fresh).
Proof.
  split.
  - apply (proj1 (C3_local_fence_transparent
                    [] [LF] object_X [LF] [] fresh fresh
                    eq_refl eq_refl eq_refl eq_refl eq_refl)).
  - apply (proj2 (C3_local_fence_transparent
                    [] [LF] object_X [LF] [] fresh fresh
                    eq_refl eq_refl eq_refl eq_refl eq_refl));
      vm_compute; reflexivity.
Defined.

(** C4: for an empty or white-space-only raw response both parse steps
    return the empty mapping after printing the empty-response line; the
    outcome is a returned value, never a raised exception. *)
Theorem C4_empty_response_sentinel (raw : str) (w : World) :
  all_space raw = true ->
  Hosted.parse_response raw w = (Ok (VDict []), snd (print MsgEmptyResponse w))
  /\ Ollama.parse_response raw w
     = (Ok (VDict []), snd (print MsgEmptyResponse w)).
Proof.
  intros H. unfold Hosted.parse_response, Ollama.parse_response, strip.
  rewrite (lstrip_all_space _ H). split; reflexivity.
Qed.

(** The empty text and a text of blanks and line ends. *)
Lemma C4_empty_response_sentinel_witness :
  fst (Hosted.parse_response [] fresh) = Ok (VDict [])
  /\ fst (Ollama.parse_response (pystr "  " ++ [LF; 9; 13]) fresh)
     = Ok (VDict []).
Proof.
  split.
  - rewrite (proj1 (C4_empty_response_sentinel [] fresh eq_refl)).
    reflexivity.
  - rewrite (proj2 (C4_empty_response_sentinel
                      (pystr "  " ++ [LF; 9; 13]) fresh eq_refl)).
    reflexivity.
Defined.


(* ===================================================================== *)
(** * The retry wrapper *)
(* ===================================================================== *)

Lemma wait_exponential_bounds (attempt_number : nat) :
  (1 <= wait_exponential attempt_number)%Q
  /\ (wait_exponential attempt_number <= 120)%Q.
Proof.
  unfold wait_exponential. split.
  - eapply Qle_trans; [|apply Q.le_max_l]. apply Q.le_max_r.
  - apply Q.max_lub.
    + apply Q.max_lub; unfold wait_min; lra.
    + apply Q.le_min_r.
Qed.

(** Every delay lies between the minimum and the maximum. *)
Lemma wait_random_exponential_bounds (u : Q) (attempt_number : nat) :
  (0 <= u)%Q -> (u < 1)%Q ->
  delay_in_bounds (wait_random_exponential u attempt_number).
Proof.
  intros H0 H1. unfold delay_in_bounds, wait_random_exponential, wait_min.
  destruct (wait_exponential_bounds attempt_number) as [Hl Hh].
  set (h := wait_exponential attempt_number) in *. split; nra.
Qed.

Lemma retry_effects_refl_request (D : Q -> Prop) (w : World) (model_id : str) :
  retry_effects D w
    (mkWorld (dirs w) (files w) (S (calls w)) (draws w)
             (trace w ++ [Requested model_id])) 1 0.
Proof.
  unfold retry_effects. cbn. repeat split; try lia.
  exists [Requested model_id]. repeat split. constructor.
Qed.

Lemma retry_effects_step (D : Q -> Prop) (w w1 w' : World) (model_id : str)
                         (d : Q) (n k : nat) :
  D d ->
  calls w1 = S (calls w) -> files w1 = files w -> dirs w1 = dirs w ->
  trace w1 = trace w ++ [Requested model_id; Slept d] ->
  retry_effects D w1 w' n k -> retry_effects D w w' (S n) (S k).
Proof.
  intros Hd Hc Hf Hdir Ht (Hc' & Hf' & Hd' & tr & Htr & Hr & Hl & Hb & Hp).
  unfold retry_effects. repeat split; try congruence; try lia.
  exists ([Requested model_id; Slept d] ++ tr).
  unfold requests, delays, printed in *. repeat split.
  - rewrite Htr, Ht, <- app_assoc. reflexivity.
  - cbn. rewrite Hr. reflexivity.
  - cbn. rewrite Hl. reflexivity.
  - cbn. constructor; assumption.
  - cbn. exact Hp.
Qed.

Section RetryFacts.

Context {A : Type}.
Variable E : Env.
Variable fn : M A.
Variable model_id : str.
Variable answer : nat -> pyresult A.

(** [fn] is one request to a backend. *)
Hypothesis fn_request : forall w, fn w = request model_id answer w.

(** A property [D] of every delay the wrapper can draw. *)
Variable D : Q -> Prop.
Hypothesis delay_ok :
  forall n attempt_number,
    D (wait_random_exponential (random E n) attempt_number).

Lemma retrying_ok (left : nat) (w : World) (v : A) :
  answer (calls w) = Ok v ->
  exists w', retrying E fn left w = (Ok v, w') /\ retry_effects D w w' 1 0.
Proof.
  intros H. eexists. split.
  - destruct left; cbn [retrying]; unfold try_except;
      rewrite fn_request; unfold request; rewrite H; reflexivity.
  - apply retry_effects_refl_request.
Qed.

Lemma retrying_last (w : World) (e : exn) :
  answer (calls w) = Raise e ->
  exists w', retrying E fn 0 w = (Raise (RetryError e), w')
             /\ retry_effects D w w' 1 0.
Proof.
  intros H. eexists. split.
  - cbn [retrying]. unfold try_except. rewrite fn_request. unfold request.
    rewrite H. reflexivity.
  - apply retry_effects_refl_request.
Qed.

(** A failed attempt that is not the last: one request, one delay within
    the bounds, and the loop goes on. *)
Lemma retrying_again (left : nat) (w : World) (e : exn) :
  answer (calls w) = Raise e ->
  exists w1 d,
    retrying E fn (S left) w = retrying E fn left w1
    /\ D d
    /\ calls w1 = S (calls w) /\ files w1 = files w /\ dirs w1 = dirs w
    /\ trace w1 = trace w ++ [Requested model_id; Slept d].
Proof.
  intros H. do 2 eexists. split.
  - cbn [retrying]. unfold try_except at 1. rewrite fn_request.
    unfold request at 1. rewrite H. unfold bind, draw, sleep, emit.
    cbn. reflexivity.
  - cbn. repeat split.
    + apply delay_ok.
    + rewrite <- app_assoc. reflexivity.
Qed.

(** [failures] failed attempts, then a success: the value is returned. *)
Lemma retrying_success (failures : nat) :
  forall (left : nat) (w : World) (v : A),
    (failures <= left)%nat ->
    (forall i, (i < failures)%nat ->
               exists e, answer (calls w + i)%nat = Raise e) ->
    answer (calls w + failures)%nat = Ok v ->
    exists w', retrying E fn left w = (Ok v, w')
               /\ retry_effects D w w' (S failures) failures.
Proof.
  induction failures as [|n IH]; intros left w v Hle Hfail Hok.
  - rewrite Nat.add_0_r in Hok. apply retrying_ok, Hok.
  - destruct left as [|left]; [lia|].
    destruct (Hfail 0%nat ltac:(lia)) as [e He]. rewrite Nat.add_0_r in He.
    destruct (retrying_again left w e He)
      as (w1 & d & Hrun & Hd & Hc & Hf & Hdir & Ht).
    destruct (IH left w1 v ltac:(lia)) as (w' & Hrun' & Heff).
    + intros i Hi. rewrite Hc.
      destruct (Hfail (S i) ltac:(lia)) as [e' He']. exists e'.
      rewrite <- He'. f_equal. lia.
    + rewrite Hc, <- Hok. f_equal. lia.
    + exists w'. split; [congruence|].
      eapply retry_effects_step; eassumption.
Qed.

(** Failures at every attempt: [RetryError] from the last one, after
    [left + 1] attempts. *)
Lemma retrying_exhausted (errors : nat -> exn) :
  forall (left : nat) (w : World),
    (forall i, (i <= left)%nat ->
               answer (calls w + i)%nat = Raise (errors (calls w + i)%nat)) ->
    exists w', retrying E fn left w
               = (Raise (RetryError (errors (calls w + left)%nat)), w')
               /\ retry_effects D w w' (S left) left.
Proof.
  induction left as [|left IH]; intros w Hfail.
  - rewrite Nat.add_0_r. apply retrying_last.
    rewrite <- (Nat.add_0_r (calls w)) at 1. rewrite Hfail by lia.
    rewrite Nat.add_0_r. reflexivity.
  - pose proof (Hfail 0%nat ltac:(lia)) as He. rewrite Nat.add_0_r in He.
    destruct (retrying_again left w _ He)
      as (w1 & d & Hrun & Hd & Hc & Hf & Hdir & Ht).
    destruct (IH w1) as (w' & Hrun' & Heff).
    + intros i Hi. rewrite Hc.
      replace (S (calls w) + i)%nat with (calls w + S i)%nat by lia.
      apply Hfail. lia.
    + exists w'. split.
      * rewrite Hrun, Hrun', Hc.
        replace (calls w + S left)%nat with (S (calls w) + left)%nat by lia.
        reflexivity.
      * eapply retry_effects_step; eassumption.
Qed.

End RetryFacts.

Lemma ollama_call_request (E : Env) (model_id prompt : str) (w : World) :
  (chunks <- request model_id (fun n => ollama_generate E n model_id prompt) ;;
   generated_text <- lift (Ollama.chunk_texts chunks) ;;
   ret (join [] generated_text)) w
  = request model_id (ollama_attempt E model_id prompt) w.
Proof.
  unfold bind, request, lift, ret, ollama_attempt.
  destruct (ollama_generate E (calls w) model_id prompt) as [chunks|e];
    [|reflexivity].
  destruct (Ollama.chunk_texts chunks); reflexivity.
Qed.

(** C5: for both wrapped backend calls, with [random.random()] in the unit
    interval: after fewer than ten failures, whatever the exceptions, a
    success is returned, with one request per attempt and one delay between
    two attempts; when all ten attempts fail, [RetryError] is raised from
    the tenth, after exactly ten requests and nine delays; every delay is at
    least 1 and at most 120. *)
Theorem C5_retry_policy (E : Env) (model_id content prompt : str) (w : World) :
  (forall n, (0 <= random E n)%Q /\ (random E n < 1)%Q) ->
  let hosted i :=
    together_create E (calls w + i)%nat model_id (Hosted.user_content content) in
  let local i := ollama_attempt E model_id prompt (calls w + i)%nat in
  (forall failures v,
      (failures < 10)%nat ->
      (forall i, (i < failures)%nat -> exists e, hosted i = Raise e) ->
      hosted failures = Ok v ->
      exists w',
        Hosted.chat_completion_with_backoff E model_id content w = (Ok v, w')
        /\ retry_effects delay_in_bounds w w' (S failures) failures)
  /\ (forall errors,
         (forall i, (i < 10)%nat -> hosted i = Raise (errors i)) ->
         exists w',
           Hosted.chat_completion_with_backoff E model_id content w
           = (Raise (RetryError (errors 9%nat)), w')
           /\ retry_effects delay_in_bounds w w' 10 9)
  /\ (forall failures v,
         (failures < 10)%nat ->
         (forall i, (i < failures)%nat -> exists e, local i = Raise e) ->
         local failures = Ok v ->
         exists w',
           Ollama.ollama_completion_with_backoff E model_id prompt w = (Ok v, w')
           /\ retry_effects delay_in_bounds w w' (S failures) failures)
  /\ (forall errors,
         (forall i, (i < 10)%nat -> local i = Raise (errors i)) ->
         exists w',
           Ollama.ollama_completion_with_backoff E model_id prompt w
           = (Raise (RetryError (errors 9%nat)), w')
           /\ retry_effects delay_in_bounds w w' 10 9).
Proof.
  intros Hrand hosted local.
  assert (Hdelay : forall n attempt_number,
             delay_in_bounds
               (wait_random_exponential (random E n) attempt_number)).
  { intros n k. apply wait_random_exponential_bounds; apply Hrand. }
  assert (Hshift : forall (A : Type) (answer : nat -> pyresult A) errors,
             (forall i, (i < 10)%nat ->
                        answer (calls w + i)%nat = Raise (errors i)) ->
             forall i, (i <= 9)%nat ->
                       answer (calls w + i)%nat
                       = Raise ((fun n => errors (n - calls w)%nat)
                                  (calls w + i)%nat)).
  { intros A answer errors H i Hi. cbn beta.
    replace (calls w + i - calls w)%nat with i by lia. apply H. lia. }
  repeat split.
  - intros failures v Hlt Hfail Hok.
    unfold Hosted.chat_completion_with_backoff, retry.
    eapply retrying_success; eauto. cbn. lia.
  - intros errors Hfail.
    unfold Hosted.chat_completion_with_backoff, retry.
    edestruct (retrying_exhausted E
                 (request model_id
                    (fun n => together_create E n model_id
                                (Hosted.user_content content)))
                 model_id _ (fun w0 => eq_refl) _ Hdelay
                 (fun n => errors (n - calls w)%nat) 9 w) as (w' & Hrun & Heff).
    { apply (Hshift _ (fun n => together_create E n model_id
                                  (Hosted.user_content content)) errors Hfail). }
    exists w'. split; [|exact Heff].
    cbn beta in Hrun.
    replace (calls w + 9 - calls w)%nat with 9%nat in Hrun by lia. exact Hrun.
  - intros failures v Hlt Hfail Hok.
    unfold Ollama.ollama_completion_with_backoff, retry.
    eapply retrying_success; eauto using ollama_call_request. cbn. lia.
  - intros errors Hfail.
    unfold Ollama.ollama_completion_with_backoff, retry.
    edestruct (retrying_exhausted E _ model_id _
                 (ollama_call_request E model_id prompt) _ Hdelay
                 (fun n => errors (n - calls w)%nat) 9 w) as (w' & Hrun & Heff).
    { apply (Hshift _ (ollama_attempt E model_id prompt) errors Hfail). }
    exists w'. split; [|exact Heff].
    cbn beta in Hrun.
    replace (calls w + 9 - calls w)%nat with 9%nat in Hrun by lia. exact Hrun.
Qed.

(** Three time-outs and then an answer, through the hosted wrapper; nothing
    but time-outs, through the local wrapper. *)
Lemma C5_retry_policy_witness :
  (exists w',
      Hosted.chat_completion_with_backoff
        (scripted_env None [] flaky_reply) Hosted.MODEL_ID [] fresh
      = (Ok (mkResponse true true [Ok object_X]), w')
      /\ retry_effects delay_in_bounds fresh w' 4 3)
  /\ (exists w',
         Ollama.ollama_completion_with_backoff
           (scripted_env None [] failing_reply) Ollama.MODEL_ID [] fresh
         = (Raise (RetryError (OtherError (pystr "Timeout"))), w')
         /\ retry_effects delay_in_bounds fresh w' 10 9).
Proof.
  assert (Hrand : forall reply n,
             (0 <= random (scripted_env None [] reply) n)%Q
             /\ (random (scripted_env None [] reply) n < 1)%Q).
  { intros reply n. split; [discriminate | reflexivity]. }
  split.
  - apply (proj1 (C5_retry_policy (scripted_env None [] flaky_reply)
                    Hosted.MODEL_ID [] [] fresh (Hrand flaky_reply)) 3%nat).
    + lia.
    + intros i Hi. destruct i as [|[|[|i]]]; try lia; eexists; reflexivity.
    + reflexivity.
  - apply (proj2 (proj2 (proj2 (C5_retry_policy
                                  (scripted_env None [] failing_reply)
                                  Ollama.MODEL_ID [] [] fresh
                                  (Hrand failing_reply))))
             (fun _ => OtherError (pystr "Timeout"))).
    intros i Hi. reflexivity.
Defined.

(* ===================================================================== *)
(** * Start-up *)
(* ===================================================================== *)

(** C6: when the credential is absent from the environment, or empty,
    [Code.py] stops with [ValueError] at its own check, and
    [Extract_Metadata_With_LLM.py] stops with the error of the client
    constructor at module level; in both the world is unchanged: no request
    was sent and no document was touched. *)
Theorem C6_missing_credential_is_fatal (E : Env) (w : World) :
  truthy_opt (getenv E (pystr "TOGETHER_API_KEY")) = false ->
  (exists msg, Code.main E w = (Raise (ValueError msg), w))
  /\ Hosted.main E w = (Raise AuthenticationError, w).
Proof.
  intros H. unfold Code.main, Hosted.main, Together, bind, raise.
  rewrite !H. cbn. split; [eexists|]; reflexivity.
Qed.

(** A directory of documents and no credential. *)
Lemma C6_missing_credential_is_fatal_witness :
  (exists msg,
      Code.main (scripted_env None [pystr "a.pdf"] flaky_reply) fresh
      = (Raise (ValueError msg), fresh))
  /\ Hosted.main (scripted_env None [pystr "a.pdf"] flaky_reply) fresh
     = (Raise AuthenticationError, fresh).
Proof.
  apply (C6_missing_credential_is_fatal
           (scripted_env None [pystr "a.pdf"] flaky_reply) fresh).
  reflexivity.
Defined.

(* ===================================================================== *)
(** * What a computation adds to the trace *)
(* ===================================================================== *)

Section TraceFacts.

Variable P : event -> Prop.

Lemma appends_ret {A} (a : A) : appends P (ret a).
Proof. intros w. exists []. cbn. rewrite app_nil_r. auto. Qed.

Lemma appends_raise {A} (e : exn) : appends P (@raise A e).
Proof. intros w. exists []. cbn. rewrite app_nil_r. auto. Qed.

Lemma appends_lift {A} (r : pyresult A) : appends P (lift r).
Proof. intros w. exists []. cbn. rewrite app_nil_r. auto. Qed.

Lemma appends_emit (ev : event) : P ev -> appends P (emit ev).
Proof. intros H w. exists [ev]. cbn. auto. Qed.

Lemma appends_print (m : message) : P (Printed m) -> appends P (print m).
Proof. apply appends_emit. Qed.

Lemma appends_bind {A B} (m : M A) (k : A -> M B) :
  appends P m -> (forall a, appends P (k a)) -> appends P (bind m k).
Proof.
  intros Hm Hk w. unfold bind. destruct (Hm w) as (tr1 & Ht1 & Hp1).
  destruct (m w) as [[a|e] w1]; cbn in Ht1.
  - destruct (Hk a w1) as (tr2 & Ht2 & Hp2). exists (tr1 ++ tr2). split.
    + rewrite Ht2, Ht1, app_assoc. reflexivity.
    + apply Forall_app. auto.
  - exists tr1. auto.
Qed.

Lemma appends_try_except {A} (body : M A) (handler : exn -> M A) :
  appends P body -> (forall e, appends P (handler e)) ->
  appends P (try_except body handler).
Proof.
  intros Hm Hk w. unfold try_except. destruct (Hm w) as (tr1 & Ht1 & Hp1).
  destruct (body w) as [[a|e] w1]; cbn in Ht1.
  - exists tr1. auto.
  - destruct (Hk e w1) as (tr2 & Ht2 & Hp2). exists (tr1 ++ tr2). split.
    + rewrite Ht2, Ht1, app_assoc. reflexivity.
    + apply Forall_app. auto.
Qed.

Lemma appends_draw (E : Env) : appends P (draw E).
Proof. intros w. exists []. cbn. rewrite app_nil_r. auto. Qed.

Lemma appends_request {A} (model_id : str) (answer : nat -> pyresult A) :
  P (Requested model_id) -> appends P (request model_id answer).
Proof. intros H w. exists [Requested model_id]. cbn. auto. Qed.

Lemma appends_write_file (path text : str) : appends P (write_file path text).
Proof.
  intros w. exists []. unfold write_file.
  destruct (dir_exists w (dirname path)); cbn; rewrite app_nil_r; auto.
Qed.

Lemma appends_retrying {A} (E : Env) (fn : M A) (left : nat) :
  (forall d, P (Slept d)) -> appends P fn -> appends P (retrying E fn left).
Proof.
  intros Hs Hfn. induction left as [|left IH]; cbn [retrying];
    apply appends_try_except; try exact Hfn; intros e.
  - apply appends_raise.
  - apply appends_bind; [apply appends_draw|]. intros u.
    apply appends_bind; [apply appends_emit, Hs|]. intros _. exact IH.
Qed.

End TraceFacts.

Create HintDb trace.
#[local] Hint Resolve appends_ret appends_raise appends_lift appends_print
  appends_draw appends_write_file : trace.

(** Splits a computation along its binds, handlers and branches. *)
Ltac trace_steps :=
  repeat first
    [ solve [auto with trace]
    | apply appends_retrying; [intros ?; exact I|]
    | apply appends_bind; [|intros ?]
    | apply appends_try_except; [|intros ?]
    | apply appends_request; exact I
    | apply appends_print; exact I
    | match goal with
      | |- appends _ (if ?b then _ else _) => destruct b
      | |- appends _ (match ?x with _ => _ end) => destruct x
      end ].

Lemma started_app (a b : list event) : started (a ++ b) = started a ++ started b.
Proof. apply flat_map_app. Qed.

Lemma started_quiet (tr : list event) : Forall not_start tr -> started tr = [].
Proof.
  induction 1 as [|ev tr Hev _ IH]; [reflexivity|].
  cbn. fold (started tr). rewrite IH.
  destruct ev as [[]| | |]; try reflexivity. destruct Hev.
Qed.

Lemma hosted_extract_metadata_quiet (E : Env) (content model_id : str) :
  appends not_start (Hosted.extract_metadata E content model_id).
Proof.
  unfold Hosted.extract_metadata, Hosted.chat_completion_with_backoff, retry,
    Hosted.parse_response.
  trace_steps.
Qed.

Lemma local_extract_metadata_quiet
  (E : Env) (content prompt_path model_id : str) :
  appends not_start (Ollama.extract_metadata E content prompt_path model_id).
Proof.
  unfold Ollama.extract_metadata, Ollama.ollama_completion_with_backoff,
    retry, Ollama.parse_response, Ollama.read_prompt.
  trace_steps.
Qed.

(** A document is opened once: the first line names it, and nothing that
    follows opens another; the call returns. *)
Lemma hosted_process_research_paper_run
  (E : Env) (pdf_path output_folder model_id : str) (w : World) :
  exists w',
    Hosted.process_research_paper E pdf_path output_folder model_id w
    = (Ok tt, w')
    /\ started (trace w') = started (trace w) ++ [pdf_path].
Proof.
  unfold Hosted.process_research_paper.
  set (body := (content <- Hosted.extract_text_from_pdf E pdf_path ;; _)).
  set (handler := fun e => print (MsgErrorProcessing pdf_path e)).
  assert (Hq : appends not_start (try_except body handler)).
  { subst body handler. unfold Hosted.extract_text_from_pdf.
    pose proof (hosted_extract_metadata_quiet E).
    trace_steps. }
  unfold bind at 1. cbn [print emit].
  destruct (Hq (mkWorld (dirs w) (files w) (calls w) (draws w)
                        (trace w ++ [Printed (MsgProcessing pdf_path)])))
    as (tr & Htr & Hp).
  cbn [trace] in Htr.
  destruct (try_except body handler _) as [r w'] eqn:Hrun.
  assert (Hr : r = Ok tt).
  { unfold try_except in Hrun. destruct (body _) as [[[]|e] w1].
    - injection Hrun as <- _. reflexivity.
    - subst handler. cbn in Hrun. injection Hrun as <- _. reflexivity. }
  subst r. exists w'. split; [reflexivity|].
  cbn [snd] in Htr. rewrite Htr, !started_app, (started_quiet _ Hp), app_nil_r.
  reflexivity.
Qed.

Lemma local_process_research_paper_run
  (E : Env) (pdf_path prompt_path output_folder model_id : str) (w : World) :
  exists w',
    Ollama.process_research_paper E pdf_path prompt_path output_folder
      model_id w = (Ok tt, w')
    /\ started (trace w') = started (trace w) ++ [pdf_path].
Proof.
  unfold Ollama.process_research_paper.
  set (body := (content <- Ollama.extract_text_from_pdf E pdf_path ;; _)).
  set (handler := fun e => print (MsgErrorProcessing pdf_path e)).
  assert (Hq : appends not_start (try_except body handler)).
  { subst body handler. unfold Ollama.extract_text_from_pdf.
    pose proof (local_extract_metadata_quiet E).
    trace_steps. }
  unfold bind at 1. cbn [print emit].
  destruct (Hq (mkWorld (dirs w) (files w) (calls w) (draws w)
                        (trace w ++ [Printed (MsgProcessing pdf_path)])))
    as (tr & Htr & Hp).
  cbn [trace] in Htr.
  destruct (try_except body handler _) as [r w'] eqn:Hrun.
  assert (Hr : r = Ok tt).
  { unfold try_except in Hrun. destruct (body _) as [[[]|e] w1].
    - injection Hrun as <- _. reflexivity.
    - subst handler. cbn in Hrun. injection Hrun as <- _. reflexivity. }
  subst r. exists w'. split; [reflexivity|].
  cbn [snd] in Htr. rewrite Htr, !started_app, (started_quiet _ Hp), app_nil_r.
  reflexivity.
Qed.

(* ===================================================================== *)
(** * The directory driver *)
(* ===================================================================== *)

Lemma for_each_started {A} (body : A -> M unit) (opened : A -> list str) :
  (forall x w, exists w', body x w = (Ok tt, w')
                          /\ started (trace w') = started (trace w) ++ opened x) ->
  forall xs w, exists w',
      for_each xs body w = (Ok tt, w')
      /\ started (trace w') = started (trace w) ++ flat_map opened xs.
Proof.
  intros Hbody xs. induction xs as [|x xs IH]; intros w.
  - exists w. cbn. rewrite app_nil_r. auto.
  - destruct (Hbody x w) as (w1 & Hrun & Hs).
    destruct (IH w1) as (w' & Hrun' & Hs').
    exists w'. cbn [for_each]. unfold bind. rewrite Hrun. split; [exact Hrun'|].
    rewrite Hs', Hs, <- app_assoc. reflexivity.
Qed.

Lemma flat_map_filter_map {A B} (keep : A -> bool) (f : A -> B) (xs : list A) :
  flat_map (fun x => if keep x then [f x] else []) xs = map f (filter keep xs).
Proof.
  induction xs as [|x xs IH]; [reflexivity|].
  cbn. destruct (keep x); cbn; rewrite IH; reflexivity.
Qed.



(* ===================================================================== *)
(** * A document whose metadata is empty *)
(* ===================================================================== *)

Lemma printed_app (a b : list event) : printed (a ++ b) = printed a ++ printed b.
Proof. apply flat_map_app. Qed.

Lemma printed_lines (lines : list message) : printed (map Printed lines) = lines.
Proof. induction lines as [|m l IH]; cbn; [|fold (printed (map Printed l))];
         congruence. Qed.

Lemma prints_trans (w w1 w2 : World) (l1 l2 : list message) :
  prints w w1 l1 -> prints w1 w2 l2 -> prints w w2 (l1 ++ l2).
Proof.
  intros (Hf1 & Hd1 & tr1 & Ht1 & Hp1) (Hf2 & Hd2 & tr2 & Ht2 & Hp2).
  repeat split; try congruence. exists (tr1 ++ tr2). split.
  - rewrite Ht2, Ht1, app_assoc. reflexivity.
  - rewrite printed_app. congruence.
Qed.

(** The lines of [lines] printed one after the other. *)
Lemma prints_lines (w : World) (lines : list message) :
  prints w (mkWorld (dirs w) (files w) (calls w) (draws w)
                    (trace w ++ map Printed lines)) lines.
Proof.
  repeat split. exists (map Printed lines). split; [reflexivity|].
  apply printed_lines.
Qed.

Lemma retry_effects_prints (D : Q -> Prop) (w w' : World) (n k : nat) :
  retry_effects D w w' n k -> prints w w' [].
Proof.
  intros (_ & Hf & Hd & tr & Ht & _ & _ & _ & Hp). repeat split; eauto.
Qed.

(** The hosted parse step: its value and the lines it prints. *)
Lemma hosted_parse_response_run (raw : str) (w : World) :
  exists w', Hosted.parse_response raw w = (Ok (hosted_value raw), w')
             /\ calls w' = calls w
             /\ prints w w' (hosted_diagnostics raw).
Proof.
  unfold Hosted.parse_response, hosted_value, hosted_diagnostics.
  destruct (nonempty (strip raw)); cbn [negb].
  - destruct (json_loads (strip raw)).
    + exists w. repeat split. exists []. rewrite app_nil_r. auto.
    + eexists. split; [reflexivity|]. split; [reflexivity|].
      cbn. repeat split. eexists. rewrite <- app_assoc. split; reflexivity.
  - eexists. split; [reflexivity|]. split; [reflexivity|].
    cbn. repeat split. eexists. split; reflexivity.
Qed.

(** The local parse step: its value and the lines it prints. *)
Lemma local_parse_response_run (raw : str) (w : World) :
  exists w', Ollama.parse_response raw w = (Ok (local_value raw), w')
             /\ calls w' = calls w
             /\ prints w w' (local_diagnostics raw).
Proof.
  unfold Ollama.parse_response, local_value, local_diagnostics, parse_cleaned.
  destruct (nonempty (strip raw)); cbn [negb].
  - destruct (json_loads (Ollama.clean (strip raw))).
    + exists w. repeat split. exists []. rewrite app_nil_r. auto.
    + destruct (search_braces (Ollama.clean (strip raw))) as [g|].
      * destruct (json_loads g); eexists;
          (split; [reflexivity|]); (split; [reflexivity|]);
          cbn; repeat split; eexists; rewrite <- ?app_assoc;
          split; reflexivity.
      * eexists. split; [reflexivity|]. split; [reflexivity|].
        cbn. repeat split. eexists. rewrite <- app_assoc. split; reflexivity.
  - eexists. split; [reflexivity|]. split; [reflexivity|].
    cbn. repeat split. eexists. split; reflexivity.
Qed.

(** [extract_metadata] of the hosted variant when the backend ends up
    answering with a text. *)
Lemma hosted_extract_metadata_run
  (E : Env) (content model_id raw : str) (others : list (pyresult str))
  (failures : nat) (w : World) :
  answers_after
    (fun n => together_create E n model_id (Hosted.user_content content))
    (calls w) failures (mkResponse true true (Ok raw :: others)) ->
  exists w', Hosted.extract_metadata E content model_id w
             = (Ok (hosted_value raw), w')
             /\ prints w w' (hosted_diagnostics raw).
Proof.
  intros (Hlt & Hfail & Hok).
  destruct (retrying_success E
              (request model_id
                 (fun n => together_create E n model_id
                             (Hosted.user_content content)))
              model_id _ (fun w0 => eq_refl) (fun _ => True) (fun _ _ => I)
              failures 9 w _ ltac:(unfold max_attempt_number in Hlt; lia)
              Hfail Hok) as (w1 & Hrun & Heff).
  destruct (hosted_parse_response_run raw w1) as (w2 & Hparse & _ & Hp).
  exists w2. split.
  - unfold Hosted.extract_metadata, try_except, bind.
    unfold Hosted.chat_completion_with_backoff, retry.
    change (max_attempt_number - 1)%nat with 9%nat. rewrite Hrun.
    cbn. rewrite Hparse. reflexivity.
  - apply (prints_trans w w1 w2 [] _ (retry_effects_prints _ _ _ _ _ Heff) Hp).
Qed.

(** [extract_metadata] of the local variant when the prompt file is read
    and the backend ends up answering with a text. *)
Lemma local_extract_metadata_run
  (E : Env) (content prompt_path prompt_data model_id raw : str)
  (failures : nat) (w : World) :
  read_text E prompt_path = Ok prompt_data ->
  answers_after
    (ollama_attempt E model_id (Ollama.combined_prompt prompt_data content))
    (calls w) failures raw ->
  exists w', Ollama.extract_metadata E content prompt_path model_id w
             = (Ok (local_value raw), w')
             /\ prints w w' (local_diagnostics raw).
Proof.
  intros Hprompt (Hlt & Hfail & Hok).
  destruct (retrying_success E _ model_id _
              (ollama_call_request E model_id
                 (Ollama.combined_prompt prompt_data content))
              (fun _ => True) (fun _ _ => I)
              failures 9 w _ ltac:(unfold max_attempt_number in Hlt; lia)
              Hfail Hok) as (w1 & Hrun & Heff).
  destruct (local_parse_response_run raw w1) as (w2 & Hparse & _ & Hp).
  exists w2. split.
  - unfold Ollama.extract_metadata, Ollama.read_prompt.
    unfold bind at 1. unfold lift. rewrite Hprompt.
    unfold try_except, bind.
    unfold Ollama.ollama_completion_with_backoff, retry.
    change (max_attempt_number - 1)%nat with 9%nat. rewrite Hrun.
    rewrite Hparse. reflexivity.
  - apply (prints_trans w w1 w2 [] _ (retry_effects_prints _ _ _ _ _ Heff) Hp).
Qed.

Lemma prints_opening (w : World) (pdf_path : str) :
  prints w
    (mkWorld (dirs w) (files w) (calls w) (draws w)
       ((trace w ++ [Printed (MsgProcessing pdf_path)])
        ++ [Printed (MsgExtractedText pdf_path)]))
    [MsgProcessing pdf_path; MsgExtractedText pdf_path].
Proof.
  repeat split. eexists. rewrite <- app_assoc. split; reflexivity.
Qed.

Lemma prints_closing (w : World) (m : message) :
  prints w (mkWorld (dirs w) (files w) (calls w) (draws w)
                    (trace w ++ [Printed m])) [m].
Proof. apply (prints_lines w [m]). Qed.

(** The hosted pipeline on a document whose text is extracted and whose
    metadata comes back false: the failure line, and nothing written. *)
Lemma hosted_document_without_metadata
  (E : Env) (pdf_path output_folder model_id : str) (pages : list str)
  (v : value) (lines : list message) (w : World) :
  pdf_pages E pdf_path = Ok pages ->
  truthy v = false ->
  (forall w1, calls w1 = calls w ->
              exists w2,
                Hosted.extract_metadata E (join [LF] pages) model_id w1
                = (Ok v, w2) /\ prints w1 w2 lines) ->
  exists w',
    Hosted.process_research_paper E pdf_path output_folder model_id w
    = (Ok tt, w')
    /\ prints w w' ([MsgProcessing pdf_path; MsgExtractedText pdf_path]
                    ++ lines ++ [MsgFailedMetadata pdf_path]).
Proof.
  intros Hpages Hv Hmeta.
  destruct (Hmeta (mkWorld (dirs w) (files w) (calls w) (draws w)
                    ((trace w ++ [Printed (MsgProcessing pdf_path)])
                     ++ [Printed (MsgExtractedText pdf_path)])) eq_refl)
    as (w2 & Hrun & Hp).
  eexists. split.
  - unfold Hosted.process_research_paper, Hosted.extract_text_from_pdf.
    unfold bind, try_except, print, emit, lift, ret. rewrite Hpages.
    cbn [dirs files calls draws trace]. rewrite Hrun, Hv. reflexivity.
  - eapply prints_trans; [apply prints_opening|].
    eapply prints_trans; [exact Hp | apply prints_closing].
Qed.

Lemma local_document_without_metadata
  (E : Env) (pdf_path prompt_path output_folder model_id : str)
  (pages : list str) (v : value) (lines : list message) (w : World) :
  pdf_pages E pdf_path = Ok pages ->
  truthy v = false ->
  (forall w1, calls w1 = calls w ->
              exists w2,
                Ollama.extract_metadata E (join [LF] pages) prompt_path
                  model_id w1 = (Ok v, w2) /\ prints w1 w2 lines) ->
  exists w',
    Ollama.process_research_paper E pdf_path prompt_path output_folder
      model_id w = (Ok tt, w')
    /\ prints w w' ([MsgProcessing pdf_path; MsgExtractedText pdf_path]
                    ++ lines ++ [MsgFailedMetadata pdf_path]).
Proof.
  intros Hpages Hv Hmeta.
  destruct (Hmeta (mkWorld (dirs w) (files w) (calls w) (draws w)
                    ((trace w ++ [Printed (MsgProcessing pdf_path)])
                     ++ [Printed (MsgExtractedText pdf_path)])) eq_refl)
    as (w2 & Hrun & Hp).
  eexists. split.
  - unfold Ollama.process_research_paper, Ollama.extract_text_from_pdf.
    unfold bind, try_except, print, emit, lift, ret. rewrite Hpages.
    cbn [dirs files calls draws trace]. rewrite Hrun, Hv. reflexivity.
  - eapply prints_trans; [apply prints_opening|].
    eapply prints_trans; [exact Hp | apply prints_closing].
Qed.



(* ===================================================================== *)
(** * The name of the output file *)
(* ===================================================================== *)

Lemma endswith_app (a b : str) : endswith (a ++ b) b = true.
Proof.
  unfold endswith, startswith. rewrite rev_app_distr, strip_prefix_app.
  reflexivity.
Qed.

Lemma endswith_char (s : str) (c : N) :
  endswith s [c] = true -> exists s', s = s' ++ [c].
Proof.
  unfold endswith, startswith. cbn [rev app strip_prefix].
  destruct (rev s) as [|x r] eqn:Hr; [discriminate|].
  destruct (N.eqb_spec c x) as [<-|]; [|discriminate]. intros _.
  exists (rev r). rewrite <- (rev_involutive s), Hr. reflexivity.
Qed.

Lemma split_sep_nonempty (s : str) : split_sep s <> [].
Proof.
  induction s as [|c t IH]; cbn [split_sep]; [discriminate|].
  destruct (c =? SEP); [discriminate|].
  destruct (split_sep t); [contradiction | discriminate].
Qed.

Lemma split_sep_single (s : str) : lacks SEP s = true -> split_sep s = [s].
Proof.
  induction s as [|c t IH]; [reflexivity|].
  cbn [lacks forallb split_sep]. intros H. apply andb_prop in H as [Hc Ht].
  apply negb_true_iff in Hc. rewrite Hc, (IH Ht). reflexivity.
Qed.

Lemma split_sep_app (a b : str) :
  split_sep (a ++ SEP :: b) = split_sep a ++ split_sep b.
Proof.
  induction a as [|c a IH]; [reflexivity|].
  cbn [app split_sep]. destruct (c =? SEP).
  - rewrite IH. reflexivity.
  - rewrite IH. pose proof (split_sep_nonempty a) as Hn.
    destruct (split_sep a); [contradiction | reflexivity].
Qed.

(** The name of a path that ends with a separator and a plain file name. *)
Lemma name_after_sep (a f : str) :
  lacks SEP f = true -> nonempty f = true -> str_eqb f (pystr ".") = false ->
  Path.name (a ++ SEP :: f) = f.
Proof.
  intros Hsep Hne Hdot. unfold Path.name.
  rewrite split_sep_app, (split_sep_single f Hsep), filter_app.
  cbn [filter]. rewrite Hne, Hdot. cbn [negb andb]. apply last_last.
Qed.

(** [Path(os.path.join(d, f)).name] is [f] for a plain file name [f]. *)
Lemma name_path_join (d f : str) :
  lacks SEP f = true -> nonempty f = true -> str_eqb f (pystr ".") = false ->
  Path.name (path_join d f) = f.
Proof.
  intros Hsep Hne Hdot. unfold path_join.
  assert (Hs : startswith f [SEP] = false).
  { destruct f as [|c t]; [reflexivity|].
    cbn [lacks forallb] in Hsep. apply andb_prop in Hsep as [Hc _].
    apply negb_true_iff in Hc. unfold startswith. cbn [strip_prefix].
    rewrite N.eqb_sym, Hc. reflexivity. }
  rewrite Hs. destruct d as [|x d'].
  - cbn [nonempty negb orb app]. unfold Path.name.
    rewrite (split_sep_single f Hsep). cbn [filter].
    rewrite Hne, Hdot. reflexivity.
  - cbn [nonempty negb orb]. destruct (endswith (x :: d') [SEP]) eqn:He.
    + apply endswith_char in He as [d'' ->]. rewrite <- app_assoc.
      apply name_after_sep; assumption.
    + change ((x :: d') ++ [SEP] ++ f) with ((x :: d') ++ SEP :: f).
      apply name_after_sep; assumption.
Qed.

Lemma rfind_dot_none (e : str) : lacks (ord ".") e = true -> rfind_dot e = None.
Proof.
  induction e as [|c t IH]; [reflexivity|].
  cbn [lacks forallb rfind_dot]. intros H. apply andb_prop in H as [Hc Ht].
  apply negb_true_iff in Hc. rewrite (IH Ht), Hc. reflexivity.
Qed.

Lemma rfind_dot_app (b e : str) :
  lacks (ord ".") e = true -> rfind_dot (b ++ ord "." :: e) = Some (length b).
Proof.
  intros He. induction b as [|c b IH]; cbn [app rfind_dot length].
  - rewrite (rfind_dot_none e He), N.eqb_refl. reflexivity.
  - rewrite IH. reflexivity.
Qed.

Lemma firstn_length_app {A} (a b : list A) : firstn (length a) (a ++ b) = a.
Proof. induction a as [|x a IH]; cbn; [reflexivity | f_equal; exact IH]. Qed.

(** A file name [base.pdf], in any case of the letters, passes the filter of
    [process_directory], and [Path(pdf_path).stem] of its path in the
    directory is [base]: the output file is [base.json]. *)
Lemma pdf_output_name (directory_path base ext : str) :
  nonempty base = true ->
  lacks SEP (base ++ ext) = true ->
  lower ext = pystr "pdf" ->
  is_pdf (base ++ ord "." :: ext) = true
  /\ stem (path_join directory_path (base ++ ord "." :: ext)) ++ pystr ".json"
     = base ++ pystr ".json".
Proof.
  intros Hb Hsep Hext.
  assert (Hdots : lacks (ord ".") ext = true).
  { destruct ext as [|c1 [|c2 [|c3 [|c4 t]]]]; try discriminate Hext.
    injection Hext as H1 H2 H3. cbn [lacks forallb].
    destruct (N.eqb_spec c1 (ord ".")) as [->|]; [discriminate H1|].
    destruct (N.eqb_spec c2 (ord ".")) as [->|]; [discriminate H2|].
    destruct (N.eqb_spec c3 (ord ".")) as [->|]; [discriminate H3|].
    reflexivity. }
  split.
  - unfold is_pdf, lower. rewrite map_app. cbn [map].
    fold (lower ext). rewrite Hext.
    change (lower_char (ord ".") :: pystr "pdf") with (pystr ".pdf").
    apply endswith_app.
  - f_equal. unfold stem. rewrite name_path_join.
    + rewrite (rfind_dot_app base ext Hdots).
      assert (Hlen : ((0 <? length base)%nat
                      && (length base <? length (base ++ ord "." :: ext) - 1)%nat)
                     = true).
      { rewrite length_app. cbn [length].
        destruct base; [discriminate Hb|].
        destruct ext; [discriminate Hext|]. cbn [length].
        apply andb_true_intro. split; apply Nat.ltb_lt; lia. }
      rewrite Hlen. apply firstn_length_app.
    + rewrite lacks_app in *. apply andb_prop in Hsep as [H1 H2].
      rewrite H1. cbn [lacks forallb]. fold (lacks SEP ext). rewrite H2.
      reflexivity.
    + destruct base; [discriminate Hb | reflexivity].
    + destruct base as [|c [|c' t]]; [discriminate Hb | |].
      * destruct ext; [discriminate Hext|].
        unfold str_eqb. destruct (list_eq_dec _ _ _) as [H|]; [|reflexivity].
        discriminate H.
      * unfold str_eqb. destruct (list_eq_dec _ _ _) as [H|]; [|reflexivity].
        discriminate H.
Qed.

(* ===================================================================== *)
(** * The output directory *)
(* ===================================================================== *)

(** C8, the defect: with no output directory, the local script opens the
    output file in a directory that does not exist, the error is caught as
    an error of the document, and nothing is written; the hosted script
    creates the directory first and writes one indented file per document,
    named after it, and leaves the text file alone. *)
Theorem C8_local_script_needs_output_directory :
  files (snd (Ollama.main one_pdf_env no_output_dir)) = []
  /\ In (Printed (MsgErrorProcessing (pystr "data/a.pdf")
                    (FileNotFoundError (pystr "extracted_metadata/a.json"))))
        (trace (snd (Ollama.main one_pdf_env no_output_dir)))
  /\ files (snd (Hosted.main one_pdf_env no_output_dir))
     = [ (pystr "extracted_metadata/a.json", pretty_X) ].
Proof.
  split; [vm_compute; reflexivity|]. split; [|vm_compute; reflexivity].
  vm_compute. repeat first [left; reflexivity | right].
Qed.

(* ===================================================================== *)
(** * What a computation leaves on disk *)
(* ===================================================================== *)

Section DiskFacts.

Variable I : World -> Prop.
Hypothesis I_disk : disk_only I.

Lemma keeps_ret {A} (a : A) : keeps I (ret a).
Proof. intros w H. exact H. Qed.

Lemma keeps_raise {A} (e : exn) : keeps I (@raise A e).
Proof. intros w H. exact H. Qed.

Lemma keeps_lift {A} (r : pyresult A) : keeps I (lift r).
Proof. intros w H. exact H. Qed.

Lemma keeps_emit (ev : event) : keeps I (emit ev).
Proof. intros w H. apply (I_disk w); [reflexivity | reflexivity | exact H]. Qed.

Lemma keeps_print (m : message) : keeps I (print m).
Proof. apply keeps_emit. Qed.

Lemma keeps_draw (E : Env) : keeps I (draw E).
Proof. intros w H. apply (I_disk w); [reflexivity | reflexivity | exact H]. Qed.

Lemma keeps_request {A} (model_id : str) (answer : nat -> pyresult A) :
  keeps I (request model_id answer).
Proof. intros w H. apply (I_disk w); [reflexivity | reflexivity | exact H]. Qed.

Lemma keeps_bind {A B} (m : M A) (k : A -> M B) :
  keeps I m -> (forall a, keeps I (k a)) -> keeps I (bind m k).
Proof.
  intros Hm Hk w H. unfold bind. specialize (Hm w H).
  destruct (m w) as [[a|e] w1]; cbn [snd] in *; [apply Hk|]; exact Hm.
Qed.

Lemma keeps_try_except {A} (body : M A) (handler : exn -> M A) :
  keeps I body -> (forall e, keeps I (handler e)) ->
  keeps I (try_except body handler).
Proof.
  intros Hm Hk w H. unfold try_except. specialize (Hm w H).
  destruct (body w) as [[a|e] w1]; cbn [snd] in *; [|apply Hk]; exact Hm.
Qed.

Lemma keeps_retrying {A} (E : Env) (fn : M A) (left : nat) :
  keeps I fn -> keeps I (retrying E fn left).
Proof.
  intros Hfn. induction left as [|left IH]; cbn [retrying];
    apply keeps_try_except; try exact Hfn; intros e.
  - apply keeps_raise.
  - apply keeps_bind; [apply keeps_draw|]. intros u.
    apply keeps_bind; [apply keeps_emit|]. intros _. exact IH.
Qed.

Lemma keeps_for_each {A} (xs : list A) (body : A -> M unit) :
  (forall x, keeps I (body x)) -> keeps I (for_each xs body).
Proof.
  intros Hb. induction xs as [|x xs IH]; cbn [for_each].
  - apply keeps_ret.
  - apply keeps_bind; [apply Hb | intros _; exact IH].
Qed.

End DiskFacts.

Lemma on_disk_disk_only (d0 : list str) (f0 : list (str * str)) :
  disk_only (on_disk d0 f0).
Proof. intros w w' Hd Hf [H1 H2]. split; congruence. Qed.

Lemma has_dirs_disk_only (d0 : list str) : disk_only (has_dirs d0).
Proof. intros w w' Hd Hf H. unfold has_dirs in *. congruence. Qed.

Create HintDb disk.
#[local] Hint Resolve keeps_ret keeps_raise keeps_lift keeps_print keeps_emit
  keeps_draw keeps_request on_disk_disk_only has_dirs_disk_only : disk.

(** Splits a computation along its binds, handlers and branches. *)
Ltac disk_steps :=
  repeat first
    [ solve [auto with disk]
    | apply keeps_retrying; [solve [auto with disk]|]
    | apply keeps_for_each; [solve [auto with disk]|intros ?]
    | apply keeps_bind; [|intros ?]
    | apply keeps_try_except; [|intros ?]
    | match goal with
      | |- keeps _ (if ?b then _ else _) => destruct b
      | |- keeps _ (match ?x with _ => _ end) => destruct x
      end ].

Lemma hosted_extract_metadata_keeps_disk
  (I : World -> Prop) (E : Env) (content model_id : str) :
  disk_only I -> keeps I (Hosted.extract_metadata E content model_id).
Proof.
  intros HI.
  unfold Hosted.extract_metadata, Hosted.chat_completion_with_backoff, retry,
    Hosted.parse_response.
  disk_steps.
Qed.

Lemma local_extract_metadata_keeps_disk
  (I : World -> Prop) (E : Env) (content prompt_path model_id : str) :
  disk_only I ->
  keeps I (Ollama.extract_metadata E content prompt_path model_id).
Proof.
  intros HI.
  unfold Ollama.extract_metadata, Ollama.ollama_completion_with_backoff,
    retry, Ollama.parse_response, Ollama.read_prompt.
  disk_steps.
Qed.

(* ===================================================================== *)
(** * extract_metadata: what comes back when the backend does not help *)
(* ===================================================================== *)

(** X1: [extract_metadata] of the hosted variant never raises, whatever the
    backend does, and never touches a file or a directory: every exception
    of the call and of the reading of the response ends in a returned
    value. *)
Theorem X1_hosted_extract_metadata_never_raises
  (E : Env) (content model_id : str) (w : World) :
  exists v w',
    Hosted.extract_metadata E content model_id w = (Ok v, w')
    /\ files w' = files w /\ dirs w' = dirs w.
Proof.
  destruct (hosted_extract_metadata_keeps_disk (on_disk (dirs w) (files w)) E
              content model_id (on_disk_disk_only _ _) w
              (conj eq_refl eq_refl)) as [Hd Hf].
  unfold Hosted.extract_metadata in *. unfold try_except in *.
  destruct (bind _ _ w) as [[v|e] w1].
  - exists v, w1. auto.
  - cbn in *. eexists _, _. split; [reflexivity|]. cbn. auto.
Qed.

(** X2: [extract_metadata] of the local variant reads the prompt file
    outside its [try]: when the file cannot be read the exception leaves
    the function before any request is sent and before anything is
    printed; when it is read, the function returns a value whatever the
    backend does, and touches no file. *)
Theorem X2_local_extract_metadata_raises_only_prompt_error
  (E : Env) (content prompt_path model_id : str) (w : World) :
  match read_text E prompt_path with
  | Raise e =>
      Ollama.extract_metadata E content prompt_path model_id w = (Raise e, w)
  | Ok _ =>
      exists v w',
        Ollama.extract_metadata E content prompt_path model_id w = (Ok v, w')
        /\ files w' = files w /\ dirs w' = dirs w
  end.
Proof.
  pose proof (local_extract_metadata_keeps_disk (on_disk (dirs w) (files w))
                E content prompt_path model_id (on_disk_disk_only _ _) w
                (conj eq_refl eq_refl)) as [Hd Hf].
  unfold Ollama.extract_metadata, Ollama.read_prompt in *.
  unfold bind at 1 in Hd. unfold bind at 1 in Hf. unfold bind at 1.
  unfold lift in *.
  destruct (read_text E prompt_path) as [prompt_data|e]; [|reflexivity].
  unfold try_except in *.
  destruct (bind _ _ w) as [[v|e] w1].
  - exists v, w1. auto.
  - cbn in *. eexists _, _. split; [reflexivity|]. cbn. auto.
Qed.

Lemma failures_from (A : Type) (answer : nat -> pyresult A)
                    (errors : nat -> exn) (start : nat) :
  (forall i, (i < 10)%nat -> answer (start + i)%nat = Raise (errors i)) ->
  forall i, (i <= 9)%nat ->
            answer (start + i)%nat
            = Raise ((fun n => errors (n - start)%nat) (start + i)%nat).
Proof.
  intros H i Hi. cbn beta.
  replace (start + i - start)%nat with i by lia. apply H. lia.
Qed.

Lemma retry_effects_calls (D : Q -> Prop) (w w' : World) (n k : nat) :
  retry_effects D w w' n k -> calls w' = (calls w + n)%nat.
Proof. intros H. apply H. Qed.

(** X3: when all ten attempts of the backend call fail, [extract_metadata]
    returns the empty mapping in both variants: ten requests were sent, the
    one line printed is the error line, and it carries the [RetryError]
    raised from the tenth exception. *)
Theorem X3_backend_exhausted_gives_empty_mapping
  (E : Env) (content prompt_path prompt_data model_id : str)
  (errors : nat -> exn) (w : World) :
  ((forall i, (i < 10)%nat ->
              together_create E (calls w + i)%nat model_id
                (Hosted.user_content content) = Raise (errors i)) ->
   exists w',
     Hosted.extract_metadata E content model_id w = (Ok (VDict []), w')
     /\ calls w' = (calls w + 10)%nat
     /\ prints w w' [MsgErrorCalling (RetryError (errors 9%nat))])
  /\ (read_text E prompt_path = Ok prompt_data ->
      (forall i, (i < 10)%nat ->
                 ollama_attempt E model_id
                   (Ollama.combined_prompt prompt_data content)
                   (calls w + i)%nat = Raise (errors i)) ->
      exists w',
        Ollama.extract_metadata E content prompt_path model_id w
        = (Ok (VDict []), w')
        /\ calls w' = (calls w + 10)%nat
        /\ prints w w' [MsgErrorCalling (RetryError (errors 9%nat))]).
Proof.
  split.
  - intros Hfail.
    destruct (retrying_exhausted E
                (request model_id
                   (fun n => together_create E n model_id
                               (Hosted.user_content content)))
                model_id _ (fun w0 => eq_refl) (fun _ => True) (fun _ _ => I)
                (fun n => errors (n - calls w)%nat) 9 w
                (failures_from _ (fun n => together_create E n model_id
                                              (Hosted.user_content content))
                   errors (calls w) Hfail))
      as (w1 & Hrun & Heff).
    cbn beta in Hrun.
    replace (calls w + 9 - calls w)%nat with 9%nat in Hrun by lia.
    eexists. split; [|split].
    + unfold Hosted.extract_metadata, try_except, bind.
      unfold Hosted.chat_completion_with_backoff, retry.
      change (max_attempt_number - 1)%nat with 9%nat. rewrite Hrun.
      reflexivity.
    + cbn [calls]. apply (retry_effects_calls _ _ _ _ _ Heff).
    + apply (prints_trans w w1 _ [] _ (retry_effects_prints _ _ _ _ _ Heff)).
      apply prints_closing.
  - intros Hprompt Hfail.
    destruct (retrying_exhausted E _ model_id _
                (ollama_call_request E model_id
                   (Ollama.combined_prompt prompt_data content))
                (fun _ => True) (fun _ _ => I)
                (fun n => errors (n - calls w)%nat) 9 w
                (failures_from _ (ollama_attempt E model_id
                                    (Ollama.combined_prompt prompt_data content))
                   errors (calls w) Hfail))
      as (w1 & Hrun & Heff).
    cbn beta in Hrun.
    replace (calls w + 9 - calls w)%nat with 9%nat in Hrun by lia.
    eexists. split; [|split].
    + unfold Ollama.extract_metadata, Ollama.read_prompt.
      unfold bind at 1. unfold lift. rewrite Hprompt.
      unfold try_except, bind.
      unfold Ollama.ollama_completion_with_backoff, retry.
      change (max_attempt_number - 1)%nat with 9%nat. rewrite Hrun.
      reflexivity.
    + cbn [calls]. apply (retry_effects_calls _ _ _ _ _ Heff).
    + apply (prints_trans w w1 _ [] _ (retry_effects_prints _ _ _ _ _ Heff)).
      apply prints_closing.
Qed.

(** A backend that only times out, through both variants. *)
Lemma X3_backend_exhausted_gives_empty_mapping_witness :
  (exists w',
      Hosted.extract_metadata (scripted_env None [] failing_reply)
        (pystr "text") Hosted.MODEL_ID fresh = (Ok (VDict []), w')
      /\ calls w' = 10%nat
      /\ prints fresh w'
           [MsgErrorCalling (RetryError (OtherError (pystr "Timeout")))])
  /\ (exists w',
         Ollama.extract_metadata (scripted_env None [] failing_reply)
           (pystr "text") (pystr "prompt.txt") Ollama.MODEL_ID fresh
         = (Ok (VDict []), w')
         /\ calls w' = 10%nat
         /\ prints fresh w'
              [MsgErrorCalling (RetryError (OtherError (pystr "Timeout")))]).
Proof.
  split.
  - apply (proj1 (X3_backend_exhausted_gives_empty_mapping
                    (scripted_env None [] failing_reply) (pystr "text")
                    [] [] Hosted.MODEL_ID
                    (fun _ => OtherError (pystr "Timeout")) fresh)).
    intros i Hi. reflexivity.
  - apply (proj2 (X3_backend_exhausted_gives_empty_mapping
                    (scripted_env None [] failing_reply) (pystr "text")
                    (pystr "prompt.txt") (pystr "Extract the metadata.")
                    Ollama.MODEL_ID
                    (fun _ => OtherError (pystr "Timeout")) fresh)).
    + reflexivity.
    + intros i Hi. reflexivity.
Defined.

(** X4: a hosted response without usable content gives the empty mapping.
    When the response object is false, has no ["choices"], or has an empty
    list of choices, the empty-response line is printed and the content is
    never read; when reading the content of the first choice raises, the
    exception is caught and printed as an error of the call. *)
Theorem X4_hosted_response_without_content
  (E : Env) (content model_id : str) (resp : response) (failures : nat)
  (w : World) :
  answers_after
    (fun n => together_create E n model_id (Hosted.user_content content))
    (calls w) failures resp ->
  (resp_truthy resp = false \/ has_choices resp = false \/ choices resp = [] ->
   exists w',
     Hosted.extract_metadata E content model_id w = (Ok (VDict []), w')
     /\ prints w w' [MsgEmptyResponse])
  /\ (forall e others,
         resp_truthy resp = true -> has_choices resp = true ->
         choices resp = Raise e :: others ->
         exists w',
           Hosted.extract_metadata E content model_id w = (Ok (VDict []), w')
           /\ prints w w' [MsgErrorCalling e]).
Proof.
  intros (Hlt & Hfail & Hok).
  destruct (retrying_success E
              (request model_id
                 (fun n => together_create E n model_id
                             (Hosted.user_content content)))
              model_id _ (fun w0 => eq_refl) (fun _ => True) (fun _ _ => I)
              failures 9 w _ ltac:(unfold max_attempt_number in Hlt; lia)
              Hfail Hok) as (w1 & Hrun & Heff).
  assert (Hunfold :
            Hosted.extract_metadata E content model_id w
            = try_except
                (fun w0 =>
                   (if negb (resp_truthy resp) || negb (has_choices resp)
                       || (length (choices resp) =? 0)%nat
                    then print MsgEmptyResponse ;; ret (VDict [])
                    else text <- lift (nth 0 (choices resp)
                                         (Raise (OtherError (pystr "IndexError")))) ;;
                         Hosted.parse_response text) w1)
                (fun e => print (MsgErrorCalling e) ;; ret (VDict [])) w).
  { unfold Hosted.extract_metadata, try_except. unfold bind at 1.
    unfold Hosted.chat_completion_with_backoff, retry.
    change (max_attempt_number - 1)%nat with 9%nat. rewrite Hrun.
    reflexivity. }
  pose proof (retry_effects_prints _ _ _ _ _ Heff) as Hp.
  split.
  - intros Hempty. eexists. split.
    + rewrite Hunfold.
      assert (Hc : negb (resp_truthy resp) || negb (has_choices resp)
                   || (length (choices resp) =? 0)%nat = true).
      { destruct Hempty as [-> | [-> | ->]]; cbn;
          rewrite ?orb_true_r; reflexivity. }
      unfold try_except. rewrite Hc. reflexivity.
    + apply (prints_trans w w1 _ [] _ Hp). apply prints_closing.
  - intros e others Ht Hc Hch. eexists. split.
    + rewrite Hunfold. unfold try_except. rewrite Ht, Hc, Hch. reflexivity.
    + apply (prints_trans w w1 _ [] _ Hp). apply prints_closing.
Qed.

(** A response with an empty list of choices. *)
Lemma X4_hosted_response_without_content_witness :
  exists w',
    Hosted.extract_metadata (response_env (mkResponse true true []))
      (pystr "text") Hosted.MODEL_ID fresh = (Ok (VDict []), w')
    /\ prints fresh w' [MsgEmptyResponse].
Proof.
  apply (proj1 (X4_hosted_response_without_content
                  (response_env (mkResponse true true []))
                  (pystr "text") Hosted.MODEL_ID (mkResponse true true [])
                  0 fresh
                  (conj (Nat.lt_0_succ 9)
                        (conj (fun i (Hi : (i < 0)%nat) =>
                                 match Nat.nlt_0_r i Hi with end)
                              eq_refl)))).
  right. right. reflexivity.
Defined.

(* ===================================================================== *)
(** * process_research_paper: the file it writes *)
(* ===================================================================== *)

Lemma prints_logged (w w' : World) (lines : list message) :
  prints w w' lines -> logged w w' lines.
Proof. intros (_ & _ & H). exact H. Qed.

Lemma logged_trans (w w1 w2 : World) (l1 l2 : list message) :
  logged w w1 l1 -> logged w1 w2 l2 -> logged w w2 (l1 ++ l2).
Proof.
  intros (tr1 & Ht1 & Hp1) (tr2 & Ht2 & Hp2). exists (tr1 ++ tr2). split.
  - rewrite Ht2, Ht1, app_assoc. reflexivity.
  - rewrite printed_app. congruence.
Qed.

Lemma dir_exists_dirs (w1 w2 : World) (d : str) :
  dirs w1 = dirs w2 -> dir_exists w1 d = dir_exists w2 d.
Proof. intros H. unfold dir_exists. rewrite H. reflexivity. Qed.

(** The hosted pipeline on a document whose metadata [v] is true: the write
    and the last line, by whether the directory of the output file
    exists. *)
Lemma hosted_document_with_metadata
  (E : Env) (pdf_path output_folder model_id : str) (pages : list str)
  (v : value) (lines : list message) (w : World) :
  pdf_pages E pdf_path = Ok pages ->
  truthy v = true ->
  (forall w1, calls w1 = calls w ->
              exists w2,
                Hosted.extract_metadata E (join [LF] pages) model_id w1
                = (Ok v, w2) /\ prints w1 w2 lines) ->
  exists w',
    Hosted.process_research_paper E pdf_path output_folder model_id w
    = (Ok tt, w')
    /\ dirs w' = dirs w
    /\ if dir_exists w (dirname (output_path output_folder pdf_path))
       then files w'
            = with_file (output_path output_folder pdf_path)
                        (json_dump_indent2 (float_repr E) v) (files w)
            /\ logged w w'
                 ([MsgProcessing pdf_path; MsgExtractedText pdf_path] ++ lines
                  ++ [MsgExtractedMetadata model_id pdf_path;
                      MsgSaved (output_path output_folder pdf_path)])
       else files w' = files w
            /\ logged w w'
                 ([MsgProcessing pdf_path; MsgExtractedText pdf_path] ++ lines
                  ++ [MsgExtractedMetadata model_id pdf_path;
                      MsgErrorProcessing pdf_path
                        (FileNotFoundError
                           (output_path output_folder pdf_path))]).
Proof.
  intros Hpages Hv Hmeta.
  destruct (Hmeta (mkWorld (dirs w) (files w) (calls w) (draws w)
                    ((trace w ++ [Printed (MsgProcessing pdf_path)])
                     ++ [Printed (MsgExtractedText pdf_path)])) eq_refl)
    as (w2 & Hrun & Hp).
  pose proof (prints_logged _ _ _ (prints_trans _ _ _ _ _
                (prints_opening w pdf_path) Hp)) as Hlog.
  destruct Hp as (Hf2 & Hd2 & _). cbn [files dirs] in Hf2, Hd2.
  assert (Hde : forall tr,
             dir_exists (mkWorld (dirs w2) (files w2) (calls w2) (draws w2) tr)
                        (dirname (output_path output_folder pdf_path))
             = dir_exists w (dirname (output_path output_folder pdf_path))).
  { intros tr. apply dir_exists_dirs. exact Hd2. }
  unfold Hosted.process_research_paper, Hosted.extract_text_from_pdf.
  unfold bind, try_except, print, emit, lift, ret. rewrite Hpages.
  cbn [dirs files calls draws trace]. rewrite Hrun, Hv. cbn [negb].
  unfold write_file. cbn [dirs files calls draws trace].
  fold (output_path output_folder pdf_path). rewrite Hde.
  destruct (dir_exists w (dirname (output_path output_folder pdf_path)));
    eexists; (split; [reflexivity|]); cbn [dirs files];
    (split; [exact Hd2|]); (split; [rewrite Hf2; reflexivity|]);
    rewrite (app_assoc [MsgProcessing pdf_path; MsgExtractedText pdf_path]
               lines);
    apply (logged_trans _ _ _ _ _ Hlog);
    eexists; cbn [trace]; rewrite <- app_assoc; split; reflexivity.
Qed.

Lemma local_document_with_metadata
  (E : Env) (pdf_path prompt_path output_folder model_id : str)
  (pages : list str) (v : value) (lines : list message) (w : World) :
  pdf_pages E pdf_path = Ok pages ->
  truthy v = true ->
  (forall w1, calls w1 = calls w ->
              exists w2,
                Ollama.extract_metadata E (join [LF] pages) prompt_path
                  model_id w1 = (Ok v, w2) /\ prints w1 w2 lines) ->
  exists w',
    Ollama.process_research_paper E pdf_path prompt_path output_folder
      model_id w = (Ok tt, w')
    /\ dirs w' = dirs w
    /\ if dir_exists w (dirname (output_path output_folder pdf_path))
       then files w'
            = with_file (output_path output_folder pdf_path)
                        (json_dump_indent2 (float_repr E) v) (files w)
            /\ logged w w'
                 ([MsgProcessing pdf_path; MsgExtractedText pdf_path] ++ lines
                  ++ [MsgExtractedMetadata model_id pdf_path;
                      MsgSaved (output_path output_folder pdf_path)])
       else files w' = files w
            /\ logged w w'
                 ([MsgProcessing pdf_path; MsgExtractedText pdf_path] ++ lines
                  ++ [MsgExtractedMetadata model_id pdf_path;
                      MsgErrorProcessing pdf_path
                        (FileNotFoundError
                           (output_path output_folder pdf_path))]).
Proof.
  intros Hpages Hv Hmeta.
  destruct (Hmeta (mkWorld (dirs w) (files w) (calls w) (draws w)
                    ((trace w ++ [Printed (MsgProcessing pdf_path)])
                     ++ [Printed (MsgExtractedText pdf_path)])) eq_refl)
    as (w2 & Hrun & Hp).
  pose proof (prints_logged _ _ _ (prints_trans _ _ _ _ _
                (prints_opening w pdf_path) Hp)) as Hlog.
  destruct Hp as (Hf2 & Hd2 & _). cbn [files dirs] in Hf2, Hd2.
  assert (Hde : forall tr,
             dir_exists (mkWorld (dirs w2) (files w2) (calls w2) (draws w2) tr)
                        (dirname (output_path output_folder pdf_path))
             = dir_exists w (dirname (output_path output_folder pdf_path))).
  { intros tr. apply dir_exists_dirs. exact Hd2. }
  unfold Ollama.process_research_paper, Ollama.extract_text_from_pdf.
  unfold bind, try_except, print, emit, lift, ret. rewrite Hpages.
  cbn [dirs files calls draws trace]. rewrite Hrun, Hv. cbn [negb].
  unfold write_file. cbn [dirs files calls draws trace].
  fold (output_path output_folder pdf_path). rewrite Hde.
  destruct (dir_exists w (dirname (output_path output_folder pdf_path)));
    eexists; (split; [reflexivity|]); cbn [dirs files];
    (split; [exact Hd2|]); (split; [rewrite Hf2; reflexivity|]);
    rewrite (app_assoc [MsgProcessing pdf_path; MsgExtractedText pdf_path]
               lines);
    apply (logged_trans _ _ _ _ _ Hlog);
    eexists; cbn [trace]; rewrite <- app_assoc; split; reflexivity.
Qed.





(* ===================================================================== *)
(** * process_research_paper: errors before the backend is called *)
(* ===================================================================== *)





(* ===================================================================== *)
(** * process_directory: the documents it runs *)
(* ===================================================================== *)

Lemma for_each_filter_map {A B} (keep : A -> bool) (f : A -> B)
                          (body : B -> M unit) (xs : list A) (w : World) :
  for_each xs (fun x => if keep x then body (f x) else ret tt) w
  = for_each (map f (filter keep xs)) body w.
Proof.
  revert w. induction xs as [|x xs IH]; intros w; [reflexivity|].
  cbn [for_each filter]. destruct (keep x); cbn [map for_each].
  - unfold bind. destruct (body (f x) w) as [[[]|e] w1]; [apply IH|reflexivity].
  - unfold bind, ret. apply IH.
Qed.


(* ===================================================================== *)
(** * Streams: the local completion and Code.py *)
(* ===================================================================== *)

Lemma chunk_texts_whole (texts : list str) :
  Ollama.chunk_texts (map Ok texts) = Ok texts.
Proof.
  induction texts as [|t texts IH]; cbn [map Ollama.chunk_texts];
    [|rewrite IH]; reflexivity.
Qed.

Lemma chunk_texts_broken (before : list str) (e : exn)
                         (after : list (pyresult str)) :
  Ollama.chunk_texts (map Ok before ++ Raise e :: after) = Raise e.
Proof.
  induction before as [|t before IH]; cbn [map app Ollama.chunk_texts];
    [|rewrite IH]; reflexivity.
Qed.

Lemma join_empty_concat (parts : list str) : join [] parts = concat parts.
Proof.
  induction parts as [|p parts IH]; [reflexivity|].
  cbn [join concat]. destruct parts as [|q parts].
  - cbn [concat]. rewrite app_nil_r. reflexivity.
  - rewrite IH. reflexivity.
Qed.

(** X10: the local completion is the texts of the chunks of one stream, put
    together in their order with nothing between them.  A stream one of
    whose chunks has no text is given up as a whole, the chunks read before
    included, and the request is sent again; after fewer than ten such
    streams the text of the first whole stream is returned, with one request
    per stream and one delay between two requests. *)
Theorem X10_completion_joins_one_whole_stream
  (E : Env) (model_id prompt : str) (broken : nat) (texts : list str)
  (w : World) :
  (broken < 10)%nat ->
  (forall i, (i < broken)%nat ->
     exists before e after,
       ollama_generate E (calls w + i)%nat model_id prompt
       = Ok (map Ok before ++ Raise e :: after)) ->
  ollama_generate E (calls w + broken)%nat model_id prompt
  = Ok (map Ok texts) ->
  exists w',
    Ollama.ollama_completion_with_backoff E model_id prompt w
    = (Ok (concat texts), w')
    /\ retry_effects (fun _ => True) w w' (S broken) broken.
Proof.
  intros Hlt Hbroken Hwhole.
  unfold Ollama.ollama_completion_with_backoff, retry.
  apply (retrying_success E _ model_id (ollama_attempt E model_id prompt)
           (ollama_call_request E model_id prompt) (fun _ => True)
           (fun _ _ => I) broken).
  - cbn. lia.
  - intros i Hi. destruct (Hbroken i Hi) as (before & e & after & H).
    exists e. unfold ollama_attempt. rewrite H, chunk_texts_broken.
    reflexivity.
  - unfold ollama_attempt. rewrite Hwhole, chunk_texts_whole, join_empty_concat.
    reflexivity.
Qed.

(** A stream that breaks at its second chunk, then a stream of three
    chunks, the second of them empty. *)
Lemma X10_completion_joins_one_whole_stream_witness :
  exists w',
    Ollama.ollama_completion_with_backoff (streaming_env broken_then_whole)
      Ollama.MODEL_ID [] fresh = (Ok (pystr "{}"), w')
    /\ retry_effects (fun _ => True) fresh w' 2 1.
Proof.
  apply (X10_completion_joins_one_whole_stream
           (streaming_env broken_then_whole) Ollama.MODEL_ID [] 1
           [pystr "{"; []; pystr "}"] fresh).
  - lia.
  - intros i Hi. destruct i as [|i]; [|lia].
    exists [pystr "{"], (OtherError (pystr "KeyError")), []. reflexivity.
  - reflexivity.
Defined.

(** The loop of [Code.py] over the chunks that can be read. *)
Lemma code_chunks_run (before : list str) (rest : list (pyresult str))
                      (body : pyresult str -> M unit) :
  (forall chunk, body chunk
                 = (content <- lift chunk ;;
                    if nonempty content then print (MsgChunk content)
                    else ret tt)) ->
  forall w, exists w1,
    for_each (map Ok before ++ rest) body w = for_each rest body w1
    /\ calls w1 = calls w
    /\ prints w w1 (chunk_lines before).
Proof.
  intros Hbody.
  induction before as [|content before IH]; intros w.
  - exists w. split; [reflexivity|]. split; [reflexivity|].
    repeat split. exists []. rewrite app_nil_r. auto.
  - cbn [map app for_each]. unfold bind at 1. rewrite Hbody.
    unfold bind at 1, lift. unfold chunk_lines. cbn [filter].
    destruct (nonempty content).
    + unfold print, emit.
      destruct (IH (mkWorld (dirs w) (files w) (calls w) (draws w)
                            (trace w ++ [Printed (MsgChunk content)])))
        as (w1 & Hrun & Hc & Hp).
      exists w1. split; [exact Hrun|]. split; [exact Hc|].
      cbn [map]. apply (prints_trans _ _ _ [MsgChunk content] _
                          (prints_lines w [MsgChunk content]) Hp).
    + unfold ret. apply IH.
Qed.



(* ===================================================================== *)
(** * Paths: where the output file lies *)
(* ===================================================================== *)

Lemma startswith_sep_lacks (f : str) :
  lacks SEP f = true -> startswith f [SEP] = false.
Proof.
  destruct f as [|c t]; [reflexivity|].
  cbn [lacks forallb]. intros H. apply andb_prop in H as [Hc _].
  apply negb_true_iff in Hc. unfold startswith. cbn [strip_prefix].
  rewrite N.eqb_sym, Hc. reflexivity.
Qed.

Lemma split_sep_lacks (s : str) :
  Forall (fun c => lacks SEP c = true) (split_sep s).
Proof.
  induction s as [|c t IH]; cbn [split_sep].
  - constructor; [reflexivity | constructor].
  - destruct (c =? SEP) eqn:Hc.
    + constructor; [reflexivity | exact IH].
    + destruct (split_sep t) as [|h r].
      * constructor; [|constructor]. cbn [lacks forallb]. rewrite Hc.
        reflexivity.
      * inversion IH as [|? ? Hh Hr]; subst. constructor; [|exact Hr].
        cbn [lacks forallb]. rewrite Hc. exact Hh.
Qed.

Lemma last_Forall {A} (P : A -> Prop) (l : list A) (d : A) :
  P d -> Forall P l -> P (last l d).
Proof.
  intros Hd H. induction H as [|x l Hx Hl IH]; [exact Hd|].
  cbn [last]. destruct l; [exact Hx | exact IH].
Qed.

Lemma name_lacks (p : str) : lacks SEP (Path.name p) = true.
Proof.
  unfold Path.name. apply last_Forall; [reflexivity|].
  apply Forall_forall. intros c Hc. apply filter_In in Hc as [Hc _].
  revert c Hc. apply Forall_forall, split_sep_lacks.
Qed.

Lemma lacks_firstn (ch : N) (n : nat) (s : str) :
  lacks ch s = true -> lacks ch (firstn n s) = true.
Proof.
  revert s. induction n as [|n IH]; intros [|c t]; try reflexivity.
  cbn [firstn lacks forallb]. intros H. apply andb_prop in H as [Hc Ht].
  rewrite Hc. exact (IH t Ht).
Qed.

Lemma stem_lacks (p : str) : lacks SEP (stem p) = true.
Proof.
  unfold stem. pose proof (name_lacks p) as H.
  destruct (rfind_dot (Path.name p)) as [i|]; [|exact H].
  destruct (_ && _); [apply lacks_firstn|]; exact H.
Qed.

Lemma output_filename_lacks (pdf_path : str) :
  lacks SEP (stem pdf_path ++ pystr ".json") = true.
Proof. rewrite lacks_app, stem_lacks. reflexivity. Qed.

Lemma head_of_lacks (f : str) : lacks SEP f = true -> head_of f = [].
Proof.
  destruct f as [|c t]; [reflexivity|]. intros H. cbn [head_of].
  replace (existsb (N.eqb SEP) (c :: t)) with false; [reflexivity|].
  symmetry. apply not_true_is_false. intros He.
  apply existsb_exists in He as (x & Hin & Hx).
  apply N.eqb_eq in Hx. subst x. unfold lacks in H.
  rewrite forallb_forall in H. specialize (H _ Hin).
  rewrite N.eqb_refl in H. discriminate.
Qed.

Lemma head_of_app (a f : str) :
  lacks SEP f = true -> head_of (a ++ SEP :: f) = a ++ [SEP].
Proof.
  intros Hf. induction a as [|c a IH].
  - cbn [app head_of existsb]. rewrite N.eqb_refl. cbn [orb].
    rewrite (head_of_lacks f Hf). reflexivity.
  - cbn [app head_of]. rewrite IH.
    replace (existsb (N.eqb SEP) (c :: a ++ SEP :: f)) with true;
      [reflexivity|].
    symmetry. apply existsb_exists. exists SEP. split; [|apply N.eqb_refl].
    right. apply in_or_app. right. left. reflexivity.
Qed.

Lemma rstrip_sep_snoc_sep (a : str) : rstrip_sep (a ++ [SEP]) = rstrip_sep a.
Proof.
  induction a as [|c a IH]; [reflexivity|].
  cbn [app rstrip_sep]. rewrite IH. reflexivity.
Qed.

Lemma rstrip_sep_snoc (a : str) (c : N) :
  (c =? SEP) = false -> rstrip_sep (a ++ [c]) = a ++ [c].
Proof.
  intros Hc. induction a as [|x a IH].
  - cbn [app rstrip_sep]. rewrite Hc. reflexivity.
  - cbn [app rstrip_sep]. rewrite IH. destruct (a ++ [c]) eqn:H;
      [destruct a; discriminate H | reflexivity].
Qed.

Lemma rstrip_sep_idem (d : str) : rstrip_sep (rstrip_sep d) = rstrip_sep d.
Proof.
  induction d as [|c t IH]; [reflexivity|].
  cbn [rstrip_sep]. destruct (rstrip_sep t) as [|x r] eqn:Ht.
  - destruct (c =? SEP) eqn:Hc; [reflexivity|].
    cbn [rstrip_sep]. rewrite Hc. reflexivity.
  - cbn [rstrip_sep]. cbn [rstrip_sep] in IH. rewrite IH. reflexivity.
Qed.

Lemma norm_dir_idem (d : str) : norm_dir (norm_dir d) = norm_dir d.
Proof.
  unfold norm_dir at 2 3. destruct (rstrip_sep d) as [|x r] eqn:H.
  - unfold norm_dir. rewrite H. reflexivity.
  - unfold norm_dir. rewrite <- H, rstrip_sep_idem, H. reflexivity.
Qed.

Lemma nonempty_norm_dir (d : str) : nonempty (norm_dir d) = nonempty d.
Proof.
  unfold norm_dir. destruct (rstrip_sep d) as [|x r] eqn:H; [reflexivity|].
  destruct d; [discriminate H | reflexivity].
Qed.

Lemma dir_exists_norm_dir (w : World) (d : str) :
  dir_exists w (norm_dir d) = dir_exists w d.
Proof.
  unfold dir_exists. rewrite nonempty_norm_dir, norm_dir_idem. reflexivity.
Qed.

(** [os.path.dirname(os.path.join(d, f))] for a plain file name [f]. *)
Lemma dirname_path_join (d f : str) :
  lacks SEP f = true -> dirname (path_join d f) = norm_dir d.
Proof.
  intros Hf. unfold path_join, dirname.
  rewrite (startswith_sep_lacks f Hf).
  destruct d as [|x d'].
  - cbn [nonempty negb orb app]. rewrite (head_of_lacks f Hf). reflexivity.
  - cbn [nonempty negb orb].
    destruct (endswith (x :: d') [SEP]) eqn:He.
    + apply endswith_char in He as [a Ha]. rewrite Ha, <- app_assoc.
      cbn [app]. rewrite (head_of_app a f Hf). reflexivity.
    + change ((x :: d') ++ [SEP] ++ f) with ((x :: d') ++ SEP :: f).
      rewrite (head_of_app _ f Hf).
      destruct (exists_last (l := x :: d') ltac:(discriminate)) as (a & c & Ha).
      rewrite Ha in *.
      assert (Hc : (c =? SEP) = false).
      { destruct (N.eqb_spec c SEP) as [->|]; [|reflexivity].
        rewrite endswith_app in He. discriminate He. }
      unfold norm_dir. rewrite rstrip_sep_snoc_sep, (rstrip_sep_snoc a c Hc).
      destruct (a ++ [c]) eqn:H; [destruct a; discriminate H | reflexivity].
Qed.

Lemma endswith_path_join (d f suffix : str) :
  endswith f suffix = true -> endswith (path_join d f) suffix = true.
Proof.
  assert (Happ : forall a, endswith f suffix = true ->
                           endswith (a ++ f) suffix = true).
  { intros a. unfold endswith, startswith. rewrite rev_app_distr.
    destruct (strip_prefix (rev suffix) (rev f)) as [r|] eqn:H;
      [|discriminate]. intros _.
    assert (Hp : forall p s r0 t, strip_prefix p s = Some r0 ->
                                  strip_prefix p (s ++ t) = Some (r0 ++ t)).
    { induction p as [|y p IH]; intros s r0 t.
      - cbn. intros [= <-]. reflexivity.
      - destruct s as [|z s]; [discriminate|]. cbn [strip_prefix app].
        destruct (y =? z); [apply IH | discriminate]. }
    rewrite (Hp _ _ _ (rev a) H). reflexivity. }
  intros H. unfold path_join.
  destruct (startswith f [SEP]); [exact H|].
  destruct (negb (nonempty d) || endswith d [SEP]); [apply Happ, H|].
  rewrite app_assoc. apply Happ, H.
Qed.

(** X12: whatever the path of the document, the metadata are written
    directly into the output folder: the file name, the stem of the
    document and [.json], holds no separator, the path ends in [.json],
    its directory is the output folder, and so the directory the write
    needs is the output folder itself. *)
Theorem X12_output_file_lies_in_the_output_folder
  (output_folder pdf_path : str) (w : World) :
  lacks SEP (stem pdf_path ++ pystr ".json") = true
  /\ endswith (output_path output_folder pdf_path) (pystr ".json") = true
  /\ dirname (output_path output_folder pdf_path) = norm_dir output_folder
  /\ dir_exists w (dirname (output_path output_folder pdf_path))
     = dir_exists w output_folder.
Proof.
  pose proof (output_filename_lacks pdf_path) as H.
  split; [exact H|]. split; [|split].
  - apply endswith_path_join, endswith_app.
  - apply dirname_path_join, H.
  - unfold output_path. rewrite (dirname_path_join _ _ H).
    apply dir_exists_norm_dir.
Qed.

(* ===================================================================== *)
(** * Files and directories: what a run can change *)
(* ===================================================================== *)

Section DocumentDisk.

Variable I : World -> Prop.
Hypothesis I_disk : disk_only I.
Variable E : Env.
Variable output_folder : str.

(** Writing an output file keeps [I]. *)
Hypothesis I_write :
  forall pdf_path text,
    keeps I (write_file (output_path output_folder pdf_path) text).

Lemma hosted_process_research_paper_keeps (pdf_path model_id : str) :
  keeps I (Hosted.process_research_paper E pdf_path output_folder model_id).
Proof.
  unfold Hosted.process_research_paper, Hosted.extract_text_from_pdf.
  pose proof (hosted_extract_metadata_keeps_disk I E) as Hmeta.
  pose proof (I_write pdf_path) as Hw. unfold output_path in Hw.
  disk_steps.
Qed.

Lemma local_process_research_paper_keeps
  (pdf_path prompt_path model_id : str) :
  keeps I (Ollama.process_research_paper E pdf_path prompt_path output_folder
             model_id).
Proof.
  unfold Ollama.process_research_paper, Ollama.extract_text_from_pdf.
  pose proof (local_extract_metadata_keeps_disk I E) as Hmeta.
  pose proof (I_write pdf_path) as Hw. unfold output_path in Hw.
  disk_steps.
Qed.

Lemma hosted_process_directory_keeps (directory_path model_id : str) :
  keeps I (Hosted.process_directory E directory_path output_folder model_id).
Proof.
  unfold Hosted.process_directory.
  apply keeps_bind; [apply keeps_lift|]. intros filenames.
  apply keeps_for_each. intros filename.
  destruct (endswith _ _); [|apply keeps_ret].
  apply hosted_process_research_paper_keeps.
Qed.

Lemma local_process_directory_keeps
  (prompt_path directory_path model_id : str) :
  keeps I (Ollama.process_directory E prompt_path directory_path
             output_folder model_id).
Proof.
  unfold Ollama.process_directory.
  apply keeps_bind; [apply keeps_lift|]. intros filenames.
  apply keeps_for_each. intros filename.
  destruct (endswith _ _); [|apply keeps_ret].
  apply local_process_research_paper_keeps.
Qed.

End DocumentDisk.

Lemma keeps_write_file_dirs (d0 : list str) (path text : str) :
  keeps (has_dirs d0) (write_file path text).
Proof.
  intros w H. unfold write_file.
  destruct (dir_exists w (dirname path)); exact H.
Qed.

Lemma keeps_write_file_missing
  (w0 : World) (output_folder pdf_path text : str) :
  dir_exists w0 output_folder = false ->
  keeps (on_disk (dirs w0) (files w0))
        (write_file (output_path output_folder pdf_path) text).
Proof.
  intros Hmiss w [Hd Hf]. unfold write_file.
  replace (dir_exists w (dirname (output_path output_folder pdf_path)))
    with false; [split; assumption|].
  symmetry. unfold output_path.
  rewrite (dirname_path_join _ _ (output_filename_lacks pdf_path)).
  rewrite dir_exists_norm_dir, (dir_exists_dirs w w0 _ Hd). exact Hmiss.
Qed.

Lemma str_eqb_neq (a b : str) : a <> b -> str_eqb a b = false.
Proof.
  intros H. unfold str_eqb. destruct (list_eq_dec N.eq_dec a b);
    [contradiction | reflexivity].
Qed.

Lemma same_file_disk_only (q : str) (f0 : list (str * str)) :
  disk_only (same_file q f0).
Proof. intros w w' _ Hf H text. rewrite Hf. apply H. Qed.

Lemma keeps_write_file_other (q : str) (f0 : list (str * str))
                             (path text : str) :
  q <> path -> keeps (same_file q f0) (write_file path text).
Proof.
  intros Hq w H. unfold write_file.
  destruct (dir_exists w (dirname path)); [|exact H].
  intros t. cbn [snd files]. rewrite <- (H t). split.
  - intros [Heq | Hin].
    + injection Heq as Heq _. symmetry in Heq. contradiction.
    + apply filter_In in Hin. apply Hin.
  - intros Hin. right. apply filter_In. split; [exact Hin|].
    cbn [fst]. rewrite (str_eqb_neq _ _ Hq). reflexivity.
Qed.





(* ===================================================================== *)
(** * The two extraction scripts, top to bottom *)
(* ===================================================================== *)

Lemma for_each_returns {A} (body : A -> M unit) :
  (forall x w, exists w', body x w = (Ok tt, w')) ->
  forall xs w, exists w', for_each xs body w = (Ok tt, w').
Proof.
  intros Hbody xs. induction xs as [|x xs IH]; intros w.
  - exists w. reflexivity.
  - destruct (Hbody x w) as (w1 & Hrun). destruct (IH w1) as (w' & Hrun').
    exists w'. cbn [for_each]. unfold bind. rewrite Hrun. exact Hrun'.
Qed.

Lemma hosted_process_directory_result
  (E : Env) (directory_path output_folder model_id : str) (w : World) :
  exists w',
    Hosted.process_directory E directory_path output_folder model_id w
    = (match listdir E directory_path with
       | Ok _ => Ok tt
       | Raise e => Raise e
       end, w').
Proof.
  unfold Hosted.process_directory, bind, lift.
  destruct (listdir E directory_path) as [filenames|e]; [|eauto].
  apply for_each_returns. intros filename w0.
  destruct (endswith _ _); [|exists w0; reflexivity].
  destruct (hosted_process_research_paper_run
              E (path_join directory_path filename) output_folder model_id w0)
    as (w' & H & _).
  eauto.
Qed.

Lemma local_process_directory_result
  (E : Env) (prompt_path directory_path output_folder model_id : str)
  (w : World) :
  exists w',
    Ollama.process_directory E prompt_path directory_path output_folder
      model_id w
    = (match listdir E directory_path with
       | Ok _ => Ok tt
       | Raise e => Raise e
       end, w').
Proof.
  unfold Ollama.process_directory, bind, lift.
  destruct (listdir E directory_path) as [filenames|e]; [|eauto].
  apply for_each_returns. intros filename w0.
  destruct (endswith _ _); [|exists w0; reflexivity].
  destruct (local_process_research_paper_run
              E (path_join directory_path filename) prompt_path output_folder
              model_id w0) as (w' & H & _).
  eauto.
Qed.




(* ===================================================================== *)
(** * json.dump and json.loads: what is written reads back *)
(* ===================================================================== *)

Lemma below_spec (n : nat) (P : N -> bool) :
  below n P = true -> forall x, x < N.of_nat n -> P x = true.
Proof.
  unfold below. rewrite forallb_forall. intros H x Hx. apply H.
  apply in_map_iff. exists (N.to_nat x). split; [apply N2Nat.id|].
  apply in_seq. lia.
Qed.

Lemma hex_val_hex_digit (k : N) : k < 16 -> hex_val (hex_digit k) = Some k.
Proof.
  intros Hk.
  apply (below_spec 16 (fun k => match hex_val (hex_digit k) with
                                 | Some k' => k' =? k
                                 | None => false
                                 end)) in Hk; [|vm_compute; reflexivity].
  cbv beta in Hk. destruct (hex_val (hex_digit k)); [|discriminate].
  apply N.eqb_eq in Hk. congruence.
Qed.

Lemma hex4_u_escape (n : N) :
  n < 65536 ->
  hex4 (hex_digit ((n / 4096) mod 16)) (hex_digit ((n / 256) mod 16))
       (hex_digit ((n / 16) mod 16)) (hex_digit (n mod 16)) = Some n.
Proof.
  intros Hn. unfold hex4.
  rewrite !hex_val_hex_digit by (apply N.mod_lt; discriminate).
  f_equal.
  pose proof (N.div_mod n 16 ltac:(discriminate)).
  pose proof (N.div_mod (n / 16) 16 ltac:(discriminate)).
  pose proof (N.div_mod (n / 256) 16 ltac:(discriminate)).
  pose proof (N.mod_lt n 16 ltac:(discriminate)).
  pose proof (N.mod_lt (n / 16) 16 ltac:(discriminate)).
  pose proof (N.mod_lt (n / 256) 16 ltac:(discriminate)).
  assert (n / 256 = n / 16 / 16) by (rewrite N.Div0.div_div; reflexivity).
  assert (n / 4096 = n / 256 / 16) by (rewrite N.Div0.div_div; reflexivity).
  assert (n / 4096 < 16) by (apply N.Div0.div_lt_upper_bound; lia).
  rewrite (N.mod_small (n / 4096) 16) by assumption.
  lia.
Qed.

Lemma scanstring_u_escape (u : N) (tail : str) :
  u < 65536 -> is_high_surrogate u = false ->
  scanstring (u_escape u ++ tail) = cons_char u (scanstring tail).
Proof.
  intros Hu Hs. unfold u_escape.
  change (pystr "\u") with [ord "\"; ord "u"]. cbn [app].
  cbn [scanstring].
  change (ord "\" =? DQ) with false. change (ord "\" =? ord "\") with true.
  change (ord "u" =? ord "u") with true. cbv iota.
  rewrite (hex4_u_escape u Hu), Hs. reflexivity.
Qed.

Lemma surrogate_pair (c : N) :
  65536 <= c -> c < 1114112 ->
  let n := c - 65536 in
  let hi := N.lor 55296 (N.land (N.shiftr n 10) 1023) in
  let lo := N.lor 56320 (N.land n 1023) in
  hi < 65536 /\ lo < 65536
  /\ is_high_surrogate hi = true /\ is_low_surrogate lo = true
  /\ join_surrogates hi lo = c.
Proof.
  intros H1 H2 n hi lo.
  assert (Hn : n < 1048576) by (unfold n; lia).
  assert (Hq : N.land (N.shiftr n 10) 1023 = n / 1024).
  { change 1023 with (N.ones 10). rewrite N.land_ones, N.shiftr_div_pow2.
    change (2 ^ 10) with 1024. apply N.mod_small.
    apply N.Div0.div_lt_upper_bound. lia. }
  assert (Hr : N.land n 1023 = n mod 1024).
  { change 1023 with (N.ones 10). rewrite N.land_ones. reflexivity. }
  assert (Hq' : n / 1024 < 1024) by (apply N.Div0.div_lt_upper_bound; lia).
  assert (Hr' : n mod 1024 < 1024) by (apply N.mod_lt; discriminate).
  assert (Hhi : hi = 55296 + n / 1024).
  { unfold hi. rewrite Hq.
    apply (below_spec 1024 (fun x => N.lor 55296 x =? 55296 + x)) in Hq';
      [|vm_compute; reflexivity].
    apply N.eqb_eq in Hq'. exact Hq'. }
  assert (Hlo : lo = 56320 + n mod 1024).
  { unfold lo. rewrite Hr.
    apply (below_spec 1024 (fun x => N.lor 56320 x =? 56320 + x)) in Hr';
      [|vm_compute; reflexivity].
    apply N.eqb_eq in Hr'. exact Hr'. }
  pose proof (N.div_mod n 1024 ltac:(discriminate)) as Hdm.
  rewrite Hhi, Hlo. unfold is_high_surrogate, is_low_surrogate, join_surrogates.
  repeat split; try lia.
  - apply andb_true_intro. split; apply N.leb_le; lia.
  - apply andb_true_intro. split; apply N.leb_le; lia.
Qed.

Lemma scanstring_escape_ascii (c : N) (tail : str) :
  is_scalar c = true ->
  scanstring (escape_ascii c ++ tail) = cons_char c (scanstring tail).
Proof.
  intros Hc. unfold escape_ascii.
  destruct (N.eqb_spec c DQ) as [->|H1]; [reflexivity|].
  destruct (N.eqb_spec c (ord "\")) as [->|H2]; [reflexivity|].
  destruct (N.eqb_spec c 10) as [->|H3]; [reflexivity|].
  destruct (N.eqb_spec c 13) as [->|H4]; [reflexivity|].
  destruct (N.eqb_spec c 9) as [->|H5]; [reflexivity|].
  destruct (N.eqb_spec c 12) as [->|H6]; [reflexivity|].
  destruct (N.eqb_spec c 8) as [->|H7]; [reflexivity|].
  destruct ((32 <=? c) && (c <=? 126)) eqn:Hp.
  { apply andb_prop in Hp as [Hlo Hhi]. apply N.leb_le in Hlo.
    cbn [app scanstring].
    destruct (N.eqb_spec c DQ); [contradiction|].
    destruct (N.eqb_spec c (ord "\")); [contradiction|].
    destruct (N.leb_spec c 31); [lia | reflexivity]. }
  unfold is_scalar in Hc.
  destruct (N.ltb_spec c 65536) as [Hlt|Hge].
  - apply scanstring_u_escape; [exact Hlt|].
    unfold is_high_surrogate.
    apply orb_prop in Hc as [Hc|Hc].
    + apply N.ltb_lt in Hc. apply andb_false_intro1. apply N.leb_gt. lia.
    + apply andb_prop in Hc as [Hc _]. apply N.ltb_lt in Hc.
      apply andb_false_intro2. apply N.leb_gt. lia.
  - assert (Hmax : c < 1114112).
    { apply orb_prop in Hc as [Hc|Hc].
      - apply N.ltb_lt in Hc. lia.
      - apply andb_prop in Hc as [_ Hc]. apply N.ltb_lt in Hc. exact Hc. }
    destruct (surrogate_pair c Hge Hmax) as (Hh & Hl & Hhs & Hls & Hj).
    cbv zeta in *.
    set (hi := N.lor 55296 _) in *. set (lo := N.lor 56320 _) in *.
    rewrite <- app_assoc. unfold u_escape at 1.
    change (pystr "\u") with [ord "\"; ord "u"]. cbn [app].
    cbn [scanstring].
    change (ord "\" =? DQ) with false. change (ord "\" =? ord "\") with true.
    change (ord "u" =? ord "u") with true. cbv iota.
    rewrite (hex4_u_escape hi Hh), Hhs.
    unfold u_escape. change (pystr "\u") with [ord "\"; ord "u"]. cbn [app].
    change (ord "\" =? ord "\") with true.
    change (ord "u" =? ord "u") with true. cbn [andb].
    rewrite (hex4_u_escape lo Hl), Hls, Hj. reflexivity.
Qed.

Lemma scanstring_encoded (s rest : str) :
  text_ok s = true ->
  scanstring (flat_map escape_ascii s ++ DQ :: rest) = Some (s, rest).
Proof.
  induction s as [|c s IH]; intros H.
  - reflexivity.
  - cbn [text_ok forallb] in H. apply andb_prop in H as [Hc Hs].
    cbn [flat_map]. rewrite <- app_assoc, (scanstring_escape_ascii _ _ Hc).
    rewrite (IH Hs). reflexivity.
Qed.

Lemma closes_cases (rest : str) :
  closes rest = true ->
  rest = [] \/ exists t, rest = ord "," :: t \/ rest = LF :: t.
Proof.
  destruct rest as [|c t]; [auto|]. cbn [closes]. intros H. right. exists t.
  apply orb_prop in H as [H|H]; apply N.eqb_eq in H; subst; auto.
Qed.

Lemma closes_number (rest : str) :
  closes rest = true ->
  span_digits rest = ([], rest) /\ match_frac rest = None
  /\ match_exp rest = None.
Proof.
  intros H. destruct (closes_cases rest H) as [-> | (t & [-> | ->])].
  - repeat split.
  - repeat split. destruct t; reflexivity.
  - repeat split. destruct t; reflexivity.
Qed.

Lemma digit_cases (c : N) :
  is_digit c = true ->
  c = 48 \/ c = 49 \/ c = 50 \/ c = 51 \/ c = 52 \/ c = 53 \/ c = 54
  \/ c = 55 \/ c = 56 \/ c = 57.
Proof.
  unfold is_digit. intros H. apply andb_prop in H as [H1 H2].
  apply N.leb_le in H1, H2. lia.
Qed.

(** The digits of a decimal numeral. *)
Lemma uint_digits (d : Decimal.uint) :
  forallb is_digit (pystr (NilEmpty.string_of_uint d)) = true.
Proof. induction d; cbn; auto. Qed.

Lemma span_digits_all (ds rest : str) :
  forallb is_digit ds = true -> span_digits rest = ([], rest) ->
  span_digits (ds ++ rest) = (ds, rest).
Proof.
  intros Hd Hr. induction ds as [|c ds IH]; [exact Hr|].
  cbn [forallb] in Hd. apply andb_prop in Hd as [Hc Hd].
  cbn [app span_digits]. rewrite Hc, (IH Hd). reflexivity.
Qed.

Lemma digits_value_acc (d : Decimal.uint) (acc : positive) :
  fold_left (fun a c => 10 * a + (c - 48))
            (pystr (NilEmpty.string_of_uint d)) (Npos acc)
  = Npos (Pos.of_uint_acc d acc).
Proof.
  revert acc. induction d; intros acc; [reflexivity|..];
    cbn [NilEmpty.string_of_uint Pos.of_uint_acc];
    change (pystr (String ?a ?s)) with (ord a :: pystr s);
    cbn [fold_left]; rewrite <- IHd; f_equal;
    try (match goal with
         | |- context [ord ?a - 48] =>
             let v := eval vm_compute in (ord a - 48) in
             change (ord a - 48) with v
         end; lia).
Qed.

Lemma digits_value_uint (d : Decimal.uint) :
  digits_value (pystr (NilEmpty.string_of_uint d)) = Pos.of_uint d.
Proof.
  unfold digits_value. induction d; [reflexivity|..];
    cbn [NilEmpty.string_of_uint Pos.of_uint];
    change (pystr (String ?a ?s)) with (ord a :: pystr s);
    cbn [fold_left]; first [exact IHd | apply digits_value_acc].
Qed.

Lemma nzhead_head (d l : Decimal.uint) : Decimal.nzhead d <> Decimal.D0 l.
Proof. induction d; cbn; try discriminate. exact IHd. Qed.

(** The numeral of a positive number starts with a digit that is not 0. *)
Lemma to_uint_head (p : positive) :
  exists c t,
    pystr (NilEmpty.string_of_uint (Pos.to_uint p)) = c :: t
    /\ ((49 <=? c) && (c <=? 57)) = true.
Proof.
  pose proof (DecimalPos.Unsigned.to_of (Pos.to_uint p)) as H.
  rewrite DecimalPos.Unsigned.of_to in H. cbn [N.to_uint] in H.
  pose proof (DecimalPos.Unsigned.to_uint_nonzero p) as Hz.
  pose proof (DecimalPos.Unsigned.to_uint_nonnil p) as Hn.
  destruct (Pos.to_uint p) as [|l|l|l|l|l|l|l|l|l|l] eqn:Hp;
    try contradiction;
    try (do 2 eexists; split; [reflexivity | reflexivity]).
  exfalso. unfold Decimal.unorm in H. cbn [Decimal.nzhead] in H.
  destruct (Decimal.nzhead l) eqn:Hl; try discriminate H.
  - apply Hz, H.
  - exact (nzhead_head _ _ Hl).
Qed.

Lemma int_repr_pos (p : positive) :
  int_repr (Zpos p) = pystr (NilEmpty.string_of_uint (Pos.to_uint p)).
Proof.
  unfold int_repr. cbn [Z.to_int NilZero.string_of_int].
  unfold NilZero.string_of_uint.
  pose proof (DecimalPos.Unsigned.to_uint_nonnil p).
  destruct (Pos.to_uint p); [contradiction|..]; reflexivity.
Qed.

Lemma int_repr_neg (p : positive) :
  int_repr (Zneg p)
  = ord "-" :: pystr (NilEmpty.string_of_uint (Pos.to_uint p)).
Proof.
  unfold int_repr. cbn [Z.to_int NilZero.string_of_int].
  unfold NilZero.string_of_uint.
  pose proof (DecimalPos.Unsigned.to_uint_nonnil p).
  destruct (Pos.to_uint p); [contradiction|..]; reflexivity.
Qed.

Lemma match_number_digits (neg : bool) (c : N) (t rest : str) (p : positive) :
  ((49 <=? c) && (c <=? 57)) = true ->
  pystr (NilEmpty.string_of_uint (Pos.to_uint p)) = c :: t ->
  closes rest = true ->
  match_number ((if neg then [ord "-"] else []) ++ c :: t ++ rest)
  = Some (VInt (if neg then Zneg p else Zpos p), rest).
Proof.
  intros Hc Hp Hrest.
  destruct (closes_number rest Hrest) as (Hsd & Hfrac & Hexp).
  pose proof (uint_digits (Pos.to_uint p)) as Hd. rewrite Hp in Hd.
  cbn [forallb] in Hd. apply andb_prop in Hd as [_ Hd].
  pose proof (digits_value_uint (Pos.to_uint p)) as Hv.
  rewrite Hp, DecimalPos.Unsigned.of_to in Hv.
  assert (Hminus : (c =? ord "-") = false).
  { apply andb_prop in Hc as [H1 _]. apply N.leb_le in H1.
    apply N.eqb_neq. cbn. lia. }
  unfold match_number.
  destruct neg; cbn [app]; [change (ord "-" =? ord "-") with true
                           | rewrite Hminus]; cbv iota;
    rewrite Hc, (span_digits_all t rest Hd Hsd), Hfrac, Hexp; cbn [orb];
    cbv zeta; rewrite Hv; reflexivity.
Qed.

Lemma match_number_int (z : Z) (rest : str) :
  closes rest = true ->
  match_number (int_repr z ++ rest) = Some (VInt z, rest).
Proof.
  intros Hrest. destruct z as [|p|p].
  - destruct (closes_number rest Hrest) as (Hsd & Hfrac & Hexp).
    change (int_repr 0) with [ord "0"]. unfold match_number. cbn [app].
    change (ord "0" =? ord "-") with false. cbv iota.
    change ((49 <=? ord "0") && (ord "0" <=? 57)) with false.
    change (ord "0" =? ord "0") with true. cbv iota.
    rewrite Hfrac, Hexp. reflexivity.
  - rewrite int_repr_pos. destruct (to_uint_head p) as (c & t & Hp & Hc).
    rewrite Hp. apply (match_number_digits false c t rest p Hc Hp Hrest).
  - rewrite int_repr_neg. destruct (to_uint_head p) as (c & t & Hp & Hc).
    rewrite Hp. apply (match_number_digits true c t rest p Hc Hp Hrest).
Qed.

(** The first character of an integer. *)
Lemma int_repr_head (z : Z) :
  exists c t, int_repr z = c :: t
              /\ (is_digit c = true
                  \/ c = ord "-"
                     /\ exists d t', t = d :: t' /\ is_digit d = true).
Proof.
  destruct z as [|p|p].
  - exists (ord "0"), []. split; [reflexivity | left; reflexivity].
  - rewrite int_repr_pos. destruct (to_uint_head p) as (c & t & Hp & Hc).
    exists c, t. split; [exact Hp|]. left. unfold is_digit.
    apply andb_prop in Hc as [H1 H2]. apply N.leb_le in H1.
    rewrite H2, andb_true_r. apply N.leb_le. lia.
  - rewrite int_repr_neg. destruct (to_uint_head p) as (c & t & Hp & Hc).
    exists (ord "-"), (pystr (NilEmpty.string_of_uint (Pos.to_uint p))).
    split; [reflexivity|]. right. split; [reflexivity|].
    exists c, t. split; [exact Hp|]. unfold is_digit.
    apply andb_prop in Hc as [H1 H2]. apply N.leb_le in H1.
    rewrite H2, andb_true_r. apply N.leb_le. lia.
Qed.

Lemma scan_once_digit (fuel : nat) (c : N) (t : str) :
  is_digit c = true ->
  scan_once (S fuel) (c :: t) = of_option (match_number (c :: t)).
Proof.
  intros H. apply digit_cases in H.
  repeat (destruct H as [-> | H]; [reflexivity|]). subst c. reflexivity.
Qed.

Lemma scan_once_minus (fuel : nat) (d : N) (t : str) :
  is_digit d = true ->
  scan_once (S fuel) (ord "-" :: d :: t)
  = of_option (match_number (ord "-" :: d :: t)).
Proof.
  intros H. apply digit_cases in H.
  repeat (destruct H as [-> | H]; [reflexivity|]). subst d. reflexivity.
Qed.

Lemma scan_once_int (fuel : nat) (z : Z) (rest : str) :
  closes rest = true ->
  scan_once (S fuel) (int_repr z ++ rest) = Found (VInt z) rest.
Proof.
  intros Hrest. pose proof (match_number_int z rest Hrest) as Hm.
  destruct (int_repr_head z) as (c & t & Hz & [Hd | (-> & d & t' & -> & Hd)]);
    rewrite Hz in *; cbn [app] in *.
  - rewrite (scan_once_digit _ _ _ Hd), Hm. reflexivity.
  - rewrite (scan_once_minus _ _ _ Hd), Hm. reflexivity.
Qed.

Lemma value_nested_ind (P : value -> Prop) :
  P VNone -> (forall b, P (VBool b)) -> (forall z, P (VInt z)) ->
  (forall f, P (VFloat f)) -> (forall s, P (VStr s)) ->
  (forall items, Forall P items -> P (VList items)) ->
  (forall items, Forall (fun kv => P (snd kv)) items -> P (VDict items)) ->
  forall v, P v.
Proof.
  intros HN HB HI HF HS HL HD. fix IH 1.
  intros [| b | z | f | s | items | items].
  - exact HN.
  - apply HB.
  - apply HI.
  - apply HF.
  - apply HS.
  - apply HL. induction items as [|x items IHl]; constructor;
      [apply IH | exact IHl].
  - apply HD. induction items as [|[k x] items IHl]; constructor;
      [apply IH | exact IHl].
Qed.

(** More fuel does not change a scan that has ended. *)
Lemma scan_more_fuel (fuel : nat) :
  (forall s, scan_once fuel s <> Exhausted ->
             scan_once (S fuel) s = scan_once fuel s)
  /\ (forall acc s, parse_array fuel acc s <> Exhausted ->
                    parse_array (S fuel) acc s = parse_array fuel acc s)
  /\ (forall acc s, parse_object fuel acc s <> Exhausted ->
                    parse_object (S fuel) acc s = parse_object fuel acc s).
Proof.
  induction fuel as [|fuel (IHs & IHa & IHo)];
    [repeat split; intros; contradiction|].
  repeat split.
  - intros s. cbn [scan_once]. destruct s as [|c t]; [reflexivity|].
    destruct (c =? DQ); [reflexivity|].
    destruct (c =? ord "{").
    { destruct (skip_ws t) as [|c' t']; [reflexivity|].
      destruct (c' =? ord "}"); [reflexivity | apply IHo]. }
    destruct (c =? ord "[").
    { destruct (skip_ws t) as [|c' t']; [reflexivity|].
      destruct (c' =? ord "]"); [reflexivity | apply IHa]. }
    reflexivity.
  - intros acc s. cbn [parse_array].
    destruct (scan_once fuel s) as [v rest| |] eqn:Hs.
    + rewrite IHs, Hs by (rewrite Hs; discriminate).
      destruct (skip_ws rest) as [|c t]; [reflexivity|].
      destruct (c =? ord "]"); [reflexivity|].
      destruct (c =? ord ","); [apply IHa | reflexivity].
    + rewrite IHs, Hs by (rewrite Hs; discriminate). reflexivity.
    + contradiction.
  - intros acc s. cbn [parse_object].
    destruct s as [|q t]; [reflexivity|].
    destruct (q =? DQ); [|reflexivity].
    destruct (scanstring t) as [[key rest]|]; [|reflexivity].
    destruct (skip_ws rest) as [|colon t1]; [reflexivity|].
    destruct (colon =? ord ":"); [|reflexivity].
    destruct (scan_once fuel (skip_ws t1)) as [v rest1| |] eqn:Hs.
    + rewrite IHs, Hs by (rewrite Hs; discriminate).
      destruct (skip_ws rest1) as [|c t2]; [reflexivity|].
      destruct (c =? ord "}"); [reflexivity|].
      destruct (c =? ord ","); [apply IHo | reflexivity].
    + rewrite IHs, Hs by (rewrite Hs; discriminate). reflexivity.
    + contradiction.
Qed.

Lemma scan_once_more_fuel (fuel fuel' : nat) (s : str) :
  (fuel <= fuel')%nat -> scan_once fuel s <> Exhausted ->
  scan_once fuel' s = scan_once fuel s.
Proof.
  intros Hle Hs. induction Hle as [|m Hle IH]; [reflexivity|].
  rewrite <- IH. apply (proj1 (scan_more_fuel m)). rewrite IH. exact Hs.
Qed.

Lemma newline_indent_ws (level : nat) :
  all_json_ws (newline_indent level) = true.
Proof.
  unfold newline_indent. cbn [all_json_ws forallb].
  change (is_json_ws LF) with true. cbn [andb].
  induction (2 * level)%nat as [|n IH]; [reflexivity|].
  cbn [repeat forallb]. exact IH.
Qed.

Lemma starts_value_app (s rest : str) :
  starts_value s -> starts_value (s ++ rest).
Proof.
  intros (c & t & -> & H). exists c, (t ++ rest).
  split; [reflexivity | exact H].
Qed.

Lemma starts_value_skip (ws s : str) :
  all_json_ws ws = true -> starts_value s -> skip_ws (ws ++ s) = s.
Proof.
  intros Hws (c & t & -> & Hc & _). rewrite (skip_ws_app _ _ Hws).
  cbn [skip_ws]. rewrite Hc. reflexivity.
Qed.

Section RoundTrip.

Variable float_repr : pyfloat -> str.

Lemma iterencode_head (level : nat) (v : value) :
  plain v = true -> starts_value (iterencode float_repr level v).
Proof.
  intros Hv.
  destruct v as [| [|] | z | [| [|] |] | s | [|x items] | [|kv items]];
    try discriminate Hv;
    try (do 2 eexists; split; [reflexivity | repeat split]).
  destruct (int_repr_head z) as (c & t & Hz & [Hd | (-> & _)]).
  - exists c, t. split; [exact Hz|]. apply digit_cases in Hd.
    repeat (destruct Hd as [-> | Hd]; [repeat split|]). subst c. repeat split.
  - exists (ord "-"), t. split; [exact Hz | repeat split].
Qed.

Lemma closes_skip (rest : str) (close : N) (level : nat) :
  is_json_ws close = false ->
  skip_ws (newline_indent level ++ close :: rest) = close :: rest.
Proof.
  intros H. rewrite (skip_ws_app _ _ (newline_indent_ws level)).
  cbn [skip_ws]. rewrite H. reflexivity.
Qed.

Lemma parse_array_items (level level' : nat) (items : list value) :
  Forall (scans_back float_repr) items -> forallb plain items = true ->
  forall x acc rest,
    scans_back float_repr x -> plain x = true ->
    exists fuel0, forall fuel, (fuel0 <= fuel)%nat ->
      parse_array fuel acc
        (join (pystr "," ++ newline_indent level)
              (map (iterencode float_repr level) (x :: items))
         ++ newline_indent level' ++ pystr "]" ++ rest)
      = Found (VList (acc ++ x :: items)) rest.
Proof.
  intros HP.
  induction HP as [|y items Hy HP IH]; intros Hplain x acc rest Hx Hpx.
  - cbn [map join].
    destruct (Hx level (newline_indent level' ++ pystr "]" ++ rest) Hpx eq_refl)
      as (f0 & Hf0).
    exists (S f0). intros [|fuel] Hle; [lia|]. cbn [parse_array].
    rewrite Hf0 by lia.
    change (pystr "]" ++ rest) with (ord "]" :: rest).
    rewrite closes_skip by reflexivity.
    change (ord "]" =? ord "]") with true. reflexivity.
  - cbn [forallb] in Hplain. apply andb_prop in Hplain as [Hpy Hpl].
    destruct (IH Hpl y (acc ++ [x]) rest Hy Hpy) as (f1 & Hf1).
    set (tail := join (pystr "," ++ newline_indent level)
                      (map (iterencode float_repr level) (y :: items))
                 ++ newline_indent level' ++ pystr "]" ++ rest) in *.
    assert (Hjoin : join (pystr "," ++ newline_indent level)
                         (map (iterencode float_repr level) (x :: y :: items))
                    ++ newline_indent level' ++ pystr "]" ++ rest
                    = iterencode float_repr level x
                      ++ ord "," :: newline_indent level ++ tail).
    { subst tail. cbn [map join]. rewrite <- !app_assoc. reflexivity. }
    rewrite Hjoin.
    destruct (Hx level (ord "," :: newline_indent level ++ tail) Hpx eq_refl)
      as (f0 & Hf0).
    exists (S (Nat.max f0 f1)). intros [|fuel] Hle; [lia|]. cbn [parse_array].
    rewrite Hf0 by lia. cbn [skip_ws].
    change (is_json_ws (ord ",")) with false. cbv iota.
    change (ord "," =? ord "]") with false.
    change (ord "," =? ord ",") with true. cbv iota.
    rewrite starts_value_skip.
    + rewrite Hf1 by lia. rewrite <- app_assoc. reflexivity.
    + apply newline_indent_ws.
    + subst tail. cbn [map]. 
      destruct (map (iterencode float_repr level) items) eqn:Hm; cbn [join];
        rewrite <- ?app_assoc; apply starts_value_app, iterencode_head, Hpy.
Qed.

Lemma dict_set_fresh (acc : list (str * value)) (k : str) (v : value) :
  existsb (str_eqb k) (map fst acc) = false ->
  dict_set acc k v = acc ++ [(k, v)].
Proof.
  induction acc as [|[k' v'] acc IH]; [reflexivity|].
  cbn [map fst existsb dict_set app]. intros H.
  apply orb_false_elim in H as [H1 H2]. rewrite H1, (IH H2). reflexivity.
Qed.

Lemma str_eqb_sym (a b : str) : str_eqb a b = str_eqb b a.
Proof.
  unfold str_eqb.
  destruct (list_eq_dec N.eq_dec a b), (list_eq_dec N.eq_dec b a);
    congruence.
Qed.

Lemma distinct_middle (a r : list str) (k : str) :
  distinct (a ++ k :: r) = true -> existsb (str_eqb k) a = false.
Proof.
  induction a as [|x a IH]; [reflexivity|].
  cbn [app distinct existsb]. intros H. apply andb_prop in H as [Hx Ha].
  rewrite (IH Ha), orb_false_r. apply negb_true_iff in Hx.
  rewrite existsb_app in Hx. apply orb_false_elim in Hx as [_ Hx].
  cbn [existsb] in Hx. apply orb_false_elim in Hx as [Hx _].
  rewrite str_eqb_sym. exact Hx.
Qed.

Lemma entry_head (level : nat) (kv : str * value) (rest : str) :
  starts_value (entry float_repr level kv ++ rest).
Proof. do 2 eexists. split; [reflexivity | repeat split]. Qed.

Lemma parse_object_items (level level' : nat) (items : list (str * value)) :
  Forall (fun kv => scans_back float_repr (snd kv)) items ->
  forallb (fun kv => text_ok (fst kv) && plain (snd kv)) items = true ->
  forall k x acc rest,
    scans_back float_repr x -> text_ok k = true -> plain x = true ->
    distinct (map fst acc ++ k :: map fst items) = true ->
    exists fuel0, forall fuel, (fuel0 <= fuel)%nat ->
      parse_object fuel acc
        (join (pystr "," ++ newline_indent level)
              (map (entry float_repr level) ((k, x) :: items))
         ++ newline_indent level' ++ pystr "}" ++ rest)
      = Found (VDict (acc ++ (k, x) :: items)) rest.
Proof.
  intros HP.
  assert (Hone : forall k x acc tail fuel0,
             text_ok k = true ->
             existsb (str_eqb k) (map fst acc) = false ->
             (forall fuel, (fuel0 <= fuel)%nat ->
                scan_once fuel (iterencode float_repr level x ++ tail)
                = Found x tail) ->
             starts_value (iterencode float_repr level x) ->
             forall fuel, (fuel0 <= fuel)%nat ->
               parse_object (S fuel) acc (entry float_repr level (k, x) ++ tail)
               = match skip_ws tail with
                 | c :: t2 =>
                     if c =? ord "}" then Found (VDict (acc ++ [(k, x)])) t2
                     else if c =? ord ","
                          then parse_object fuel (acc ++ [(k, x)]) (skip_ws t2)
                          else Invalid
                 | [] => Invalid
                 end).
  { intros k x acc tail fuel0 Hk Hfresh Hscan Hhead fuel Hle.
    unfold entry, encode_basestring_ascii. cbn [fst snd].
    change (pystr ": ") with [ord ":"; 32].
    replace (((DQ :: flat_map escape_ascii k ++ [DQ])
              ++ [ord ":"; 32] ++ iterencode float_repr level x) ++ tail)
      with (DQ :: flat_map escape_ascii k
               ++ DQ :: ord ":" :: 32 :: iterencode float_repr level x ++ tail)
      by (cbn [app]; rewrite <- !app_assoc; reflexivity).
    cbn [parse_object]. change (DQ =? DQ) with true. cbv iota.
    rewrite (scanstring_encoded k _ Hk). cbn [skip_ws].
    change (is_json_ws (ord ":")) with false. cbv iota.
    change (ord ":" =? ord ":") with true. cbv iota.
    change (32 :: iterencode float_repr level x ++ tail)
      with ([32] ++ iterencode float_repr level x ++ tail).
    rewrite (starts_value_skip [32] _ eq_refl (starts_value_app _ tail Hhead)).
    rewrite (Hscan fuel Hle), (dict_set_fresh _ _ _ Hfresh). reflexivity. }
  induction HP as [|[k' y] items Hy HP IH];
    intros Hplain k x acc rest Hx Hk Hpx Hd.
  - cbn [map join].
    destruct (Hx level (newline_indent level' ++ pystr "}" ++ rest) Hpx eq_refl)
      as (f0 & Hf0).
    exists (S f0). intros [|fuel] Hle; [lia|].
    rewrite (Hone k x acc _ f0 Hk (distinct_middle _ _ _ Hd) Hf0
               (iterencode_head level x Hpx)) by lia.
    change (pystr "}" ++ rest) with (ord "}" :: rest).
    rewrite closes_skip by reflexivity.
    change (ord "}" =? ord "}") with true. reflexivity.
  - cbn [forallb fst snd] in Hplain. apply andb_prop in Hplain as [Hky Hpl].
    apply andb_prop in Hky as [Hk' Hpy]. cbn [snd] in Hy.
    cbn [map fst] in Hd.
    destruct (IH Hpl k' y (acc ++ [(k, x)]) rest Hy Hk' Hpy) as (f1 & Hf1).
    { rewrite map_app. cbn [map fst]. rewrite <- app_assoc. exact Hd. }
    set (tail := join (pystr "," ++ newline_indent level)
                      (map (entry float_repr level) ((k', y) :: items))
                 ++ newline_indent level' ++ pystr "}" ++ rest) in *.
    assert (Hjoin : join (pystr "," ++ newline_indent level)
                         (map (entry float_repr level)
                              ((k, x) :: (k', y) :: items))
                    ++ newline_indent level' ++ pystr "}" ++ rest
                    = entry float_repr level (k, x)
                      ++ ord "," :: newline_indent level ++ tail).
    { subst tail. cbn [map join]. rewrite <- !app_assoc. reflexivity. }
    rewrite Hjoin.
    destruct (Hx level (ord "," :: newline_indent level ++ tail) Hpx eq_refl)
      as (f0 & Hf0).
    exists (S (Nat.max f0 f1)). intros [|fuel] Hle; [lia|].
    rewrite (Hone k x acc _ f0 Hk (distinct_middle _ _ _ Hd) Hf0
               (iterencode_head level x Hpx)) by lia.
    cbn [skip_ws]. change (is_json_ws (ord ",")) with false. cbv iota.
    change (ord "," =? ord "}") with false.
    change (ord "," =? ord ",") with true. cbv iota.
    rewrite starts_value_skip.
    + rewrite Hf1 by lia. rewrite <- app_assoc. reflexivity.
    + apply newline_indent_ws.
    + subst tail. cbn [map].
      destruct (map (entry float_repr level) items) eqn:Hm; cbn [join];
        rewrite <- ?app_assoc; apply entry_head.
Qed.

Lemma scans_back_all (v : value) : scans_back float_repr v.
Proof.
  revert v.
  apply value_nested_ind;
    [ | intros b | intros z | intros f | intros s | intros items IH
      | intros items IH ];
    intros level rest Hv Hrest.
  - exists 1%nat. intros [|fuel] Hle; [lia|]. reflexivity.
  - exists 1%nat. intros [|fuel] Hle; [lia|]. destruct b; reflexivity.
  - exists 1%nat. intros [|fuel] Hle; [lia|]. apply scan_once_int, Hrest.
  - exists 1%nat. intros [|fuel] Hle; [lia|].
    destruct f as [| [|] |]; try discriminate Hv; reflexivity.
  - exists 1%nat. intros [|fuel] Hle; [lia|]. cbn [iterencode plain] in *.
    unfold encode_basestring_ascii. cbn [app scan_once].
    change (DQ =? DQ) with true. cbv iota. rewrite <- app_assoc. cbn [app].
    rewrite (scanstring_encoded s rest Hv). reflexivity.
  - destruct items as [|x items].
    { exists 1%nat. intros [|fuel] Hle; [lia|]. reflexivity. }
    inversion IH as [|? ? Hx Hitems]; subst. cbn [plain forallb] in Hv.
    apply andb_prop in Hv as [Hpx Hpl].
    destruct (parse_array_items (S level) level items Hitems Hpl x [] rest
                Hx Hpx) as (f0 & Hf0).
    exists (S f0). intros [|fuel] Hle; [lia|].
    change (iterencode float_repr level (VList (x :: items)))
      with (pystr "[" ++ newline_indent (S level)
            ++ join (pystr "," ++ newline_indent (S level))
                    (map (iterencode float_repr (S level)) (x :: items))
            ++ newline_indent level ++ pystr "]").
    change (pystr "[") with [ord "["]. cbn [app scan_once].
    change (ord "[" =? DQ) with false. change (ord "[" =? ord "{") with false.
    change (ord "[" =? ord "[") with true. cbv iota.
    rewrite <- !app_assoc.
    assert (Hs : starts_value
                   (join (pystr "," ++ newline_indent (S level))
                         (map (iterencode float_repr (S level)) (x :: items))
                    ++ newline_indent level ++ pystr "]" ++ rest)).
    { cbn [map].
      destruct (map (iterencode float_repr (S level)) items) eqn:Hm;
        cbn [join];
        rewrite <- ?app_assoc; apply starts_value_app, iterencode_head, Hpx. }
    rewrite (starts_value_skip _ _ (newline_indent_ws (S level)) Hs).
    pose proof (Hf0 fuel ltac:(lia)) as Hrun.
    change ([] ++ x :: items) with (x :: items) in Hrun. rewrite <- Hrun.
    destruct Hs as (c & t & -> & _ & Hc & _). rewrite Hc. reflexivity.
  - destruct items as [|[k x] items].
    { exists 1%nat. intros [|fuel] Hle; [lia|]. reflexivity. }
    inversion IH as [|? ? Hx Hitems]; subst. cbn [snd] in Hx.
    cbn [plain forallb map fst snd] in Hv.
    apply andb_prop in Hv as [Hd Hv]. apply andb_prop in Hv as [Hkx Hpl].
    apply andb_prop in Hkx as [Hk Hpx].
    destruct (parse_object_items (S level) level items Hitems Hpl k x [] rest
                Hx Hk Hpx Hd) as (f0 & Hf0).
    exists (S f0). intros [|fuel] Hle; [lia|].
    change (iterencode float_repr level (VDict ((k, x) :: items)))
      with (pystr "{" ++ newline_indent (S level)
            ++ join (pystr "," ++ newline_indent (S level))
                    (map (entry float_repr (S level)) ((k, x) :: items))
            ++ newline_indent level ++ pystr "}").
    change (pystr "{") with [ord "{"]. cbn [app scan_once].
    change (ord "{" =? DQ) with false. change (ord "{" =? ord "{") with true.
    cbv iota. rewrite <- !app_assoc.
    assert (Hs : starts_value
                   (join (pystr "," ++ newline_indent (S level))
                         (map (entry float_repr (S level)) ((k, x) :: items))
                    ++ newline_indent level ++ pystr "}" ++ rest)).
    { cbn [map].
      destruct (map (entry float_repr (S level)) items) eqn:Hm; cbn [join];
        rewrite <- ?app_assoc; apply entry_head. }
    rewrite (starts_value_skip _ _ (newline_indent_ws (S level)) Hs).
    pose proof (Hf0 fuel ltac:(lia)) as Hrun.
    change ([] ++ (k, x) :: items) with ((k, x) :: items) in Hrun.
    rewrite <- Hrun.
    destruct Hs as (c & t & Hs & _ & _ & Hc & _). rewrite Hs.
    assert (Hq : c = DQ).
    { revert Hs. cbn [map]. unfold entry at 1, encode_basestring_ascii.
      destruct (map (entry float_repr (S level)) items); cbn [join fst app];
        intros [= <- _]; reflexivity. }
    subst c. reflexivity.
Qed.

End RoundTrip.

(** The scan [json_loads] runs on the text of a plain value: nothing is
    skipped before it, it finds the value and it leaves nothing. *)
Lemma scan_dump (float_repr : pyfloat -> str) (v : value) :
  plain v = true ->
  startswith (iterencode float_repr 0 v) [BOM] = false
  /\ skip_ws (iterencode float_repr 0 v) = iterencode float_repr 0 v
  /\ scan_once (2 * length (iterencode float_repr 0 v) + 1)
               (iterencode float_repr 0 v)
     = Found v [].
Proof.
  intros Hv. pose proof (iterencode_head float_repr 0 v Hv) as Hs.
  split; [|split].
  - destruct Hs as (c & t & -> & _ & _ & _ & Hc). unfold startswith.
    cbn [strip_prefix]. rewrite N.eqb_sym, Hc. reflexivity.
  - apply (starts_value_skip [] _ eq_refl Hs).
  - destruct (scans_back_all float_repr v 0%nat [] Hv eq_refl) as (f0 & Hf0).
    rewrite List.app_nil_r in Hf0.
    set (F := (2 * length (iterencode float_repr 0 v) + 1)%nat).
    assert (HF : scan_once F (iterencode float_repr 0 v) <> Exhausted).
    { apply (proj1 (scan_fuel_suffices F)). unfold F. lia. }
    rewrite <- (scan_once_more_fuel F (Nat.max f0 F) _ ltac:(lia) HF).
    apply Hf0. lia.
Qed.

(** X17: the text [json.dump(metadata, f, indent=2)] writes is a JSON
    document that [json.loads] reads back to the same value, for every
    value whose strings are made of Unicode scalar values, whose mappings
    have distinct keys, and that holds no float other than [NaN] and the
    infinities: the text of a finite float comes from [float.__repr__],
    which the encoder takes as it is. *)
Theorem X17_written_metadata_reads_back
  (float_repr : pyfloat -> str) (v : value) :
  plain v = true -> json_loads (json_dump_indent2 float_repr v) = Some v.
Proof.
  intros Hv. destruct (scan_dump float_repr v Hv) as (Hbom & Hskip & Hscan).
  unfold json_loads, json_dump_indent2.
  rewrite Hbom, Hskip, Hscan. reflexivity.
Qed.

(** Metadata with a quote, an accent and an emoji in the title, a year, two
    authors and a nested mapping. *)
Lemma X17_written_metadata_reads_back_witness :
  json_loads (json_dump_indent2 (fun _ => []) sample_metadata)
  = Some sample_metadata.
Proof.
  apply (X17_written_metadata_reads_back (fun _ => []) sample_metadata
           eq_refl).
Defined.

(* ===================================================================== *)
(** * json.loads: the mappings it builds *)
(* ===================================================================== *)

Lemma plain_split (v : value) :
  keys_distinct v = true -> portable v = true -> plain v = true.
Proof.
  revert v.
  apply (value_nested_ind
           (fun v => keys_distinct v = true -> portable v = true ->
                     plain v = true));
    try (intros; assumption).
  - intros items IH Hk Hp. cbn [plain keys_distinct portable] in *.
    induction IH as [|x items Hx _ IHl]; [reflexivity|].
    cbn [forallb] in *. apply andb_prop in Hk as [Hk1 Hk2].
    apply andb_prop in Hp as [Hp1 Hp2].
    rewrite (Hx Hk1 Hp1). exact (IHl Hk2 Hp2).
  - intros items IH Hk Hp. cbn [plain keys_distinct portable] in *.
    apply andb_prop in Hk as [Hd Hk]. rewrite Hd. cbn [andb]. clear Hd.
    induction IH as [|[k x] items Hx _ IHl]; [reflexivity|].
    cbn [forallb fst snd] in *. apply andb_prop in Hk as [Hk1 Hk2].
    apply andb_prop in Hp as [Hp1 Hp2]. apply andb_prop in Hp1 as [Ht Hp1].
    rewrite Ht, (Hx Hk1 Hp1). exact (IHl Hk2 Hp2).
Qed.

Lemma dict_set_keys (acc : list (str * value)) (k : str) (v : value) :
  map fst (dict_set acc k v)
  = if existsb (str_eqb k) (map fst acc) then map fst acc
    else map fst acc ++ [k].
Proof.
  induction acc as [|[k' v'] acc IH]; [reflexivity|].
  cbn [dict_set map fst existsb]. destruct (str_eqb k k'); [reflexivity|].
  cbn [map fst orb]. rewrite IH.
  destruct (existsb (str_eqb k) (map fst acc)); reflexivity.
Qed.

Lemma str_eqb_eq (a b : str) : str_eqb a b = true -> a = b.
Proof.
  unfold str_eqb. destruct (list_eq_dec N.eq_dec a b); [auto | discriminate].
Qed.

Lemma distinct_snoc (keys : list str) (k : str) :
  distinct keys = true -> existsb (str_eqb k) keys = false ->
  distinct (keys ++ [k]) = true.
Proof.
  induction keys as [|x keys IH]; [reflexivity|].
  cbn [distinct existsb app]. intros H Hk.
  apply andb_prop in H as [Hx Hd]. apply orb_false_elim in Hk as [Hkx Hk].
  rewrite (IH Hd Hk), andb_true_r. apply negb_true_iff in Hx.
  rewrite existsb_app, Hx. cbn [existsb orb]. rewrite orb_false_r.
  rewrite str_eqb_sym, Hkx. reflexivity.
Qed.

Lemma dict_set_distinct (acc : list (str * value)) (k : str) (v : value) :
  distinct (map fst acc) = true ->
  distinct (map fst (dict_set acc k v)) = true.
Proof.
  intros H. rewrite dict_set_keys.
  destruct (existsb (str_eqb k) (map fst acc)) eqn:Hk; [exact H|].
  apply distinct_snoc; assumption.
Qed.

Lemma dict_set_values (P : value -> bool) (acc : list (str * value))
                      (k : str) (v : value) :
  forallb (fun kv => P (snd kv)) acc = true -> P v = true ->
  forallb (fun kv => P (snd kv)) (dict_set acc k v) = true.
Proof.
  intros Hacc Hv.
  induction acc as [|[k' v'] acc IH]; cbn [dict_set forallb snd].
  - rewrite Hv. reflexivity.
  - cbn [forallb snd] in Hacc. apply andb_prop in Hacc as [H1 H2].
    destruct (str_eqb k k'); cbn [forallb snd].
    + rewrite Hv, H2. reflexivity.
    + rewrite H1, (IH H2). reflexivity.
Qed.

Lemma match_number_keys (s : str) (v : value) (r : str) :
  match_number s = Some (v, r) -> keys_distinct v = true.
Proof.
  unfold match_number.
  destruct (match s with
            | [] => (false, s)
            | c :: t => if c =? ord "-" then (true, t) else (false, s)
            end) as [neg s1].
  destruct s1 as [|c t]; [discriminate|].
  destruct (if (49 <=? c) && (c <=? 57) then _ else _) as [[ids r0]|];
    [|discriminate].
  destruct (match_frac r0) as [[fds r1]|];
    (destruct (match_exp _) as [[ex r2]|]); cbn; intros [= <- _]; reflexivity.
Qed.

Lemma scan_keys (fuel : nat) :
  (forall s v r, scan_once fuel s = Found v r -> keys_distinct v = true)
  /\ (forall acc s v r,
         parse_array fuel acc s = Found v r ->
         forallb keys_distinct acc = true -> keys_distinct v = true)
  /\ (forall acc s v r,
         parse_object fuel acc s = Found v r ->
         distinct (map fst acc) = true ->
         forallb (fun kv => keys_distinct (snd kv)) acc = true ->
         keys_distinct v = true).
Proof.
  induction fuel as [|fuel (IHs & IHa & IHo)];
    [repeat split; intros; discriminate|].
  repeat split.
  - intros s v r. cbn [scan_once]. destruct s as [|c t]; [discriminate|].
    destruct (c =? DQ).
    { destruct (scanstring t) as [[k r']|]; [|discriminate].
      cbn. intros [= <- _]. reflexivity. }
    destruct (c =? ord "{").
    { destruct (skip_ws t) as [|c' t']; [discriminate|].
      destruct (c' =? ord "}").
      - intros [= <- _]. reflexivity.
      - intros H. apply (IHo _ _ _ _ H); reflexivity. }
    destruct (c =? ord "[").
    { destruct (skip_ws t) as [|c' t']; [discriminate|].
      destruct (c' =? ord "]").
      - intros [= <- _]. reflexivity.
      - intros H. apply (IHa _ _ _ _ H). reflexivity. }
    cbv zeta. intros H.
    assert (Hnum : of_option (match_number (c :: t)) = Found v r ->
                   keys_distinct v = true).
    { destruct (match_number (c :: t)) as [[v' r']|] eqn:Hm; [|discriminate].
      intros [= <- _]. eapply match_number_keys, Hm. }
    repeat match type of H with
           | (if ?b then _ else _) = _ => destruct b
           end;
      try (apply Hnum, H);
      match type of H with
      | match literal ?kw ?v0 ?s with _ => _ end = _ =>
          unfold literal in H;
          destruct (strip_prefix (pystr kw) s);
          [injection H as <- _; reflexivity | apply Hnum, H]
      end.
  - intros acc s v r. cbn [parse_array].
    destruct (scan_once fuel s) as [v0 rest| |] eqn:Hs; try discriminate.
    apply IHs in Hs.
    destruct (skip_ws rest) as [|c t]; [discriminate|].
    assert (Hacc : forallb keys_distinct acc = true ->
                   forallb keys_distinct (acc ++ [v0]) = true).
    { intros Ha. rewrite forallb_app, Ha. cbn. rewrite Hs. reflexivity. }
    destruct (c =? ord "]").
    { intros [= <- _] Ha. exact (Hacc Ha). }
    destruct (c =? ord ","); [|discriminate].
    intros H Ha. exact (IHa _ _ _ _ H (Hacc Ha)).
  - intros acc s v r. cbn [parse_object].
    destruct s as [|q t]; [discriminate|].
    destruct (q =? DQ); [|discriminate].
    destruct (scanstring t) as [[key rest]|]; [|discriminate].
    destruct (skip_ws rest) as [|colon t1]; [discriminate|].
    destruct (colon =? ord ":"); [|discriminate].
    destruct (scan_once fuel (skip_ws t1)) as [v0 rest1| |] eqn:Hs;
      try discriminate.
    apply IHs in Hs.
    destruct (skip_ws rest1) as [|c t2]; [discriminate|].
    destruct (c =? ord "}").
    { intros [= <- _] Hd Ha. cbn [keys_distinct].
      rewrite (dict_set_distinct _ _ _ Hd).
      exact (dict_set_values keys_distinct _ _ _ Ha Hs). }
    destruct (c =? ord ","); [|discriminate].
    intros H Hd Ha.
    exact (IHo _ _ _ _ H (dict_set_distinct _ _ _ Hd)
               (dict_set_values keys_distinct _ _ _ Ha Hs)).
Qed.

Lemma json_loads_keys (s : str) (v : value) :
  json_loads s = Some v -> keys_distinct v = true.
Proof.
  unfold json_loads. destruct (startswith s [BOM]); [discriminate|].
  destruct (scan_once _ _) as [v0 rest| |] eqn:Hs; try discriminate.
  destruct (skip_ws rest); [|discriminate]. intros [= <-].
  eapply (proj1 (scan_keys _)), Hs.
Qed.

Lemma hosted_value_keys (raw : str) : keys_distinct (hosted_value raw) = true.
Proof.
  unfold hosted_value. destruct (nonempty (strip raw)); [|reflexivity].
  destruct (json_loads (strip raw)) eqn:H; [|reflexivity].
  eapply json_loads_keys, H.
Qed.

Lemma local_value_keys (raw : str) : keys_distinct (local_value raw) = true.
Proof.
  unfold local_value, parse_cleaned.
  destruct (nonempty (strip raw)); [|reflexivity].
  destruct (json_loads (Ollama.clean (strip raw))) eqn:H;
    [eapply json_loads_keys, H|].
  destruct (search_braces _) as [group0|]; [|reflexivity].
  destruct (json_loads group0) eqn:H'; [|reflexivity].
  eapply json_loads_keys, H'.
Qed.

(** X18: the metadata either parse step returns for a reply have distinct
    keys in every mapping, as they come from [json.loads] or are the empty
    mapping.  So when their texts are texts of scalar values and they hold
    no decimal number, the file written for them reads back to them. *)
Theorem X18_metadata_of_a_reply_reads_back
  (float_repr : pyfloat -> str) (raw : str) (v : value) :
  v = hosted_value raw \/ v = local_value raw ->
  portable v = true ->
  keys_distinct v = true
  /\ json_loads (json_dump_indent2 float_repr v) = Some v.
Proof.
  intros Hv Hp.
  assert (Hk : keys_distinct v = true).
  { destruct Hv as [-> | ->];
      [apply hosted_value_keys | apply local_value_keys]. }
  split; [exact Hk|].
  destruct (scan_dump float_repr v (plain_split v Hk Hp))
    as (Hbom & Hskip & Hscan).
  unfold json_loads, json_dump_indent2.
  rewrite Hbom, Hskip, Hscan. reflexivity.
Qed.

(** The reply of scenario A, through the local parse step. *)
Lemma X18_metadata_of_a_reply_reads_back_witness :
  keys_distinct (title "X") = true
  /\ json_loads (json_dump_indent2 (fun _ => []) (title "X"))
     = Some (title "X").
Proof.
  apply (X18_metadata_of_a_reply_reads_back (fun _ => []) scenario_A
           (title "X") (or_intror eq_refl) eq_refl).
Defined.

(* ===================================================================== *)
(** * Two documents, one output file *)
(* ===================================================================== *)

(** X19: the name of the output file keeps neither the directory of the
    document nor the case of its extension.  Two names [base.ext] whose
    extensions are [pdf] in any case both pass the filter of
    [process_directory], and from whatever directories they come, their
    metadata go to the one file [base.json] of the output folder: the
    document processed later replaces what the earlier one wrote. *)
Theorem X19_output_name_forgets_directory_and_case
  (output_folder dir1 dir2 base ext1 ext2 : str) :
  nonempty base = true ->
  lacks SEP (base ++ ext1) = true -> lacks SEP (base ++ ext2) = true ->
  lower ext1 = pystr "pdf" -> lower ext2 = pystr "pdf" ->
  is_pdf (base ++ ord "." :: ext1) = true
  /\ is_pdf (base ++ ord "." :: ext2) = true
  /\ output_path output_folder (path_join dir1 (base ++ ord "." :: ext1))
     = path_join output_folder (base ++ pystr ".json")
  /\ output_path output_folder (path_join dir2 (base ++ ord "." :: ext2))
     = path_join output_folder (base ++ pystr ".json").
Proof.
  intros Hb Hs1 Hs2 He1 He2.
  destruct (pdf_output_name dir1 base ext1 Hb Hs1 He1) as [Hp1 Hn1].
  destruct (pdf_output_name dir2 base ext2 Hb Hs2 He2) as [Hp2 Hn2].
  unfold output_path. rewrite Hn1, Hn2. auto.
Qed.

(** [paper.pdf] in [data] and [paper.PDF] in [archive]. *)
Lemma X19_output_name_forgets_directory_and_case_witness :
  is_pdf (pystr "paper.pdf") = true
  /\ is_pdf (pystr "paper.PDF") = true
  /\ output_path (pystr "out") (pystr "data/paper.pdf")
     = pystr "out/paper.json"
  /\ output_path (pystr "out") (pystr "archive/paper.PDF")
     = pystr "out/paper.json".
Proof.
  apply (X19_output_name_forgets_directory_and_case
           (pystr "out") (pystr "data") (pystr "archive") (pystr "paper")
           (pystr "pdf") (pystr "PDF") eq_refl eq_refl eq_refl eq_refl
           eq_refl).
Defined.

(* ===================================================================== *)
(** * extract_metadata: the answer that is used *)
(* ===================================================================== *)



(* ===================================================================== *)
(** * The clean-up of the local variant: the texts it changes *)
(* ===================================================================== *)

Lemma strip_prefix_eq (p s r : str) : strip_prefix p s = Some r -> s = p ++ r.
Proof.
  revert s. induction p as [|a p IH]; intros s; cbn [strip_prefix app].
  - intros [= ->]. reflexivity.
  - destruct s as [|c s]; [discriminate|].
    destruct (N.eqb_spec a c) as [->|]; [|discriminate].
    intros H. f_equal. exact (IH _ H).
Qed.

Lemma contains_split (tok s : str) :
  contains tok s = true -> exists pre post, s = pre ++ tok ++ post.
Proof.
  induction s as [|c t IH]; cbn [contains]; intros H;
    apply orb_prop in H as [H | H].
  - unfold startswith in H. destruct (strip_prefix tok []) as [r|] eqn:Hp;
      [|discriminate]. exists [], r. exact (strip_prefix_eq _ _ _ Hp).
  - discriminate.
  - unfold startswith in H.
    destruct (strip_prefix tok (c :: t)) as [r|] eqn:Hp; [|discriminate].
    exists [], r. exact (strip_prefix_eq _ _ _ Hp).
  - destruct (IH H) as (pre & post & ->). exists (c :: pre), post. reflexivity.
Qed.

Lemma contains_lstrip (tok s : str) :
  contains tok s = false -> contains tok (lstrip s) = false.
Proof.
  induction s as [|c t IH]; [auto|]. intros H. cbn [lstrip].
  destruct (is_space c); [|exact H].
  cbn [contains] in H. apply orb_false_elim in H as [_ H]. exact (IH H).
Qed.

Lemma contains_head (tok s : str) :
  contains tok s = false -> strip_prefix tok s = None.
Proof.
  intros H. destruct s as [|c t]; cbn [contains] in H;
    apply orb_false_elim in H as [H _]; unfold startswith in H;
    destruct (strip_prefix tok _); [discriminate | reflexivity
                                    | discriminate | reflexivity].
Qed.

Lemma re_sub_ws_fence_absent (s : str) :
  contains fence s = false -> re_sub match_ws_fence s = s.
Proof.
  induction s as [|c t IH]; [reflexivity|]. intros H.
  rewrite re_sub_skip.
  - f_equal. apply IH. cbn [contains] in H.
    apply orb_false_elim in H as [_ H]. exact H.
  - unfold match_ws_fence. apply contains_head, contains_lstrip, H.
Qed.

Lemma contains_fence_json (s : str) :
  contains fence s = false -> contains fence_json s = false.
Proof.
  induction s as [|c t IH]; cbn [contains]; intros H;
    apply orb_false_elim in H as [Hs Ht].
  - reflexivity.
  - rewrite (IH Ht), orb_false_r. unfold startswith in *.
    destruct (strip_prefix fence_json (c :: t)) as [r|] eqn:Hp; [|reflexivity].
    apply strip_prefix_eq in Hp. rewrite Hp in Hs.
    change (fence_json ++ r) with (fence ++ pystr "json" ++ r) in Hs.
    rewrite strip_prefix_app in Hs. discriminate Hs.
Qed.

(** X21: the clean-up of the local variant changes exactly the texts that
    hold a fence, three backticks in a row: such a text gets shorter, and
    every other text, backticks or not, goes through both substitutions as
    it is. *)
Theorem X21_clean_changes_exactly_fenced_texts (s : str) :
  if contains fence s
  then (length (Ollama.clean s) < length s)%nat
  else Ollama.clean s = s.
Proof.
  destruct (contains fence s) eqn:H.
  - destruct (contains_split _ _ H) as (pre & post & ->).
    unfold Ollama.clean.
    pose proof (re_sub_length _ match_ws_fence_consuming
                  (re_sub match_fence_json (pre ++ fence ++ post))) as Hle.
    destruct (re_sub_fixed_or_shorter _ match_fence_json_consuming
                (pre ++ fence ++ post)) as [Heq | Hlt]; [|lia].
    rewrite Heq.
    apply (re_sub_shorter _ match_ws_fence_consuming pre (fence ++ post) post).
    unfold match_ws_fence.
    change (lstrip (fence ++ post)) with (fence ++ post).
    apply strip_prefix_app.
  - unfold Ollama.clean.
    rewrite (re_sub_fence_json_absent s (contains_fence_json s H)).
    apply re_sub_ws_fence_absent, H.
Qed.

(* ===================================================================== *)
(** * The retry wrapper: how long a call can wait *)
(* ===================================================================== *)

Lemma wait_exponential_windows :
  map wait_exponential (seq 1 9) = backoff_windows.
Proof. vm_compute. reflexivity. Qed.

Lemma wait_random_exponential_window (u : Q) (attempt_number : nat) :
  (0 <= u)%Q -> (u < 1)%Q ->
  in_window (wait_random_exponential u attempt_number)
            (wait_exponential attempt_number).
Proof.
  intros H0 H1. unfold in_window, wait_random_exponential, wait_min.
  destruct (wait_exponential_bounds attempt_number) as [Hl Hh].
  set (h := wait_exponential attempt_number) in *. split; nra.
Qed.

Lemma total_windows (ds highs : list Q) :
  Forall2 in_window ds highs -> (total ds <= total highs)%Q.
Proof.
  induction 1 as [|d h ds highs [_ Hd] _ IH]; cbn [total fold_right].
  - apply Qle_refl.
  - fold (total ds). fold (total highs). lra.
Qed.

Lemma total_firstn_windows (k : nat) :
  (total (firstn k backoff_windows) <= 367)%Q.
Proof.
  do 10 (destruct k as [|k]; [vm_compute; discriminate|]).
  vm_compute. discriminate.
Qed.

Section Windows.

Context {A : Type}.
Variable E : Env.
Variable fn : M A.
Variable model_id : str.
Variable answer : nat -> pyresult A.

Hypothesis fn_request : forall w, fn w = request model_id answer w.
Hypothesis random_unit :
  forall n, (0 <= random E n)%Q /\ (random E n < 1)%Q.

(** With [left] attempts allowed after the current one, the waits lie in
    the windows of the attempts from the current one on. *)
Lemma retrying_windows (left : nat) :
  (left < max_attempt_number)%nat ->
  forall w, exists tr k,
    trace (snd (retrying E fn left w)) = trace w ++ tr
    /\ Forall2 in_window (delays tr)
         (firstn k (map wait_exponential
                        (seq (max_attempt_number - left) left))).
Proof.
  unfold max_attempt_number.
  induction left as [|left IH]; intros Hlt w.
  - exists [Requested model_id], 0%nat. cbn [retrying]. unfold try_except.
    rewrite fn_request. unfold request.
    destruct (answer (calls w)); cbn; split; auto; constructor.
  - destruct (answer (calls w)) as [v|e] eqn:Hans.
    { exists [Requested model_id], 0%nat. cbn [retrying]. unfold try_except.
      rewrite fn_request. unfold request. rewrite Hans. cbn.
      split; auto; constructor. }
    set (d := wait_random_exponential (random E (draws w)) (10 - S left)).
    set (w1 := mkWorld (dirs w) (files w) (S (calls w)) (S (draws w))
                       ((trace w ++ [Requested model_id]) ++ [Slept d])).
    assert (Hstep : retrying E fn (S left) w = retrying E fn left w1).
    { cbn [retrying]. unfold try_except at 1. rewrite fn_request.
      unfold request at 1. rewrite Hans. unfold bind, draw, sleep, emit.
      cbn. reflexivity. }
    destruct (IH ltac:(lia) w1) as (tr & k & Htr & Hw).
    exists ([Requested model_id; Slept d] ++ tr), (S k). split.
    + rewrite Hstep, Htr. subst w1. cbn [trace]. rewrite <- !app_assoc.
      reflexivity.
    + cbn [seq map firstn]. unfold delays. cbn [app flat_map].
      fold (delays tr). constructor.
      * apply wait_random_exponential_window; apply random_unit.
      * replace (S (10 - S left)) with (10 - left)%nat by lia. exact Hw.
Qed.

Lemma retry_within_windows (w : World) :
  within_windows w (snd (retry E fn w)).
Proof.
  destruct (retrying_windows 9 ltac:(unfold max_attempt_number; lia) w)
    as (tr & k & Htr & Hw).
  change (max_attempt_number - 9)%nat with 1%nat in Hw.
  rewrite wait_exponential_windows in Hw.
  assert (Hk : firstn k backoff_windows
               = firstn (length (delays tr)) backoff_windows).
  { rewrite (Forall2_length Hw), length_firstn, <- firstn_firstn, firstn_all.
    reflexivity. }
  exists tr. split; [exact Htr|]. split.
  - rewrite <- Hk. exact Hw.
  - eapply Qle_trans; [apply (total_windows _ _ Hw)|].
    apply total_firstn_windows.
Qed.

End Windows.

(** X22: the waits of one wrapped backend call grow with the attempts.
    With [random.random()] in the unit interval, whatever the backend
    does, the wait after the [k]-th failed attempt lies between 1 and
    [min (2 ^ (k - 1)) 120] seconds: at most 1, 2, 4, 8, 16, 32, 64, 120
    and 120 seconds.  So a call waits 367 seconds at most, all waits
    together, before it returns or gives up. *)
Theorem X22_waits_lie_in_growing_windows
  (E : Env) (model_id content prompt : str) (w : World) :
  (forall n, (0 <= random E n)%Q /\ (random E n < 1)%Q) ->
  within_windows w
    (snd (Hosted.chat_completion_with_backoff E model_id content w))
  /\ within_windows w
       (snd (Ollama.ollama_completion_with_backoff E model_id prompt w)).
Proof.
  intros Hrand. split.
  - apply (retry_within_windows E _ model_id _ (fun w0 => eq_refl) Hrand).
  - apply (retry_within_windows E _ model_id _
             (ollama_call_request E model_id prompt) Hrand).
Qed.

(** A backend that only times out, and draws of one half. *)
Lemma X22_waits_lie_in_growing_windows_witness :
  within_windows fresh
    (snd (Hosted.chat_completion_with_backoff
            (scripted_env None [] failing_reply) Hosted.MODEL_ID [] fresh)).
Proof.
  apply (proj1 (X22_waits_lie_in_growing_windows
                  (scripted_env None [] failing_reply) Hosted.MODEL_ID [] []
                  fresh
                  (fun n => conj (Qle_bool_imp_le 0 (1 # 2) eq_refl)
                                 (eq_refl : (1 # 2 < 1)%Q)))).
Defined.

(* ===================================================================== *)
(** * Metadata that are false *)
(* ===================================================================== *)



(* ===================================================================== *)
(** * The two parse steps on a reply without fence *)
(* ===================================================================== *)

Lemma strip_prefix_app_r (p s r t : str) :
  strip_prefix p s = Some r -> strip_prefix p (s ++ t) = Some (r ++ t).
Proof.
  revert s. induction p as [|y p IH]; intros s.
  - cbn. intros [= <-]. reflexivity.
  - destruct s as [|z s]; [discriminate|]. cbn [strip_prefix app].
    destruct (y =? z); [apply IH | discriminate].
Qed.

Lemma contains_prefix (tok p q : str) :
  contains tok (p ++ q) = false -> contains tok p = false.
Proof.
  assert (Hhead : forall a, startswith (a ++ q) tok = false ->
                            startswith a tok = false).
  { intros a. unfold startswith.
    destruct (strip_prefix tok a) as [r|] eqn:H; [|reflexivity].
    rewrite (strip_prefix_app_r _ _ _ q H). discriminate. }
  induction p as [|c p IH]; intros H.
  - cbn [contains]. rewrite orb_false_r. apply (Hhead []).
    destruct q; cbn [app contains] in H; apply orb_false_elim in H; apply H.
  - cbn [app contains] in *. apply orb_false_elim in H as [H1 H2].
    rewrite (Hhead (c :: p) H1), (IH H2). reflexivity.
Qed.

Lemma rstrip_split (s : str) : exists ws, s = rstrip s ++ ws.
Proof.
  induction s as [|c t [ws IH]]; [exists []; reflexivity|].
  rewrite rstrip_cons. destruct (is_space c && all_space t).
  - exists (c :: t). reflexivity.
  - exists ws. cbn [app]. f_equal. exact IH.
Qed.

Lemma contains_strip (tok s : str) :
  contains tok s = false -> contains tok (strip s) = false.
Proof.
  intros H. unfold strip. apply contains_lstrip in H.
  destruct (rstrip_split (lstrip s)) as [ws Hws]. rewrite Hws in H.
  exact (contains_prefix _ _ _ H).
Qed.

Lemma clean_no_fence (s : str) :
  contains fence s = false -> Ollama.clean s = s.
Proof.
  intros H. unfold Ollama.clean.
  rewrite (re_sub_fence_json_absent s (contains_fence_json s H)).
  apply re_sub_ws_fence_absent, H.
Qed.



(* ===================================================================== *)
(** * The brace search: what it hands to the second parse *)
(* ===================================================================== *)

Lemma upto_last_close_lacks (t : str) :
  upto_last_close t = None -> lacks RBRACE t = true.
Proof.
  induction t as [|x t IH]; [reflexivity|].
  cbn [upto_last_close]. destruct (upto_last_close t); [discriminate|].
  change (ord "}") with RBRACE. cbn [lacks forallb].
  destruct (x =? RBRACE); [discriminate|]. intros _. exact (IH eq_refl).
Qed.

Lemma upto_last_close_some (t m : str) :
  upto_last_close t = Some m ->
  exists mid post,
    t = mid ++ RBRACE :: post /\ m = mid ++ [RBRACE]
    /\ lacks RBRACE post = true.
Proof.
  revert m. induction t as [|c t IH]; intros m; [discriminate|].
  cbn [upto_last_close]. destruct (upto_last_close t) as [m'|] eqn:Ht.
  - intros [= <-]. destruct (IH m' eq_refl) as (mid & post & -> & -> & Hp).
    exists (c :: mid), post. auto.
  - change (ord "}") with RBRACE. destruct (N.eqb_spec c RBRACE) as [->|];
      [|discriminate].
    intros [= <-]. exists [], t. repeat split.
    exact (upto_last_close_lacks t Ht).
Qed.

Lemma lacks_middle (ch : N) (a b : str) : lacks ch (a ++ ch :: b) = false.
Proof.
  rewrite lacks_app. cbn [lacks forallb]. rewrite N.eqb_refl.
  cbn [negb andb]. apply andb_false_r.
Qed.

(** X25: the text the brace search hands to the second parse runs from the
    first opening brace of the cleaned text through its last closing
    brace, whatever lies between them; and the search finds nothing
    exactly when no closing brace follows an opening one.  So of two
    objects in one reply the search takes neither: it takes the text from
    the start of the first through the end of the second. *)
Theorem X25_brace_search_spans_first_to_last (s : str) :
  match search_braces s with
  | Some group0 =>
      exists pre mid post,
        s = pre ++ group0 ++ post
        /\ group0 = LBRACE :: mid ++ [RBRACE]
        /\ lacks LBRACE pre = true /\ lacks RBRACE post = true
  | None =>
      forall pre mid post, s <> pre ++ LBRACE :: mid ++ RBRACE :: post
  end.
Proof.
  induction s as [|c t IH]; cbn [search_braces].
  - intros [|x pre] mid post; discriminate.
  - change (ord "{") with LBRACE. destruct (N.eqb_spec c LBRACE) as [->|Hc].
    + destruct (upto_last_close t) as [m|] eqn:Hm.
      * destruct (upto_last_close_some t m Hm) as (mid & post & -> & -> & Hp).
        exists [], mid, post. cbn [app]. rewrite <- app_assoc. auto.
      * apply upto_last_close_lacks in Hm. intros pre mid post Heq.
        destruct pre as [|x pre]; cbn [app] in Heq.
        -- injection Heq as ->. rewrite lacks_middle in Hm. discriminate.
        -- injection Heq as _ ->.
           change (pre ++ LBRACE :: mid ++ RBRACE :: post)
             with (pre ++ (LBRACE :: mid) ++ RBRACE :: post) in Hm.
           rewrite app_assoc, lacks_middle in Hm. discriminate.
    + destruct (search_braces t) as [g|].
      * destruct IH as (pre & mid & post & -> & -> & Hpre & Hpost).
        exists (c :: pre), mid, post. cbn [app lacks forallb].
        apply N.eqb_neq in Hc. rewrite Hc. auto.
      * intros [|x pre] mid post Heq; cbn [app] in Heq.
        -- injection Heq as -> _. contradiction.
        -- injection Heq as _ ->. exact (IH pre mid post eq_refl).
Qed.
